(** * Microblogging service: repositories and services

    A shallow embedding of the data-access layer
    ([app/api/*/repositoryes.py]) and of the service layer
    ([app/api/*/service.py]) of the micro-blogging backend, over a relational
    model of the tables declared in [app/database/models/models.py].

    - A table is the list of its rows, in storage order.
    - A repository method is a computation in a state-and-exception monad
      over the [World]: the database, the upload directory and the trace of
      store calls issued so far.  A raised exception keeps the world as it
      was at the point of the [raise]: every repository write commits at
      once, nothing is rolled back by a later failure.
    - The [filter] methods are annotated [-> Any] in the source; their results
      are values of the dynamic type [Any], on which the services use
      [is None], truthiness, [len], indexing and iteration.
    - The database is PostgreSQL ([config.py]), reached through asyncpg: the
      primary keys, the [UniqueConstraint]s and the foreign keys of the models
      are checked when an insert commits ([IntegrityError]); a negative
      [OFFSET] or [LIMIT], or one beyond the 64-bit range, is rejected, and so
      is a tweet or user key taken from a request that is outside the 32-bit
      range of the [INTEGER] columns ([DBAPIError]; the keys read from stored
      rows are within the range).
    - Three choices the database leaves open are fixed in the definitions: a
      new key is one more than the largest key of the table (a sequence hands
      out some key that is not in use), rows without [ORDER BY] come in
      storage order, and [ORDER BY] keeps the storage order of rows that tie
      on every key (their order is not specified).  What is proved of the
      rows a service inserts and of the order of the feed does not rest on
      these choices: it speaks of a key that is not in use, and of an order
      that agrees with the sort keys.
    - The file system is the set of paths that exist, together with the
      error, if any, that opening a path for writing meets
      ([open_error]: a missing directory, a path that names a directory);
      removing a missing file raises [FileNotFoundError]. *)

From Stdlib Require Import List ZArith String Ascii Bool Lia.
From Stdlib Require Import Sorted Permutation.
Import ListNotations.

Open Scope Z_scope.

(* ------------------------------------------------------------------ *)
(** ** Python values and exceptions *)

(** What a repository [filter] may hand back: [None], one mapped object, or
    the list produced by [scalars().all()]. *)
Inductive Any (A : Type) : Type :=
| PyNone
| PyObj (a : A)
| PyList (l : list A).

Arguments PyNone {A}.
Arguments PyObj {A} a.
Arguments PyList {A} l.

(** [x is None]. *)
Definition is_None {A} (x : Any A) : bool :=
  match x with
  | PyNone => true
  | _ => false
  end.

(** Truth value of [x] in an [if]: [None] and the empty list are false, a
    mapped object (no [__bool__], no [__len__]) is true. *)
Definition truthy {A} (x : Any A) : bool :=
  match x with
  | PyNone => false
  | PyObj _ => true
  | PyList l => match l with [] => false | _ :: _ => true end
  end.

(** Truth value of an [Optional[...]] result. *)
Definition truthy_opt {A} (x : option A) : bool :=
  match x with
  | Some _ => true
  | None => false
  end.

Inductive Exception : Type :=
| HTTPException (status_code : Z) (detail : string)
| FileNotFoundError (msg : string)
| TypeError
| AttributeError
| IndexError
| IntegrityError (constraint : string)
| MultipleResultsFound
| DBAPIError.

Inductive Result (A : Type) : Type :=
| Ok (a : A)
| Raise (e : Exception).

Arguments Ok {A} a.
Arguments Raise {A} e.

(* ------------------------------------------------------------------ *)
(** ** [os.path] (posixpath) *)

Module os_path.

Definition sep : ascii := "/"%char.

Fixpoint has_sep (p : string) : bool :=
  match p with
  | EmptyString => false
  | String c r => (Ascii.eqb c sep) || has_sep r
  end.

(** [basename(p)]: what follows the last separator. *)
Fixpoint basename (p : string) : string :=
  match p with
  | EmptyString => EmptyString
  | String c r =>
      if (Ascii.eqb c sep) || has_sep r then basename r else String c r
  end.

Definition startswith_sep (p : string) : bool :=
  match p with
  | String c _ => Ascii.eqb c sep
  | EmptyString => false
  end.

Fixpoint endswith_sep (p : string) : bool :=
  match p with
  | EmptyString => false
  | String c EmptyString => Ascii.eqb c sep
  | String _ r => endswith_sep r
  end.

(** [join(a, b)]. *)
Definition join (a b : string) : string :=
  if startswith_sep b then b
  else if (match a with EmptyString => true | _ => false end) || endswith_sep a
       then (a ++ b)%string
       else (a ++ String sep b)%string.

End os_path.

(* ------------------------------------------------------------------ *)
(** ** Models ([models.py]) *)

Module Users.
Record t : Type := mk
  { id : Z;
    name : option string;
    api_key : option string;
    created_at : Z }.
End Users.

Module Tweets.
Record t : Type := mk
  { id : Z;
    user_id : option Z;
    content : option string;
    created_at : Z }.
End Tweets.

Module Media.
Record t : Type := mk
  { id : Z;
    file_path : option string;
    user_id : Z;
    created_at : Z }.
End Media.

Module TweetMedia.
Record t : Type := mk
  { id : Z;
    tweet_id : Z;
    media_id : Z }.

(** A loaded association with its [media] relationship
    ([lazy="selectin"]). *)
Record obj : Type := mk_obj
  { row : t;
    media : option Media.t }.
End TweetMedia.

Module Like.
Record t : Type := mk
  { id : Z;
    tweet_id : Z;
    user_id : Z;
    created_at : Z }.

(** A loaded like with its [user] relationship ([lazy="joined"]). *)
Record obj : Type := mk_obj
  { row : t;
    user : option Users.t }.
End Like.

Module Follower.
Record t : Type := mk
  { id : Z;
    follower_id : Z;
    followee_id : Z;
    created_at : Z }.
End Follower.

(** A loaded tweet with the relationships the services read. *)
Module TweetObj.
Record t : Type := mk
  { row : Tweets.t;
    author : option Users.t;
    media : list TweetMedia.obj;
    likes : list Like.obj }.
End TweetObj.

(* ------------------------------------------------------------------ *)
(** ** The world: database, upload directory, trace of store calls *)

Record DB : Type := mkDB
  { users : list Users.t;
    tweets : list Tweets.t;
    media : list Media.t;
    tweet_media : list TweetMedia.t;
    likes : list Like.t;
    followers : list Follower.t }.

(** Field-equality keyword arguments ([getattr(Model, field) == value]). *)
Inductive FollowerKw : Type :=
| follower_id_eq (v : Z)
| followee_id_eq (v : Z)
| follower_pk_eq (v : Z).

Inductive TweetKw : Type :=
| tweet_pk_eq (v : Z)
| tweet_user_id_eq (v : Z).

Inductive TweetMediaKw : Type :=
| tm_pk_eq (v : Z)
| tm_tweet_id_eq (v : Z)
| tm_media_id_eq (v : Z).

Inductive LikeKw : Type :=
| like_pk_eq (v : Z)
| like_tweet_id_eq (v : Z)
| like_user_id_eq (v : Z).

Inductive MediaKw : Type :=
| media_pk_eq (v : Z)
| media_user_id_eq (v : Z).

(** The store calls a service can issue, as recorded in the trace. *)
Inductive Call : Type :=
| user_repo_get_by_id (user_id : Z)
| follow_repo_add (follower_id followee_id : Z)
| follow_repo_delete (id : Z)
| follow_repo_get_subscribe (kw : list FollowerKw)
| follow_repo_filter (kw : list FollowerKw)
| tweet_repo_get_by_id (id : Z)
| tweet_repo_add
| tweet_repo_delete (id : Z)
| tweet_repo_filter (kw : list TweetKw) (limit offset : option Z)
| media_repo_add
| media_repo_delete (id : Z)
| media_repo_filter
| tm_repo_add_all (n : nat)
| tm_repo_filter (kw : list TweetMediaKw)
| like_repo_add (tweet_id user_id : Z)
| like_repo_delete (id : Z)
| like_repo_filter (kw : list LikeKw)
| os_remove_call (path : string)
| file_write (path : string).

Record World : Type := mkWorld
  { db : DB;
    files : list string;   (* paths present in the file system *)
    now : Z;               (* what [func.now()] yields *)
    trace : list Call;     (* most recent call last *)
    open_error : string -> option Exception }.
                           (* what [open(path, "wb")] raises, if anything *)

Record Settings : Type := mkSettings
  { UPL_DIR : string;
    SAVE_PATH : string }.

(* ------------------------------------------------------------------ *)
(** ** The monad of service code *)

Definition M (A : Type) : Type := World -> Result A * World.

Definition ret {A} (a : A) : M A := fun w => (Ok a, w).

Definition bind {A B} (m : M A) (f : A -> M B) : M B :=
  fun w =>
    match m w with
    | (Ok a, w') => f a w'
    | (Raise e, w') => (Raise e, w')
    end.

Definition raise {A} (e : Exception) : M A := fun w => (Raise e, w).

Definition get_db : M DB := fun w => (Ok (db w), w).

Definition put_db (d : DB) : M unit :=
  fun w => (Ok tt, mkWorld d (files w) (now w) (trace w) (open_error w)).

Definition get_now : M Z := fun w => (Ok (now w), w).

Definition record (c : Call) : M unit :=
  fun w =>
    (Ok tt, mkWorld (db w) (files w) (now w) (trace w ++ [c]) (open_error w)).

Declare Scope py_scope.
Delimit Scope py_scope with py.
Notation "x <- m ;; k" := (bind m (fun x => k))
  (at level 61, m at next level, right associativity) : py_scope.
Notation "m ;;; k" := (bind m (fun _ => k))
  (at level 61, right associativity) : py_scope.
Open Scope py_scope.

(** [for x in l: body(x)]. *)
Fixpoint for_each {A} (l : list A) (body : A -> M unit) : M unit :=
  match l with
  | [] => ret tt
  | x :: r => body x ;;; for_each r body
  end.

(** [[f(x) for x in l]] where [f] may raise. *)
Fixpoint map_M {A B} (f : A -> M B) (l : list A) : M (list B) :=
  match l with
  | [] => ret []
  | x :: r => y <- f x ;; ys <- map_M f r ;; ret (y :: ys)
  end.

(** Iterating over, measuring and indexing a dynamic value. *)
Definition py_iter {A} (x : Any A) : M (list A) :=
  match x with
  | PyList l => ret l
  | _ => raise TypeError
  end.

Definition py_len {A} (x : Any A) : M Z :=
  match x with
  | PyList l => ret (Z.of_nat (List.length l))
  | _ => raise TypeError
  end.

Definition py_first {A} (x : Any A) : M A :=
  match x with
  | PyList (a :: _) => ret a
  | PyList [] => raise IndexError
  | _ => raise TypeError
  end.

(** Using a dynamic value as one mapped object. *)
Definition py_obj {A} (x : Any A) : M A :=
  match x with
  | PyObj a => ret a
  | _ => raise AttributeError
  end.

(** Attribute access on a relationship that may be [None]. *)
Definition attr {A} (x : option A) : M A :=
  match x with
  | Some a => ret a
  | None => raise AttributeError
  end.

(* ------------------------------------------------------------------ *)
(** ** Query results ([sqlalchemy.engine.Result]) *)

(** [result.scalar_one_or_none()]. *)
Definition scalar_one_or_none {A} (rows : list A) : M (option A) :=
  match rows with
  | [] => ret None
  | [a] => ret (Some a)
  | _ :: _ :: _ => raise MultipleResultsFound
  end.

(** [result.scalars().first()]. *)
Definition scalars_first {A} (rows : list A) : option A :=
  match rows with
  | [] => None
  | a :: _ => Some a
  end.

(** An [Optional] value returned through an [Any]-typed method. *)
Definition as_any {A} (x : option A) : Any A :=
  match x with
  | Some a => PyObj a
  | None => PyNone
  end.

(** [result.scalars().all()]. *)
Definition scalars_all {A} (rows : list A) : Any A := PyList rows.

(** Autoincrement primary key: the sequence hands out a key that is not in
    use; here, one more than the largest key in use. *)
Definition next_id (ids : list Z) : Z := 1 + fold_right Z.max 0 ids.

(** The range of an [INTEGER] column, and the largest 64-bit integer. *)
Definition in_int32 (v : Z) : bool :=
  (-2147483648 <=? v) && (v <=? 2147483647).

Definition max_int64 : Z := 9223372036854775807.

(** The rows of a statement that compares the parameters [values] with
    [INTEGER] columns.  The driver encodes such a parameter on 32 bits and
    refuses a value outside the range ([DBAPIError], no row is read).  No
    stored row holds a value outside the range, so a refused statement is one
    that selects nothing: the refusal is reported there. *)
Definition int32_params {A} (values : list Z) (rows : list A) : M (list A) :=
  match rows with
  | [] => if forallb in_int32 values then ret [] else raise DBAPIError
  | _ :: _ => ret rows
  end.

(* ------------------------------------------------------------------ *)
(** ** Repositories ([user/repositoryes.py], [tweet/repositoryes.py]) *)

Definition user_exists (d : DB) (uid : Z) : bool :=
  existsb (fun u => Users.id u =? uid) (users d).

Definition tweet_exists (d : DB) (tid : Z) : bool :=
  existsb (fun t => Tweets.id t =? tid) (tweets d).

Definition media_exists (d : DB) (mid : Z) : bool :=
  existsb (fun m => Media.id m =? mid) (media d).

Module UserRepository.

Definition get_by_id (user_id : Z) : M (option Users.t) :=
  record (user_repo_get_by_id user_id) ;;;
  d <- get_db ;;
  rows <- int32_params [user_id]
                       (filter (fun u => Users.id u =? user_id) (users d)) ;;
  scalar_one_or_none rows.

End UserRepository.

Module FollowerRepository.

Definition holds (f : Follower.t) (k : FollowerKw) : bool :=
  match k with
  | follower_id_eq v => Follower.follower_id f =? v
  | followee_id_eq v => Follower.followee_id f =? v
  | follower_pk_eq v => Follower.id f =? v
  end.

(** The [WHERE] clause built from [kwargs]. *)
Definition matches (kw : list FollowerKw) (f : Follower.t) : bool :=
  forallb (holds f) kw.

(** [add]: the insert is checked against [unique_follower_followee] and the
    two foreign keys at commit; the refreshed row is handed back. *)
Definition add (follower_id followee_id : Z) : M Follower.t :=
  record (follow_repo_add follower_id followee_id) ;;;
  d <- get_db ;;
  t <- get_now ;;
  if existsb (fun f => (Follower.follower_id f =? follower_id)
                       && (Follower.followee_id f =? followee_id))
             (followers d)
  then raise (IntegrityError "unique_follower_followee")
  else if negb (user_exists d follower_id)
  then raise (IntegrityError "followers_follower_id_fkey")
  else if negb (user_exists d followee_id)
  then raise (IntegrityError "followers_followee_id_fkey")
  else
    let follow :=
      Follower.mk (next_id (map Follower.id (followers d)))
                  follower_id followee_id t in
    put_db (mkDB (users d) (tweets d) (media d) (tweet_media d) (likes d)
                 (followers d ++ [follow])) ;;;
    ret follow.

Definition delete (follow : Follower.t) : M unit :=
  record (follow_repo_delete (Follower.id follow)) ;;;
  d <- get_db ;;
  put_db (mkDB (users d) (tweets d) (media d) (tweet_media d) (likes d)
               (filter (fun f => negb (Follower.id f =? Follower.id follow))
                       (followers d))).

Definition get_subscribe (kw : list FollowerKw) : M (option Follower.t) :=
  record (follow_repo_get_subscribe kw) ;;;
  d <- get_db ;;
  scalar_one_or_none (filter (matches kw) (followers d)).

Definition filter (kw : list FollowerKw) : M (Any Follower.t) :=
  record (follow_repo_filter kw) ;;;
  d <- get_db ;;
  ret (scalars_all (List.filter (matches kw) (followers d))).

End FollowerRepository.

(** Custom filters and ordering expressions handed to [TweetRepository.filter]
    and [MediaRepository.filter]. *)
Inductive TweetExpr : Type :=
| Tweets_user_id_in (l : list Z).

Inductive TweetOrder : Type :=
| likes_count_desc
| created_at_desc.

Inductive MediaExpr : Type :=
| Media_id_in (l : list Z)
| Media_user_id_is (v : Z).

Inductive LoadOption : Type :=
| selectinload_author
| selectinload_media
| selectinload_media_media
| selectinload_likes_user.

Module TweetRepository.

Record Kwargs : Type := mkKwargs
  { kw : list TweetKw;
    options : list LoadOption;
    custom_filters : list TweetExpr;
    order_by : list TweetOrder;
    limit : option Z;
    offset : option Z }.

Definition holds (t : Tweets.t) (k : TweetKw) : bool :=
  match k with
  | tweet_pk_eq v => Tweets.id t =? v
  | tweet_user_id_eq v =>
      match Tweets.user_id t with
      | Some u => u =? v
      | None => false
      end
  end.

Definition eval (t : Tweets.t) (e : TweetExpr) : bool :=
  match e with
  | Tweets_user_id_in l =>
      match Tweets.user_id t with
      | Some u => existsb (Z.eqb u) l
      | None => false
      end
  end.

(** [Tweets.likes_count] as an SQL expression: the correlated count of the
    [likes] rows of the tweet. *)
Definition likes_count (d : DB) (t : Tweets.t) : Z :=
  Z.of_nat (List.length
              (filter (fun l => Like.tweet_id l =? Tweets.id t) (likes d))).

Definition order_key (d : DB) (o : TweetOrder) (t : Tweets.t) : Z :=
  match o with
  | likes_count_desc => likes_count d t
  | created_at_desc => Tweets.created_at t
  end.

(** [ORDER BY k1 DESC, k2 DESC, ...]: [Lt] when [a] sorts before [b]. *)
Fixpoint order_cmp (d : DB) (keys : list TweetOrder) (a b : Tweets.t)
  : comparison :=
  match keys with
  | [] => Eq
  | k :: r =>
      match order_key d k b ?= order_key d k a with
      | Eq => order_cmp d r a b
      | c => c
      end
  end.

Fixpoint insert_sorted (d : DB) (keys : list TweetOrder) (x : Tweets.t)
  (l : list Tweets.t) : list Tweets.t :=
  match l with
  | [] => [x]
  | y :: r =>
      match order_cmp d keys x y with
      | Lt => x :: y :: r
      | _ => y :: insert_sorted d keys x r
      end
  end.

(** The rows in the order [ORDER BY] asks for; rows that tie on every key
    keep their relative order. *)
Definition sort_rows (d : DB) (keys : list TweetOrder) (l : list Tweets.t)
  : list Tweets.t :=
  fold_right (insert_sorted d keys) [] (rev l).

(** [select(Tweets).outerjoin(Like, Tweets.id == Like.tweet_id)]. *)
Definition outerjoin (ts : list Tweets.t) (ls : list Like.t)
  : list (Tweets.t * option Like.t) :=
  flat_map
    (fun t =>
       match filter (fun l => Like.tweet_id l =? Tweets.id t) ls with
       | [] => [(t, None)]
       | m => map (fun l => (t, Some l)) m
       end)
    ts.

(** [.group_by(Tweets.id)]: one row per tweet id, in order of first
    appearance. *)
Fixpoint group_by_id (seen : list Z) (rows : list (Tweets.t * option Like.t))
  : list Tweets.t :=
  match rows with
  | [] => []
  | (t, _) :: r =>
      if existsb (Z.eqb (Tweets.id t)) seen then group_by_id seen r
      else t :: group_by_id (Tweets.id t :: seen) r
  end.

Definition load_media (d : DB) (tm : TweetMedia.t) : TweetMedia.obj :=
  TweetMedia.mk_obj
    tm (find (fun m => Media.id m =? TweetMedia.media_id tm) (media d)).

Definition load_like (d : DB) (l : Like.t) : Like.obj :=
  Like.mk_obj l (find (fun u => Users.id u =? Like.user_id l) (users d)).

(** The mapped object of a row, with its relationships as the database has
    them when the query runs. *)
Definition load (d : DB) (t : Tweets.t) : TweetObj.t :=
  TweetObj.mk
    t
    (match Tweets.user_id t with
     | Some u => find (fun x => Users.id x =? u) (users d)
     | None => None
     end)
    (map (load_media d)
         (filter (fun tm => TweetMedia.tweet_id tm =? Tweets.id t)
                 (tweet_media d)))
    (map (load_like d)
         (filter (fun l => Like.tweet_id l =? Tweets.id t) (likes d))).

Definition get_by_id (tweet_id : Z) : M (option Tweets.t) :=
  record (tweet_repo_get_by_id tweet_id) ;;;
  d <- get_db ;;
  rows <- int32_params [tweet_id]
                       (filter (fun t => Tweets.id t =? tweet_id) (tweets d)) ;;
  scalar_one_or_none rows.

(** [add(Tweets(content=..., user_id=...))]. *)
Definition add (content : option string) (user_id : option Z)
  : M Tweets.t :=
  record tweet_repo_add ;;;
  d <- get_db ;;
  t <- get_now ;;
  if negb (match user_id with
           | Some u => user_exists d u
           | None => true
           end)
  then raise (IntegrityError "tweets_user_id_fkey")
  else
    let tweet :=
      Tweets.mk (next_id (map Tweets.id (tweets d))) user_id content t in
    put_db (mkDB (users d) (tweets d ++ [tweet]) (media d) (tweet_media d)
                 (likes d) (followers d)) ;;;
    ret tweet.

(** [delete(tweet)]: the [likes] and [media] relationships cascade. *)
Definition delete (tweet : Tweets.t) : M unit :=
  record (tweet_repo_delete (Tweets.id tweet)) ;;;
  d <- get_db ;;
  put_db (mkDB
            (users d)
            (filter (fun t => negb (Tweets.id t =? Tweets.id tweet))
                    (tweets d))
            (media d)
            (filter (fun tm =>
                       negb (TweetMedia.tweet_id tm =? Tweets.id tweet))
                    (tweet_media d))
            (filter (fun l => negb (Like.tweet_id l =? Tweets.id tweet))
                    (likes d))
            (followers d)).

(** The rows the statement selects, before [OFFSET] and [LIMIT]. *)
Definition ordered_rows (d : DB) (a : Kwargs) : list Tweets.t :=
  let joined := outerjoin (tweets d) (likes d) in
  let selected :=
    List.filter
      (fun p => forallb (holds (fst p)) (kw a)
                && forallb (eval (fst p)) (custom_filters a))
      joined in
  let grouped := group_by_id [] selected in
  match order_by a with
  | [] => grouped
  | keys => sort_rows d keys grouped
  end.

(** The values the keyword arguments compare the columns with. *)
Definition kw_values (kw : list TweetKw) : list Z :=
  map (fun k => match k with
                | tweet_pk_eq v => v
                | tweet_user_id_eq v => v
                end) kw.

(** A negative [OFFSET] or [LIMIT] is refused by the server, one beyond the
    64-bit range by the driver. *)
Definition apply_offset {A} (offset : option Z) (rows : list A)
  : M (list A) :=
  match offset with
  | None => ret rows
  | Some o => if (o <? 0) || (max_int64 <? o) then raise DBAPIError
              else ret (skipn (Z.to_nat o) rows)
  end.

Definition apply_limit {A} (limit : option Z) (rows : list A)
  : M (list A) :=
  match limit with
  | None => ret rows
  | Some n => if (n <? 0) || (max_int64 <? n) then raise DBAPIError
              else ret (firstn (Z.to_nat n) rows)
  end.

Definition filter (a : Kwargs) : M (Any TweetObj.t) :=
  record (tweet_repo_filter (kw a) (limit a) (offset a)) ;;;
  d <- get_db ;;
  rows <- int32_params (kw_values (kw a)) (ordered_rows d a) ;;
  rows <- apply_offset (offset a) rows ;;
  rows <- apply_limit (limit a) rows ;;
  ret (scalars_all (map (load d) rows)).

End TweetRepository.

Module MediaRepository.

Record Kwargs : Type := mkKwargs
  { kw : list MediaKw;
    options : list LoadOption;
    custom_filters : list MediaExpr }.

Definition holds (m : Media.t) (k : MediaKw) : bool :=
  match k with
  | media_pk_eq v => Media.id m =? v
  | media_user_id_eq v => Media.user_id m =? v
  end.

Definition eval (m : Media.t) (e : MediaExpr) : bool :=
  match e with
  | Media_id_in l => existsb (Z.eqb (Media.id m)) l
  | Media_user_id_is v => Media.user_id m =? v
  end.

(** [add(Media(file_path=..., user_id=...))]. *)
Definition add (file_path : option string) (user_id : Z) : M Media.t :=
  record media_repo_add ;;;
  d <- get_db ;;
  t <- get_now ;;
  if negb (user_exists d user_id)
  then raise (IntegrityError "media_user_id_fkey")
  else
    let m := Media.mk (next_id (map Media.id (media d))) file_path user_id t in
    put_db (mkDB (users d) (tweets d) (media d ++ [m]) (tweet_media d)
                 (likes d) (followers d)) ;;;
    ret m.

(** [delete(media)]: the [tweet_media] relationship cascades. *)
Definition delete (m : Media.t) : M unit :=
  record (media_repo_delete (Media.id m)) ;;;
  d <- get_db ;;
  put_db (mkDB
            (users d) (tweets d)
            (filter (fun x => negb (Media.id x =? Media.id m)) (media d))
            (filter (fun tm => negb (TweetMedia.media_id tm =? Media.id m))
                    (tweet_media d))
            (likes d) (followers d)).

Definition filter (a : Kwargs) : M (Any Media.t) :=
  record media_repo_filter ;;;
  d <- get_db ;;
  ret (scalars_all
         (List.filter
            (fun m => forallb (holds m) (kw a)
                      && forallb (eval m) (custom_filters a))
            (media d))).

End MediaRepository.

Module TweetMediaRepository.

Definition holds (tm : TweetMedia.t) (k : TweetMediaKw) : bool :=
  match k with
  | tm_pk_eq v => TweetMedia.id tm =? v
  | tm_tweet_id_eq v => TweetMedia.tweet_id tm =? v
  | tm_media_id_eq v => TweetMedia.media_id tm =? v
  end.

Definition matches (kw : list TweetMediaKw) (tm : TweetMedia.t) : bool :=
  forallb (holds tm) kw.

(** The table after inserting the records one by one, or the constraint
    that the first offending record violates. *)
Fixpoint insert_all (d : DB) (tbl : list TweetMedia.t) (rec : list (Z * Z))
  : Result (list TweetMedia.t) :=
  match rec with
  | [] => Ok tbl
  | (tid, mid) :: r =>
      if existsb (fun tm => (TweetMedia.tweet_id tm =? tid)
                            && (TweetMedia.media_id tm =? mid)) tbl
      then Raise (IntegrityError "unique_tweet_media")
      else if negb (tweet_exists d tid)
      then Raise (IntegrityError "tweet_media_tweet_id_fkey")
      else if negb (media_exists d mid)
      then Raise (IntegrityError "tweet_media_media_id_fkey")
      else
        insert_all
          d (tbl ++ [TweetMedia.mk (next_id (map TweetMedia.id tbl)) tid mid])
          r
  end.

(** [add_all([TweetMedia(tweet_id=..., media_id=...), ...])]: one commit,
    all rows or none. *)
Definition add_all (rec : list (Z * Z)) : M unit :=
  record (tm_repo_add_all (List.length rec)) ;;;
  d <- get_db ;;
  match insert_all d (tweet_media d) rec with
  | Ok tbl =>
      put_db (mkDB (users d) (tweets d) (media d) tbl (likes d) (followers d))
  | Raise e => raise e
  end.

Definition filter (kw : list TweetMediaKw) : M (Any TweetMedia.t) :=
  record (tm_repo_filter kw) ;;;
  d <- get_db ;;
  ret (as_any (scalars_first (List.filter (matches kw) (tweet_media d)))).

End TweetMediaRepository.

Module LikeRepository.

Definition holds (l : Like.t) (k : LikeKw) : bool :=
  match k with
  | like_pk_eq v => Like.id l =? v
  | like_tweet_id_eq v => Like.tweet_id l =? v
  | like_user_id_eq v => Like.user_id l =? v
  end.

Definition matches (kw : list LikeKw) (l : Like.t) : bool :=
  forallb (holds l) kw.

(** [add(Like(tweet_id=..., user_id=...))], checked against
    [unique_like_tweet] and the foreign keys. *)
Definition add (tweet_id user_id : Z) : M unit :=
  record (like_repo_add tweet_id user_id) ;;;
  d <- get_db ;;
  t <- get_now ;;
  if existsb (fun l => (Like.tweet_id l =? tweet_id)
                       && (Like.user_id l =? user_id)) (likes d)
  then raise (IntegrityError "unique_like_tweet")
  else if negb (tweet_exists d tweet_id)
  then raise (IntegrityError "likes_tweet_id_fkey")
  else if negb (user_exists d user_id)
  then raise (IntegrityError "likes_user_id_fkey")
  else
    put_db (mkDB (users d) (tweets d) (media d) (tweet_media d)
                 (likes d
                  ++ [Like.mk (next_id (map Like.id (likes d)))
                              tweet_id user_id t])
                 (followers d)).

Definition delete (like : Like.t) : M unit :=
  record (like_repo_delete (Like.id like)) ;;;
  d <- get_db ;;
  put_db (mkDB (users d) (tweets d) (media d) (tweet_media d)
               (filter (fun l => negb (Like.id l =? Like.id like)) (likes d))
               (followers d)).

Definition filter (kw : list LikeKw) : M (Any Like.t) :=
  record (like_repo_filter kw) ;;;
  d <- get_db ;;
  like <- scalar_one_or_none (List.filter (matches kw) (likes d)) ;;
  ret (as_any like).

End LikeRepository.

(* ------------------------------------------------------------------ *)
(** ** File system calls *)

Definition errno2 (path : string) : string :=
  ("[Errno 2] No such file or directory: '" ++ path ++ "'")%string.

(** [os.remove(path)]. *)
Definition os_remove (path : string) : M unit :=
  record (os_remove_call path) ;;;
  fun w =>
    if existsb (String.eqb path) (files w)
    then (Ok tt,
          mkWorld (db w)
                  (filter (fun p => negb (String.eqb path p)) (files w))
                  (now w) (trace w) (open_error w))
    else (Raise (FileNotFoundError (errno2 path)), w).

(** [with open(path, "wb") as buffer: shutil.copyfileobj(...)]: [open]
    raises what the file system answers for the path (no such directory, the
    path is a directory, ...); otherwise the file exists afterwards (contents
    are not tracked). *)
Definition write_file (path : string) : M unit :=
  record (file_write path) ;;;
  fun w =>
    match open_error w path with
    | Some e => (Raise e, w)
    | None =>
        (Ok tt,
         mkWorld (db w)
                 (if existsb (String.eqb path) (files w) then files w
                  else files w ++ [path])
                 (now w) (trace w) (open_error w))
    end.

(** [os.path.basename] of a nullable column: [None] is a [TypeError]. *)
Definition os_path_basename (p : option string) : M string :=
  match p with
  | Some s => ret (os_path.basename s)
  | None => raise TypeError
  end.

(* ------------------------------------------------------------------ *)
(** ** Schemas ([schemas.py]) *)

Record GeneralAnswer : Type := mkGeneralAnswer { result : bool }.

Record TweetCreate : Type := mkTweetCreate
  { tweet_data : string;
    tweet_media_ids : option (list Z) }.

Record TweetOut : Type := mkTweetOut
  { tweet_out_result : bool;
    tweet_id : Z }.

Record MediaResponse : Type := mkMediaResponse
  { media_response_result : bool;
    media_id : Z }.

Record AuthorBasic : Type := mkAuthorBasic
  { author_id : Z;
    author_name : option string }.

Record LikeBasic : Type := mkLikeBasic
  { like_user_id : Z;
    like_name : option string }.

Record TweetDetails : Type := mkTweetDetails
  { details_id : Z;
    details_content : option string;
    attachments : list (option string);
    author : AuthorBasic;
    details_likes : list LikeBasic }.

Record TweetResponse : Type := mkTweetResponse
  { tweet_response_result : bool;
    tweets_list : list TweetDetails }.

Record UploadFile : Type := mkUploadFile { filename : option string }.

(* ------------------------------------------------------------------ *)
(** ** [UserServices] ([user/service.py]) *)

Module UserServices.

Definition add_subscribe (user : Users.t) (id : Z) : M GeneralAnswer :=
  if id =? Users.id user
  then raise (HTTPException 409 "You can't subscribe to yourself")
  else
    requested_user <- UserRepository.get_by_id id ;;
    if negb (truthy_opt requested_user)
    then raise (HTTPException 404 "User not found")
    else
      FollowerRepository.add (Users.id user) id ;;;
      ret (mkGeneralAnswer true).

Definition delete_subscribe (user : Users.t) (id : Z) : M GeneralAnswer :=
  if id =? Users.id user
  then raise (HTTPException 409 "You can't unsubscribe from yourself")
  else
    requested_user <- UserRepository.get_by_id id ;;
    if negb (truthy_opt requested_user)
    then raise (HTTPException 404 "User not found")
    else
      follow <- FollowerRepository.get_subscribe
                  [follower_id_eq (Users.id user); followee_id_eq id] ;;
      match follow with
      | None =>
          raise (HTTPException 404 "You haven't subscribed to this user yet")
      | Some follow =>
          FollowerRepository.delete follow ;;;
          ret (mkGeneralAnswer true)
      end.

End UserServices.

(* ------------------------------------------------------------------ *)
(** ** [TweetServices] ([tweet/service.py]) *)

Module TweetServices.

Definition add_new_tweet (user : Users.t) (tweet : TweetCreate)
  : M TweetOut :=
  media_files <-
    match tweet_media_ids tweet with
    | Some ((_ :: _) as ids) =>
        media_files <-
          MediaRepository.filter
            (MediaRepository.mkKwargs
               [] []
               [Media_id_in ids; Media_user_id_is (Users.id user)]) ;;
        n <- py_len media_files ;;
        if negb (n =? Z.of_nat (List.length ids))
        then raise (HTTPException
                      400 "Some media files not found or inaccessible")
        else ret media_files
    | _ => ret (PyList [])
    end ;;
  new_tweet <- TweetRepository.add (Some (tweet_data tweet))
                                   (Some (Users.id user)) ;;
  (if truthy media_files
   then
     ms <- py_iter media_files ;;
     TweetMediaRepository.add_all
       (map (fun m => (Tweets.id new_tweet, Media.id m)) ms)
   else ret tt) ;;;
  ret (mkTweetOut true (Tweets.id new_tweet)).

Definition add_media_files (settings : Settings) (user : Users.t)
  (file : UploadFile) (upload_dir : option string) : M MediaResponse :=
  let upload_dir :=
    match upload_dir with
    | None => UPL_DIR settings
    | Some dir => dir
    end in
  let filename :=
    match filename file with
    | None => "default_file.jpeg"%string
    | Some f => f
    end in
  let file_path := os_path.join upload_dir filename in
  write_file file_path ;;;
  let path_to_image := (SAVE_PATH settings ++ filename)%string in
  new_media <- MediaRepository.add (Some path_to_image) (Users.id user) ;;
  ret (mkMediaResponse true (Media.id new_media)).

(** The body of the clean-up loop of [del_tweet]. *)
Definition reclaim (settings : Settings) (tweet_media : TweetMedia.obj)
  : M unit :=
  media <- attr (TweetMedia.media tweet_media) ;;
  remaining_link <-
    TweetMediaRepository.filter [tm_media_id_eq (Media.id media)] ;;
  if is_None remaining_link
  then
    file_name <- os_path_basename (Media.file_path media) ;;
    let file_path : option string :=
      Some (os_path.join (UPL_DIR settings) file_name) in
    match file_path with
    | None => raise (FileNotFoundError "File not found")
    | Some file_path =>
        os_remove file_path ;;;
        MediaRepository.delete media
    end
  else ret tt.

Definition del_tweet (settings : Settings) (user : Users.t) (id : Z)
  : M GeneralAnswer :=
  tweets <-
    TweetRepository.filter
      (TweetRepository.mkKwargs
         [tweet_pk_eq id; tweet_user_id_eq (Users.id user)]
         [selectinload_media] [] [] None None) ;;
  if negb (truthy tweets)
  then raise (HTTPException 404 "Tweet not found or not owned by the user")
  else
    tweet <- py_first tweets ;;
    let media_files := TweetObj.media tweet in
    TweetRepository.delete (TweetObj.row tweet) ;;;
    for_each media_files (reclaim settings) ;;;
    ret (mkGeneralAnswer true).

Definition add_like (user : Users.t) (id : Z) : M GeneralAnswer :=
  tweet <- TweetRepository.get_by_id id ;;
  if negb (truthy_opt tweet)
  then raise (HTTPException 404 "Tweet not found")
  else
    like <- LikeRepository.filter
              [like_tweet_id_eq id; like_user_id_eq (Users.id user)] ;;
    if truthy like
    then raise (HTTPException 409 "You can't put more than 1 like")
    else
      LikeRepository.add id (Users.id user) ;;;
      ret (mkGeneralAnswer true).

Definition del_like (user : Users.t) (id : Z) : M GeneralAnswer :=
  tweet <- TweetRepository.get_by_id id ;;
  if negb (truthy_opt tweet)
  then raise (HTTPException 404 "Tweet not found")
  else
    like <- LikeRepository.filter
              [like_tweet_id_eq id; like_user_id_eq (Users.id user)] ;;
    if negb (truthy like)
    then raise (HTTPException 404 "You haven't liked the article yet")
    else
      like <- py_obj like ;;
      LikeRepository.delete like ;;;
      ret (mkGeneralAnswer true).

(** The page-oriented offset computed at the top of [get_tweets]. *)
Definition page_offset (limit offset : option Z) : option Z :=
  match offset, limit with
  | Some o, Some l => Some ((o - 1) * l)
  | _, _ => offset
  end.

(** The [following_list] of [get_tweets]. *)
Definition following_list (user : Users.t) (subscribers : Any Follower.t)
  : M (list Z) :=
  if negb (truthy subscribers)
  then ret [Users.id user]
  else
    subs <- py_iter subscribers ;;
    ret (map Follower.followee_id subs ++ [Users.id user]).

(** The dictionary built for one tweet of the feed. *)
Definition tweet_dict (tweet : TweetObj.t) : M TweetDetails :=
  attachments <-
    map_M (fun tweet_media =>
             media <- attr (TweetMedia.media tweet_media) ;;
             ret (Media.file_path media))
          (TweetObj.media tweet) ;;
  likes <-
    map_M (fun like =>
             u <- attr (Like.user like) ;;
             ret (mkLikeBasic (Like.user_id (Like.row like)) (Users.name u)))
          (TweetObj.likes tweet) ;;
  author <- attr (TweetObj.author tweet) ;;
  ret (mkTweetDetails
         (Tweets.id (TweetObj.row tweet))
         (Tweets.content (TweetObj.row tweet))
         attachments
         (mkAuthorBasic (Users.id author) (Users.name author))
         likes).

Definition get_tweets (user : Users.t) (limit offset : option Z)
  : M TweetResponse :=
  let offset := page_offset limit offset in
  subscribers <-
    FollowerRepository.filter [follower_id_eq (Users.id user)] ;;
  following_list <- following_list user subscribers ;;
  tweets <-
    TweetRepository.filter
      (TweetRepository.mkKwargs
         []
         [selectinload_author; selectinload_media_media;
          selectinload_likes_user]
         [Tweets_user_id_in following_list]
         [likes_count_desc; created_at_desc]
         limit offset) ;;
  tweets <- py_iter tweets ;;
  tweets_list <- map_M tweet_dict tweets ;;
  ret (mkTweetResponse true tweets_list).

End TweetServices.

(* ------------------------------------------------------------------ *)
(** ** Schema constraints and derived notions used in the statements *)

(** Primary keys and [UniqueConstraint]s, as properties of a database. *)
Definition tweets_pk (d : DB) : Prop := NoDup (map Tweets.id (tweets d)).

Definition media_pk (d : DB) : Prop := NoDup (map Media.id (media d)).

Definition users_pk (d : DB) : Prop := NoDup (map Users.id (users d)).

Definition unique_like_tweet (d : DB) : Prop :=
  NoDup (map (fun l => (Like.tweet_id l, Like.user_id l)) (likes d)).

Definition unique_follower_followee (d : DB) : Prop :=
  NoDup (map (fun f => (Follower.follower_id f, Follower.followee_id f))
             (followers d)).


(** The world after the calls [cs] were traced and nothing else changed. *)
Definition traced (w : World) (cs : list Call) : World :=
  mkWorld (db w) (files w) (now w) (trace w ++ cs) (open_error w).

(** [a] occurs before [b] in [l]. *)
Definition precedes {A} (a b : A) (l : list A) : Prop :=
  exists l1 l2 l3, l = l1 ++ a :: l2 ++ b :: l3.

(** Some association of [d] refers to the media with key [mid]. *)
Definition referenced (d : DB) (mid : Z) : bool :=
  existsb (fun tm => TweetMedia.media_id tm =? mid) (tweet_media d).

(** The tweet with key [tid] has an association to the media with key [mid]. *)
Definition attached (d : DB) (tid mid : Z) : bool :=
  existsb (fun tm => (TweetMedia.tweet_id tm =? tid)
                     && (TweetMedia.media_id tm =? mid))
          (tweet_media d).

(** Where [del_tweet] looks for the stored file of a media row. *)
Definition upload_path (settings : Settings) (m : Media.t) : option string :=
  match Media.file_path m with
  | Some p => Some (os_path.join (UPL_DIR settings) (os_path.basename p))
  | None => None
  end.

(** The media rows among [ids] that exist and belong to [user]. *)
Definition validated_media (d : DB) (user : Users.t) (ids : list Z)
  : list Media.t :=
  filter (fun m => existsb (Z.eqb (Media.id m)) ids
                   && (Media.user_id m =? Users.id user))
         (media d).

(** The (tweet, media) pair of an association. *)
Definition tm_pair (tm : TweetMedia.t) : Z * Z :=
  (TweetMedia.tweet_id tm, TweetMedia.media_id tm).

(** The rows a feed query of [user] ranges over, in feed order, before
    pagination: the statement [get_tweets] builds, evaluated on [d]. *)
Definition visible_authors (d : DB) (user : Users.t) : list Z :=
  match filter (FollowerRepository.matches [follower_id_eq (Users.id user)])
               (followers d) with
  | [] => [Users.id user]
  | subs => map Follower.followee_id subs ++ [Users.id user]
  end.

Definition feed_query (d : DB) (user : Users.t) (limit offset : option Z)
  : TweetRepository.Kwargs :=
  TweetRepository.mkKwargs
    []
    [selectinload_author; selectinload_media_media; selectinload_likes_user]
    [Tweets_user_id_in (visible_authors d user)]
    [likes_count_desc; created_at_desc]
    limit offset.

Definition feed_rows (d : DB) (user : Users.t) : list Tweets.t :=
  TweetRepository.ordered_rows d (feed_query d user None None).

(** [a] sorts no later than [b] under (like count desc, creation time desc). *)
Definition feed_ge (d : DB) (a b : Tweets.t) : Prop :=
  TweetRepository.likes_count d a > TweetRepository.likes_count d b
  \/ (TweetRepository.likes_count d a = TweetRepository.likes_count d b
      /\ Tweets.created_at a >= Tweets.created_at b).

(** [a] sorts strictly before [b]. *)
Definition feed_gt (d : DB) (a b : Tweets.t) : Prop :=
  TweetRepository.likes_count d a > TweetRepository.likes_count d b
  \/ (TweetRepository.likes_count d a = TweetRepository.likes_count d b
      /\ Tweets.created_at a > Tweets.created_at b).

(** Computations that neither read nor change the world. *)
Definition stateless {A} (m : M A) : Prop := exists r, forall w, m w = (r, w).

(** What the dictionary of a loaded row shows of the row. *)
Definition shows (d : DB) (t : Tweets.t) (dct : TweetDetails) : Prop :=
  details_id dct = Tweets.id t
  /\ details_content dct = Tweets.content t
  /\ Z.of_nat (List.length (details_likes dct)) = TweetRepository.likes_count d t
  /\ Tweets.user_id t = Some (author_id (author dct)).

(** The page of [rows] that [OFFSET offset LIMIT limit] selects. *)
Definition page_of {A} (limit offset : option Z) (rows : list A) : list A :=
  let rows := match offset with
              | Some o => skipn (Z.to_nat o) rows
              | None => rows
              end in
  match limit with
  | Some n => firstn (Z.to_nat n) rows
  | None => rows
  end.

Definition pair_eqb (p q : Z * Z) : bool :=
  (fst p =? fst q) && (snd p =? snd q).

(** [u] follows [a]: the edge is stored. *)
Definition follows (d : DB) (u a : Z) : Prop :=
  exists f, In f (followers d)
            /\ Follower.follower_id f = u /\ Follower.followee_id f = a.

(** The ordering keys of the feed statement. *)
Definition feed_keys : list TweetOrder := [likes_count_desc; created_at_desc].

(** The [WHERE] clause of the feed statement on a row. *)
Definition visible (d : DB) (user : Users.t) (t : Tweets.t) : bool :=
  match Tweets.user_id t with
  | Some a => existsb (Z.eqb a) (visible_authors d user)
  | None => false
  end.

(** The ordering property read as an equivalence on the rows of a feed:
    [a] comes before [b] exactly when [a] has more likes, or as many and a
    later creation time. *)
Definition strict_feed_order (d : DB) (rows : list Tweets.t) : Prop :=
  forall a b, In a rows -> In b rows -> (precedes a b rows <-> feed_gt d a b).

(** An arrangement of the feed of [user]: the stored tweets of the visible
    authors, each once, in an order that agrees with the two keys.  Tweets
    that tie on both keys may stand in either order, so a database has
    several arrangements as soon as two visible tweets tie. *)
Definition feed_arrangement (d : DB) (user : Users.t) (rows : list Tweets.t)
  : Prop :=
  NoDup rows
  /\ (forall t, In t rows <-> In t (tweets d) /\ visible d user t = true)
  /\ (forall a b, precedes a b rows -> feed_ge d a b).

(** The entry [dct] of a response stands for the stored tweet [t]. *)
Definition entry_of (d : DB) (dct : TweetDetails) (t : Tweets.t) : Prop :=
  In t (tweets d) /\ shows d t dct.

(** The statement [del_tweet] issues to find the caller's tweet. *)
Definition del_query (user : Users.t) (id : Z) : TweetRepository.Kwargs :=
  TweetRepository.mkKwargs
    [tweet_pk_eq id; tweet_user_id_eq (Users.id user)]
    [selectinload_media] [] [] None None.

(** The database once [TweetRepository.delete] has removed the tweet [tid]
    with its likes and associations. *)
Definition without_tweet (d : DB) (tid : Z) : DB :=
  mkDB (users d)
       (filter (fun t => negb (Tweets.id t =? tid)) (tweets d))
       (media d)
       (filter (fun tm => negb (TweetMedia.tweet_id tm =? tid)) (tweet_media d))
       (filter (fun l => negb (Like.tweet_id l =? tid)) (likes d))
       (followers d).

(** The database once [MediaRepository.delete] has removed the media [mid]
    with its associations. *)
Definition without_media (d : DB) (mid : Z) : DB :=
  mkDB (users d) (tweets d)
       (filter (fun x => negb (Media.id x =? mid)) (media d))
       (filter (fun tm => negb (TweetMedia.media_id tm =? mid)) (tweet_media d))
       (likes d) (followers d).

(** Among the loaded associations [objs], one carries a media row with the
    key of [x] to which no association of [tbl] refers: the clean-up loop
    reclaims it. *)
Definition reclaimed (tbl : list TweetMedia.t) (objs : list TweetMedia.obj)
  (x : Media.t) : bool :=
  existsb
    (fun o =>
       match TweetMedia.media o with
       | Some m =>
           negb (existsb (fun tm => TweetMedia.media_id tm =? Media.id m) tbl)
           && (Media.id x =? Media.id m)
       | None => false
       end)
    objs.

(** The clean-up loop removes the file at [p]. *)
Definition unlinked (settings : Settings) (tbl : list TweetMedia.t)
  (objs : list TweetMedia.obj) (p : string) : bool :=
  existsb
    (fun o =>
       match TweetMedia.media o with
       | Some m =>
           negb (existsb (fun tm => TweetMedia.media_id tm =? Media.id m) tbl)
           && match upload_path settings m with
              | Some q => String.eqb q p
              | None => false
              end
       | None => false
       end)
    objs.

(** The exception [e], left with world [w], is [os.remove] failing on a
    missing file: the last traced call is that [os.remove], and its path is
    not in the file system. *)
Definition os_remove_failure (e : Exception) (w : World) : Prop :=
  exists path,
    e = FileNotFoundError (errno2 path)
    /\ existsb (String.eqb path) (files w) = false
    /\ exists tr, trace w = tr ++ [os_remove_call path].

(** The first half of the reclamation property read on files as well as on
    rows: whenever two tweets are attached to a stored media row, a
    successful deletion of one of them keeps the row and the file its path
    points to. *)
Definition shared_media_survives (settings : Settings) (w : World) : Prop :=
  forall u1 t1 t2 m r1 w1,
    t1 <> t2 -> In m (media (db w)) ->
    attached (db w) t1 (Media.id m) = true ->
    attached (db w) t2 (Media.id m) = true ->
    TweetServices.del_tweet settings u1 t1 w = (Ok r1, w1) ->
    In m (media (db w1))
    /\ forall p, upload_path settings m = Some p ->
                 In p (files w) -> In p (files w1).

(** The foreign keys the feed reads through: a tweet's author, an
    association's media and a like's user are stored rows. *)
Definition referential_integrity (d : DB) : Prop :=
  (forall t u, In t (tweets d) -> Tweets.user_id t = Some u ->
               user_exists d u = true)
  /\ (forall tm, In tm (tweet_media d) ->
                 media_exists d (TweetMedia.media_id tm) = true)
  /\ (forall l, In l (likes d) -> user_exists d (Like.user_id l) = true).

(* ------------------------------------------------------------------ *)
(** ** Authentication ([api/services/services.py]) and profiles
       ([user/service.py], [user/schemas.py]) *)

(** [try: m except Exception as exp: handler(exp)]. *)
Definition try_except {A} (m : M A) (handler : Exception -> M A) : M A :=
  fun w =>
    match m w with
    | (Ok a, w') => (Ok a, w')
    | (Raise e, w') => handler e w'
    end.

(** [UserRepository.get_by_api_key]: [Users.api_key == api_key] never holds
    of a row whose key is null.  (The trace lists the store calls of the two
    service classes; this lookup runs before them and is not listed.) *)
Definition get_by_api_key (api_key : string) : M (option Users.t) :=
  d <- get_db ;;
  scalar_one_or_none
    (filter (fun u => match Users.api_key u with
                      | Some k => String.eqb k api_key
                      | None => false
                      end)
            (users d)).

Definition get_current_user (api_key : string) : M Users.t :=
  user <- try_except
            (get_by_api_key api_key)
            (fun _ => raise (HTTPException 500 "Internal server error")) ;;
  match user with
  | None => raise (HTTPException 401 "Invalid API Key")
  | Some user => ret user
  end.

Record UserBasic : Type := mkUserBasic
  { basic_id : Z;
    basic_name : option string }.

Record UserDetails : Type := mkUserDetails
  { details_user_id : Z;
    details_user_name : option string;
    profile_followers : list UserBasic;
    profile_following : list UserBasic }.

Record UserResponse : Type := mkUserResponse
  { user_response_result : bool;
    user_details : UserDetails }.

Module UserProfiles.

(** [{"id": x.id, "name": x.name}] of a loaded relationship [x]. *)
Definition basic_of (x : option Users.t) : M UserBasic :=
  u <- attr x ;;
  ret (mkUserBasic (Users.id u) (Users.name u)).

(** The [follower] and [followee] relationships of an edge, as
    [selectinload] loads them with the query. *)
Definition follower_of (d : DB) (f : Follower.t) : option Users.t :=
  find (fun u => Users.id u =? Follower.follower_id f) (users d).

Definition followee_of (d : DB) (f : Follower.t) : option Users.t :=
  find (fun u => Users.id u =? Follower.followee_id f) (users d).

(** The two queries and the two list comprehensions shared by
    [get_my_data] and [get_user_data_by_id]. *)
Definition edges_of (id : Z) : M (list UserBasic * list UserBasic) :=
  followers_query <- FollowerRepository.filter [followee_id_eq id] ;;
  following_query <- FollowerRepository.filter [follower_id_eq id] ;;
  d <- get_db ;;
  followers_rows <- py_iter followers_query ;;
  followers <- map_M (fun follower => basic_of (follower_of d follower))
                     followers_rows ;;
  following_rows <- py_iter following_query ;;
  followings <- map_M (fun following => basic_of (followee_of d following))
                      following_rows ;;
  ret (followers, followings).

(** [UserServices.get_my_data]. *)
Definition get_my_data (user : Users.t) : M UserResponse :=
  lists <- edges_of (Users.id user) ;;
  ret (mkUserResponse
         true
         (mkUserDetails (Users.id user) (Users.name user)
                        (fst lists) (snd lists))).

(** [UserServices.get_user_data_by_id]. *)
Definition get_user_data_by_id (id : Z) : M UserResponse :=
  requested_user <- UserRepository.get_by_id id ;;
  match requested_user with
  | None => raise (HTTPException 404 "User not found")
  | Some requested_user =>
      lists <- edges_of id ;;
      ret (mkUserResponse
             true
             (mkUserDetails (Users.id requested_user)
                            (Users.name requested_user)
                            (fst lists) (snd lists)))
  end.

End UserProfiles.

(* ------------------------------------------------------------------ *)
(** ** The schema as an invariant *)

(** [Users.api_key] is declared [unique=True]: a key is held by one row at
    most. *)
Definition api_key_unique (d : DB) : Prop :=
  forall u v k,
    In u (users d) -> In v (users d) ->
    Users.api_key u = Some k -> Users.api_key v = Some k -> u = v.

(** Every primary key, unique constraint and foreign key of [models.py]. *)
Record consistent (d : DB) : Prop := mk_consistent
  { c_users_pk : NoDup (map Users.id (users d));
    c_tweets_pk : NoDup (map Tweets.id (tweets d));
    c_media_pk : NoDup (map Media.id (media d));
    c_tweet_media_pk : NoDup (map TweetMedia.id (tweet_media d));
    c_likes_pk : NoDup (map Like.id (likes d));
    c_followers_pk : NoDup (map Follower.id (followers d));
    c_unique_tweet_media : NoDup (map tm_pair (tweet_media d));
    c_unique_like_tweet :
      NoDup (map (fun l => (Like.tweet_id l, Like.user_id l)) (likes d));
    c_unique_follower_followee :
      NoDup (map (fun f => (Follower.follower_id f, Follower.followee_id f))
                 (followers d));
    c_tweets_user :
      forall t u, In t (tweets d) -> Tweets.user_id t = Some u ->
                  existsb (fun x => Users.id x =? u) (users d) = true;
    c_media_user :
      forall m, In m (media d) ->
                existsb (fun x => Users.id x =? Media.user_id m) (users d)
                = true;
    c_tweet_media_tweet :
      forall tm, In tm (tweet_media d) ->
                 existsb (fun x => Tweets.id x =? TweetMedia.tweet_id tm)
                         (tweets d) = true;
    c_tweet_media_media :
      forall tm, In tm (tweet_media d) ->
                 existsb (fun x => Media.id x =? TweetMedia.media_id tm)
                         (media d) = true;
    c_likes_tweet :
      forall l, In l (likes d) ->
                existsb (fun x => Tweets.id x =? Like.tweet_id l) (tweets d)
                = true;
    c_likes_user :
      forall l, In l (likes d) ->
                existsb (fun x => Users.id x =? Like.user_id l) (users d)
                = true;
    c_followers_follower :
      forall f, In f (followers d) ->
                existsb (fun x => Users.id x =? Follower.follower_id f)
                        (users d) = true;
    c_followers_followee :
      forall f, In f (followers d) ->
                existsb (fun x => Users.id x =? Follower.followee_id f)
                        (users d) = true }.

(** [m] keeps the property [I] of the world, whatever its outcome. *)
Definition preserves {A} (I : World -> Prop) (m : M A) : Prop :=
  forall w, I w -> I (snd (m w)).

(** The world differs from [w0] by its trace at most. *)
Definition same_store (w0 w : World) : Prop :=
  db w = db w0 /\ files w = files w0 /\ now w = now w0.

(** The caller's like of tweet [tid] is stored. *)
Definition liked (d : DB) (tid uid : Z) : bool :=
  existsb (fun l => (Like.tweet_id l =? tid) && (Like.user_id l =? uid))
          (likes d).

(** The edge from [u] to [v] is stored. *)
Definition followsb (d : DB) (u v : Z) : bool :=
  existsb (fun f => (Follower.follower_id f =? u)
                    && (Follower.followee_id f =? v))
          (followers d).


(** Computations that change the trace at most. *)
Definition observes {A} (m : M A) : Prop :=
  forall w, same_store w (snd (m w)).

(** A property of the world that does not look at the trace. *)
Definition trace_blind (I : World -> Prop) : Prop :=
  forall d f n t t' o, I (mkWorld d f n t o) -> I (mkWorld d f n t' o).

(** The edge [add_subscribe] stores. *)
Definition new_edge (w : World) (u v : Z) : Follower.t :=
  Follower.mk (next_id (map Follower.id (followers (db w)))) u v (now w).

(** The like [add_like] stores. *)
Definition new_like (w : World) (tid uid : Z) : Like.t :=
  Like.mk (next_id (map Like.id (likes (db w)))) tid uid (now w).

(** The name and the path [add_media_files] stores an upload under, and the
    media row it inserts. *)
Definition stored_name (file : UploadFile) : string :=
  match filename file with
  | None => "default_file.jpeg"%string
  | Some f => f
  end.

Definition stored_path (settings : Settings) (file : UploadFile)
  (upload_dir : option string) : string :=
  os_path.join (match upload_dir with
                | None => UPL_DIR settings
                | Some dir => dir
                end)
               (stored_name file).

Definition new_media (settings : Settings) (user : Users.t) (file : UploadFile)
  (w : World) : Media.t :=
  Media.mk (next_id (map Media.id (media (db w))))
           (Some (SAVE_PATH settings ++ stored_name file)%string)
           (Users.id user) (now w).

(** The empty prefix, or one that ends with the separator. *)
Definition dir_prefix (s : string) : bool :=
  match s with
  | EmptyString => true
  | _ => os_path.endswith_sep s
  end.

(** The edges arriving at, and leaving, the user with key [id]. *)
Definition edges_to (d : DB) (id : Z) : list Follower.t :=
  filter (FollowerRepository.matches [followee_id_eq id]) (followers d).

Definition edges_from (d : DB) (id : Z) : list Follower.t :=
  filter (FollowerRepository.matches [follower_id_eq id]) (followers d).

(** The entry [b] of a profile list shows a stored user. *)
Definition shows_user (d : DB) (b : UserBasic) : Prop :=
  exists u, In u (users d) /\ Users.id u = basic_id b
            /\ Users.name u = basic_name b.


(** An [OFFSET] or [LIMIT] that is negative or beyond the 64-bit range. *)
Definition out_of_range (limit offset : option Z) : bool :=
  match offset with
  | Some o => (o <? 0) || (max_int64 <? o)
  | None => false
  end
  || match limit with
     | Some n => (n <? 0) || (max_int64 <? n)
     | None => false
     end.

(** No two stored tweets visible to [user] tie on both sort keys: the feed
    statement then has one arrangement only. *)
Definition feed_untied (d : DB) (user : Users.t) : Prop :=
  forall a b, In a (tweets d) -> In b (tweets d) ->
              visible d user a = true -> visible d user b = true ->
              a <> b -> feed_gt d a b \/ feed_gt d b a.



(** [m] leaves the part [proj] of the world as it found it, whatever its
    outcome. *)
Definition untouched {A B} (proj : World -> B) (m : M A) : Prop :=
  forall w, proj (snd (m w)) = proj w.
(* ------------------------------------------------------------------ *)
(** ** Concrete worlds used by the examples *)

Module Ex.

Local Open Scope string_scope.

Definition settings : Settings := mkSettings "uploads/" "/media/".

(** A file system on which every path can be opened for writing. *)
Definition writable : string -> option Exception := fun _ => None.

Definition alice : Users.t := Users.mk 1 (Some "alice") (Some "key-1") 0.
Definition bob : Users.t := Users.mk 2 (Some "bob") (Some "key-2") 0.
Definition carol : Users.t := Users.mk 3 (Some "carol") (Some "key-3") 0.

(** Three users, nothing else. *)
Definition empty_world : World :=
  mkWorld (mkDB [alice; bob; carol] [] [] [] [] []) [] 100 [] writable.

(** Bob, Alice and Carol each wrote tweets; Alice follows Bob and likes
    Bob's first tweet; Carol likes it too. *)
Definition bob_one : Tweets.t := Tweets.mk 1 (Some 2) (Some "bob one") 10.
Definition alice_one : Tweets.t := Tweets.mk 2 (Some 1) (Some "alice one") 20.
Definition carol_one : Tweets.t := Tweets.mk 3 (Some 3) (Some "carol one") 30.
Definition bob_two : Tweets.t := Tweets.mk 4 (Some 2) (Some "bob two") 40.

Definition alice_likes_bob_one : Like.t := Like.mk 1 1 1 50.
Definition carol_likes_bob_one : Like.t := Like.mk 2 1 3 60.

Definition alice_follows_bob : Follower.t := Follower.mk 1 1 2 70.

Definition social_db : DB :=
  mkDB [alice; bob; carol]
       [bob_one; alice_one; carol_one; bob_two]
       []
       []
       [alice_likes_bob_one; carol_likes_bob_one]
       [alice_follows_bob].

Definition social_world : World := mkWorld social_db [] 100 [] writable.



(** Twelve posts of Alice, one every ten ticks, none liked. *)
Definition post (i : Z) : Tweets.t :=
  Tweets.mk i (Some 1) (Some "post") (10 * i).

Definition busy_db : DB :=
  mkDB [alice; bob; carol]
       (map post [1; 2; 3; 4; 5; 6; 7; 8; 9; 10; 11; 12])
       [] [] [] [].

Definition busy_world : World := mkWorld busy_db [] 200 [] writable.

(** Two posts of Alice stored with the same creation time, none liked. *)
Definition twin_a : Tweets.t := Tweets.mk 1 (Some 1) (Some "first") 10.
Definition twin_b : Tweets.t := Tweets.mk 2 (Some 1) (Some "second") 10.

Definition twin_db : DB :=
  mkDB [alice; bob; carol] [twin_a; twin_b] [] [] [] [].

Definition twin_world : World := mkWorld twin_db [] 100 [] writable.

(** Alice's album: one picture shared by two of her tweets, another
    picture attached to a third tweet whose file is gone from disk. *)
Definition picture_a : Media.t := Media.mk 1 (Some "/media/a.jpg") 1 5.
Definition picture_b : Media.t := Media.mk 2 (Some "/media/b.jpg") 1 6.

Definition album_db : DB :=
  mkDB [alice; bob; carol]
       [Tweets.mk 1 (Some 1) (Some "one") 10;
        Tweets.mk 2 (Some 1) (Some "two") 20;
        Tweets.mk 3 (Some 1) (Some "three") 30]
       [picture_a; picture_b]
       [TweetMedia.mk 1 1 1; TweetMedia.mk 2 2 1; TweetMedia.mk 3 3 2]
       [] [].

Definition album_world : World :=
  mkWorld album_db ["uploads/a.jpg"] 100 [] writable.

(** Alice uploads two files under the same name, attaches both uploads to
    a first tweet and the first upload to a second tweet. *)
Definition clash_world : World :=
  snd ((TweetServices.add_media_files
          settings alice (mkUploadFile (Some "a.jpg")) None ;;;
        TweetServices.add_media_files
          settings alice (mkUploadFile (Some "a.jpg")) None ;;;
        TweetServices.add_new_tweet
          alice (mkTweetCreate "both" (Some [1; 2])) ;;;
        TweetServices.add_new_tweet
          alice (mkTweetCreate "first" (Some [1])))
         empty_world).

(** Carol follows Bob as well: Bob has two followers. *)
Definition carol_follows_bob : Follower.t := Follower.mk 2 3 2 80.

Definition crowd_world : World :=
  mkWorld (mkDB [alice; bob; carol]
                [bob_one; alice_one; carol_one; bob_two]
                [] []
                [alice_likes_bob_one; carol_likes_bob_one]
                [alice_follows_bob; carol_follows_bob])
          [] 100 [] writable.

(** A file system without the directory [uploads/sub]: opening a path
    below it for writing fails. *)
Definition no_subdir : string -> option Exception :=
  fun p => if String.prefix "uploads/sub/" p
           then Some (FileNotFoundError (errno2 p))
           else None.

Definition flat_world : World := mkWorld social_db [] 100 [] no_subdir.

Definition upload_1 : Media.t := Media.mk 1 (Some "/media/a.jpg") 1 100.
Definition upload_2 : Media.t := Media.mk 2 (Some "/media/a.jpg") 1 100.

End Ex.

(* ------------------------------------------------------------------ *)
(** ** Proof support *)

Ltac simpl_world :=
  cbn [fst snd db files now trace open_error
       users tweets media tweet_media likes followers] in *.

Ltac unfold_m :=
  unfold bind, ret, raise, record, get_db, put_db, get_now, traced in *;
  simpl_world.

Lemma filter_none {A : Type} (p : A -> bool) (l : list A) :
  (forall y, In y l -> p y = false) -> filter p l = [].
Proof.
  induction l as [|a l IH]; intros H; cbn; [reflexivity|].
  rewrite (H a (or_introl eq_refl)). apply IH.
  intros y Hy. apply H. right. exact Hy.
Qed.

Lemma filter_unique_key {A K : Type} (key : A -> K) (eqb : K -> K -> bool)
  (eqb_spec : forall x y, eqb x y = true <-> x = y) (l : list A) (x : A) :
  NoDup (map key l) -> In x l ->
  filter (fun y => eqb (key y) (key x)) l = [x].
Proof.
  induction l as [|a l IH]; intros Hnd Hin; [contradiction|].
  cbn in Hnd. apply NoDup_cons_iff in Hnd as [Hna Hnd].
  cbn [filter]. destruct Hin as [->|Hin].
  - assert (E : eqb (key x) (key x) = true) by (apply eqb_spec; reflexivity).
    rewrite E. f_equal. apply filter_none. intros y Hy.
    destruct (eqb (key y) (key x)) eqn:Ey; [|reflexivity].
    apply eqb_spec in Ey. exfalso. apply Hna. rewrite <- Ey.
    apply in_map. exact Hy.
  - destruct (eqb (key a) (key x)) eqn:E.
    + apply eqb_spec in E. exfalso. apply Hna. rewrite E.
      apply in_map. exact Hin.
    + apply IH; assumption.
Qed.


Lemma pair_eqb_spec (p q : Z * Z) : pair_eqb p q = true <-> p = q.
Proof.
  destruct p as [a b], q as [c e]. unfold pair_eqb. cbn.
  rewrite andb_true_iff, !Z.eqb_eq. split.
  - intros [-> ->]. reflexivity.
  - intros H. inversion H. split; reflexivity.
Qed.

Lemma tweet_by_pk (d : DB) (t : Tweets.t) :
  tweets_pk d -> In t (tweets d) ->
  filter (fun x => Tweets.id x =? Tweets.id t) (tweets d) = [t].
Proof.
  intros Hpk Hin.
  exact (filter_unique_key Tweets.id Z.eqb Z.eqb_eq (tweets d) t Hpk Hin).
Qed.

Lemma like_by_pair (d : DB) (l : Like.t) :
  unique_like_tweet d -> In l (likes d) ->
  filter (LikeRepository.matches
            [like_tweet_id_eq (Like.tweet_id l); like_user_id_eq (Like.user_id l)])
         (likes d) = [l].
Proof.
  intros Hu Hin.
  rewrite <- (filter_unique_key
                (fun x => (Like.tweet_id x, Like.user_id x))
                pair_eqb pair_eqb_spec (likes d) l Hu Hin).
  apply filter_ext. intros x. unfold LikeRepository.matches, pair_eqb. cbn.
  rewrite andb_true_r. reflexivity.
Qed.

(* ------------------------------------------------------------------ *)
(** ** Self-follow guard *)

(** C9. When the target of a follow or unfollow request is the caller, the
    service raises the 409 conflict at once: the world it leaves is the world
    it was given, so no store call was traced (no user lookup, no edge
    lookup) and the [followers] table is unchanged. *)
Theorem self_follow_rejected_before_lookup (user : Users.t) (w : World) :
  UserServices.add_subscribe user (Users.id user) w
  = (Raise (HTTPException 409 "You can't subscribe to yourself"), w)
  /\ UserServices.delete_subscribe user (Users.id user) w
     = (Raise (HTTPException 409 "You can't unsubscribe from yourself"), w).
Proof.
  unfold UserServices.add_subscribe, UserServices.delete_subscribe.
  rewrite Z.eqb_refl. split; reflexivity.
Qed.

(* ------------------------------------------------------------------ *)
(** ** Following an already followed user *)

(** What [add_subscribe] does when the edge is already stored: the target is
    looked up, the insert is attempted without any lookup of the edge, and
    the commit fails on [unique_follower_followee]. *)
Lemma add_subscribe_existing_edge (user v : Users.t) (f : Follower.t) (w : World) :
  users_pk (db w) -> In v (users (db w)) -> Users.id v <> Users.id user ->
  In f (followers (db w)) ->
  Follower.follower_id f = Users.id user ->
  Follower.followee_id f = Users.id v ->
  UserServices.add_subscribe user (Users.id v) w
  = (Raise (IntegrityError "unique_follower_followee"),
     traced w [user_repo_get_by_id (Users.id v);
               follow_repo_add (Users.id user) (Users.id v)]).
Proof.
  intros Hpk Hv Hne Hf Hf1 Hf2.
  unfold UserServices.add_subscribe.
  destruct (Z.eqb_spec (Users.id v) (Users.id user)) as [E|_]; [contradiction|].
  unfold UserRepository.get_by_id, FollowerRepository.add. unfold_m.
  rewrite (filter_unique_key Users.id Z.eqb Z.eqb_eq (users (db w)) v Hpk Hv).
  cbn.
  assert (E : existsb
                (fun x => (Follower.follower_id x =? Users.id user)
                          && (Follower.followee_id x =? Users.id v))
                (followers (db w)) = true).
  { apply existsb_exists. exists f. split; [exact Hf|].
    rewrite Hf1, Hf2, !Z.eqb_refl. reflexivity. }
  rewrite E. cbn. rewrite <- app_assoc. reflexivity.
Qed.

(** C2. Alice already follows Bob and asks to follow him again: the service
    looks Bob up and goes straight to the insert; no [get_subscribe] is
    issued, the failure is the storage layer's [IntegrityError] and not an
    [HTTPException] 409, and the [followers] table keeps its single edge. *)
Theorem add_subscribe_duplicate_is_integrity_error :
  UserServices.add_subscribe Ex.alice 2 Ex.social_world
  = (Raise (IntegrityError "unique_follower_followee"),
     traced Ex.social_world [user_repo_get_by_id 2; follow_repo_add 1 2])
  /\ followers (db (snd (UserServices.add_subscribe Ex.alice 2 Ex.social_world)))
     = [Ex.alice_follows_bob].
Proof.
  split; reflexivity.
Qed.

(* ------------------------------------------------------------------ *)
(** ** Single lookups *)

(** What the three single lookups hand back, by the number of matching
    rows. *)
Lemma single_lookup_cases :
  (forall kw w,
      LikeRepository.filter kw w
      = match filter (LikeRepository.matches kw) (likes (db w)) with
        | [] => (Ok PyNone, traced w [like_repo_filter kw])
        | [l] => (Ok (PyObj l), traced w [like_repo_filter kw])
        | _ :: _ :: _ =>
            (Raise MultipleResultsFound, traced w [like_repo_filter kw])
        end)
  /\ (forall kw w,
         TweetMediaRepository.filter kw w
         = match filter (TweetMediaRepository.matches kw)
                        (tweet_media (db w)) with
           | [] => (Ok PyNone, traced w [tm_repo_filter kw])
           | tm :: _ => (Ok (PyObj tm), traced w [tm_repo_filter kw])
           end)
  /\ (forall kw w,
         FollowerRepository.get_subscribe kw w
         = match filter (FollowerRepository.matches kw) (followers (db w)) with
           | [] => (Ok None, traced w [follow_repo_get_subscribe kw])
           | [f] => (Ok (Some f), traced w [follow_repo_get_subscribe kw])
           | _ :: _ :: _ =>
               (Raise MultipleResultsFound,
                traced w [follow_repo_get_subscribe kw])
           end).
Proof.
  split; [|split].
  - intros kw w. unfold LikeRepository.filter. unfold_m.
    destruct (filter (LikeRepository.matches kw) (likes (db w))) as [|a [|b r]];
      reflexivity.
  - intros kw w. unfold TweetMediaRepository.filter. unfold_m.
    destruct (filter (TweetMediaRepository.matches kw) (tweet_media (db w)));
      reflexivity.
  - intros kw w. unfold FollowerRepository.get_subscribe. unfold_m.
    destruct (filter (FollowerRepository.matches kw) (followers (db w)))
      as [|a [|b r]]; reflexivity.
Qed.

(** C3. The single lookups do not always hand back one row or [None].  Two
    likes of tweet 1 are stored: [LikeRepository.filter(tweet_id=1)], whose
    docstring promises the first match, raises [MultipleResultsFound]; so
    does [get_subscribe(followee_id=2)] when Bob has two followers.  In
    general [LikeRepository.filter] and [get_subscribe]
    ([scalar_one_or_none]) raise whenever two rows or more match and hand
    back the row when exactly one matches; [TweetMediaRepository.filter]
    ([first]) hands back the first of the matching rows.  When no row
    matches, the only value a lookup returns is [None] (as for the likes of
    tweet 3, which has none), and none of them ever returns a list. *)
Theorem single_lookup_raises_on_several_matches :
  LikeRepository.filter [like_tweet_id_eq 1] Ex.social_world
  = (Raise MultipleResultsFound,
     traced Ex.social_world [like_repo_filter [like_tweet_id_eq 1]])
  /\ FollowerRepository.get_subscribe [followee_id_eq 2] Ex.crowd_world
     = (Raise MultipleResultsFound,
        traced Ex.crowd_world [follow_repo_get_subscribe [followee_id_eq 2]])
  /\ (forall kw w a b r,
         filter (LikeRepository.matches kw) (likes (db w)) = a :: b :: r ->
         LikeRepository.filter kw w
         = (Raise MultipleResultsFound, traced w [like_repo_filter kw]))
  /\ (forall kw w a b r,
         filter (FollowerRepository.matches kw) (followers (db w))
         = a :: b :: r ->
         FollowerRepository.get_subscribe kw w
         = (Raise MultipleResultsFound,
            traced w [follow_repo_get_subscribe kw]))
  /\ (forall kw w l,
         filter (LikeRepository.matches kw) (likes (db w)) = [l] ->
         LikeRepository.filter kw w
         = (Ok (PyObj l), traced w [like_repo_filter kw]))
  /\ (forall kw w f,
         filter (FollowerRepository.matches kw) (followers (db w)) = [f] ->
         FollowerRepository.get_subscribe kw w
         = (Ok (Some f), traced w [follow_repo_get_subscribe kw]))
  /\ (forall kw w tm r,
         filter (TweetMediaRepository.matches kw) (tweet_media (db w))
         = tm :: r ->
         TweetMediaRepository.filter kw w
         = (Ok (PyObj tm), traced w [tm_repo_filter kw]))
  /\ (forall kw w x,
         filter (LikeRepository.matches kw) (likes (db w)) = [] ->
         fst (LikeRepository.filter kw w) = Ok x -> x = PyNone)
  /\ (forall kw w x,
         filter (TweetMediaRepository.matches kw) (tweet_media (db w)) = [] ->
         fst (TweetMediaRepository.filter kw w) = Ok x -> x = PyNone)
  /\ (forall kw w x,
         filter (FollowerRepository.matches kw) (followers (db w)) = [] ->
         fst (FollowerRepository.get_subscribe kw w) = Ok x -> x = None)
  /\ LikeRepository.filter [like_tweet_id_eq 3] Ex.social_world
     = (Ok PyNone,
        traced Ex.social_world [like_repo_filter [like_tweet_id_eq 3]])
  /\ (forall kw w l, fst (LikeRepository.filter kw w) <> Ok (PyList l))
  /\ (forall kw w l, fst (TweetMediaRepository.filter kw w) <> Ok (PyList l)).
Proof.
  destruct single_lookup_cases as (HL & HT & HF).
  split; [reflexivity|]. split; [reflexivity|].
  split; [intros kw w a b r E; rewrite HL, E; reflexivity|].
  split; [intros kw w a b r E; rewrite HF, E; reflexivity|].
  split; [intros kw w l E; rewrite HL, E; reflexivity|].
  split; [intros kw w f E; rewrite HF, E; reflexivity|].
  split; [intros kw w tm r E; rewrite HT, E; reflexivity|].
  split; [intros kw w x E; rewrite HL, E; cbn; congruence|].
  split; [intros kw w x E; rewrite HT, E; cbn; congruence|].
  split; [intros kw w x E; rewrite HF, E; cbn; congruence|].
  split; [reflexivity|]. split.
  - intros kw w l. rewrite HL.
    destruct (filter (LikeRepository.matches kw) (likes (db w))) as [|a [|b r]];
      cbn; discriminate.
  - intros kw w l. rewrite HT.
    destruct (filter (TweetMediaRepository.matches kw) (tweet_media (db w)));
      cbn; discriminate.
Qed.

(* ------------------------------------------------------------------ *)
(** ** Liking twice *)

(** C7. If the tweet exists and the caller's like of it is already stored,
    [add_like] finds the like, raises the 409 conflict and issues no insert
    (only the two lookups are traced); the [likes] table still holds exactly
    that one row for the (tweet, user) pair. *)
Theorem add_like_twice_conflict
  (user : Users.t) (id : Z) (w : World) (t : Tweets.t) (l : Like.t) :
  tweets_pk (db w) -> unique_like_tweet (db w) ->
  In t (tweets (db w)) -> Tweets.id t = id ->
  In l (likes (db w)) ->
  Like.tweet_id l = id -> Like.user_id l = Users.id user ->
  TweetServices.add_like user id w
  = (Raise (HTTPException 409 "You can't put more than 1 like"),
     traced w [tweet_repo_get_by_id id;
               like_repo_filter
                 [like_tweet_id_eq id; like_user_id_eq (Users.id user)]])
  /\ filter (fun x => (Like.tweet_id x =? id)
                      && (Like.user_id x =? Users.id user))
            (likes (db (snd (TweetServices.add_like user id w))))
     = [l].
Proof.
  intros Hpk Hu Ht Hid Hl Hl1 Hl2.
  assert (Hlk := like_by_pair (db w) l Hu Hl). rewrite Hl1, Hl2 in Hlk.
  assert (E : TweetServices.add_like user id w
              = (Raise (HTTPException 409 "You can't put more than 1 like"),
                 traced w [tweet_repo_get_by_id id;
                           like_repo_filter
                             [like_tweet_id_eq id;
                              like_user_id_eq (Users.id user)]])).
  { unfold TweetServices.add_like, TweetRepository.get_by_id,
      LikeRepository.filter.
    unfold_m. subst id. rewrite (tweet_by_pk (db w) t Hpk Ht). cbn.
    rewrite Hlk. cbn. rewrite <- app_assoc. reflexivity. }
  split; [exact E|].
  rewrite E. cbn. rewrite <- Hlk. apply filter_ext. intros x.
  unfold LikeRepository.matches. cbn. rewrite andb_true_r. reflexivity.
Qed.

Lemma add_like_twice_conflict_witness :
  TweetServices.add_like Ex.alice 1 Ex.social_world
  = (Raise (HTTPException 409 "You can't put more than 1 like"),
     traced Ex.social_world
            [tweet_repo_get_by_id 1;
             like_repo_filter [like_tweet_id_eq 1; like_user_id_eq 1]])
  /\ filter (fun x => (Like.tweet_id x =? 1) && (Like.user_id x =? 1))
            (likes (db (snd (TweetServices.add_like Ex.alice 1 Ex.social_world))))
     = [Ex.alice_likes_bob_one].
Proof.
  apply (add_like_twice_conflict
           Ex.alice 1 Ex.social_world
           Ex.bob_one Ex.alice_likes_bob_one).
  - unfold tweets_pk. cbn. repeat constructor; cbn; intuition discriminate.
  - unfold unique_like_tweet. cbn. repeat constructor; cbn; intuition discriminate.
  - cbn. left. reflexivity.
  - reflexivity.
  - cbn. left. reflexivity.
  - reflexivity.
  - reflexivity.
Defined.

(* ------------------------------------------------------------------ *)
(** ** Creating a tweet with media *)

Lemma next_id_fresh (ids : list Z) (x : Z) : In x ids -> x < next_id ids.
Proof.
  unfold next_id. induction ids as [|a ids IH]; intros H; [contradiction|].
  cbn [fold_right]. destruct H as [->|H]; [lia|]. specialize (IH H). lia.
Qed.

Lemma NoDup_map_filter {A K : Type} (key : A -> K) (p : A -> bool) (l : list A) :
  NoDup (map key l) -> NoDup (map key (filter p l)).
Proof.
  induction l as [|a l IH]; intros H; cbn; [constructor|].
  cbn in H. apply NoDup_cons_iff in H as [Hna Hnd].
  destruct (p a); [|apply IH; exact Hnd].
  cbn. constructor; [|apply IH; exact Hnd].
  intros Hin. apply Hna. apply in_map_iff in Hin as (y & Hy & Hin).
  apply in_map_iff. exists y. split; [exact Hy|].
  apply filter_In in Hin. tauto.
Qed.



Lemma media_filter_validated (user : Users.t) (ids : list Z) (w : World) :
  MediaRepository.filter
    (MediaRepository.mkKwargs
       [] [] [Media_id_in ids; Media_user_id_is (Users.id user)]) w
  = (Ok (PyList (validated_media (db w) user ids)),
     traced w [media_repo_filter]).
Proof.
  unfold MediaRepository.filter, validated_media, scalars_all. unfold_m.
  do 3 f_equal. apply filter_ext. intros m. cbn.
  rewrite andb_true_r. reflexivity.
Qed.



(* ------------------------------------------------------------------ *)
(** ** The feed: what [get_tweets] runs *)

Lemma int32_params_nil {A} (rows : list A) : int32_params [] rows = ret rows.
Proof. destruct rows; reflexivity. Qed.

Lemma int32_params_found {A} (values : list Z) (a : A) (rows : list A) :
  int32_params values (a :: rows) = ret (a :: rows).
Proof. reflexivity. Qed.

(** [get_tweets] resolves the following set, issues the one feed statement
    with the page-oriented offset, and builds a dictionary per row. *)
Lemma get_tweets_run (user : Users.t) (limit offset : option Z) (w : World) :
  TweetServices.get_tweets user limit offset w
  = (rows <- TweetRepository.apply_offset
               (TweetServices.page_offset limit offset)
               (feed_rows (db w) user) ;;
     rows <- TweetRepository.apply_limit limit rows ;;
     tweets_list <- map_M TweetServices.tweet_dict
                          (map (TweetRepository.load (db w)) rows) ;;
     ret (mkTweetResponse true tweets_list))
      (traced w [follow_repo_filter [follower_id_eq (Users.id user)];
                 tweet_repo_filter [] limit
                                   (TweetServices.page_offset limit offset)]).
Proof.
  unfold TweetServices.get_tweets, FollowerRepository.filter,
    TweetServices.following_list, TweetRepository.filter, scalars_all.
  unfold feed_rows, feed_query, visible_authors.
  unfold bind at 1. unfold bind at 1. unfold record at 1.
  unfold bind at 1. unfold get_db at 1. unfold ret at 1.
  simpl_world.
  destruct (filter (FollowerRepository.matches [follower_id_eq (Users.id user)])
                   (followers (db w))) as [|f subs] eqn:Esubs.
  - cbn [truthy negb]. unfold py_iter.
    cbn [TweetRepository.kw TweetRepository.kw_values map].
    unfold_m. rewrite int32_params_nil. unfold_m.
    cbn [TweetRepository.kw TweetRepository.limit TweetRepository.offset].
    rewrite <- app_assoc.
    change (TweetRepository.ordered_rows
              (db w)
              (TweetRepository.mkKwargs
                 []
                 [selectinload_author; selectinload_media_media;
                  selectinload_likes_user]
                 [Tweets_user_id_in [Users.id user]]
                 [likes_count_desc; created_at_desc]
                 limit (TweetServices.page_offset limit offset)))
      with (TweetRepository.ordered_rows
              (db w)
              (TweetRepository.mkKwargs
                 []
                 [selectinload_author; selectinload_media_media;
                  selectinload_likes_user]
                 [Tweets_user_id_in [Users.id user]]
                 [likes_count_desc; created_at_desc]
                 None None)).
    destruct (TweetRepository.apply_offset _ _ _) as [[rows|e] w1];
      [|reflexivity].
    destruct (TweetRepository.apply_limit _ _ _) as [[rows'|e] w2];
      [|reflexivity].
    destruct (map_M _ _ _) as [[tl|e] w3]; reflexivity.
  - cbn [truthy negb]. unfold py_iter.
    cbn [TweetRepository.kw TweetRepository.kw_values map].
    unfold_m. rewrite int32_params_nil. unfold_m.
    cbn [TweetRepository.kw TweetRepository.limit TweetRepository.offset].
    rewrite <- app_assoc.
    change (TweetRepository.ordered_rows
              (db w)
              (TweetRepository.mkKwargs
                 []
                 [selectinload_author; selectinload_media_media;
                  selectinload_likes_user]
                 [Tweets_user_id_in
                    (map Follower.followee_id (f :: subs) ++ [Users.id user])]
                 [likes_count_desc; created_at_desc]
                 limit (TweetServices.page_offset limit offset)))
      with (TweetRepository.ordered_rows
              (db w)
              (TweetRepository.mkKwargs
                 []
                 [selectinload_author; selectinload_media_media;
                  selectinload_likes_user]
                 [Tweets_user_id_in
                    (map Follower.followee_id (f :: subs) ++ [Users.id user])]
                 [likes_count_desc; created_at_desc]
                 None None)).
    destruct (TweetRepository.apply_offset _ _ _) as [[rows|e] w1];
      [|reflexivity].
    destruct (TweetRepository.apply_limit _ _ _) as [[rows'|e] w2];
      [|reflexivity].
    destruct (map_M _ _ _) as [[tl|e] w3]; reflexivity.
Qed.


Lemma stateless_ret {A} (a : A) : stateless (ret a).
Proof. exists (Ok a). reflexivity. Qed.

Lemma stateless_raise {A} (e : Exception) : stateless (@raise A e).
Proof. exists (Raise e). reflexivity. Qed.

Lemma stateless_attr {A} (x : option A) : stateless (attr x).
Proof. destruct x; [apply stateless_ret|apply stateless_raise]. Qed.

Lemma stateless_int32_params {A} (values : list Z) (rows : list A) :
  stateless (int32_params values rows).
Proof.
  unfold int32_params. destruct rows as [|a rows].
  - destruct (forallb in_int32 values);
      [apply stateless_ret|apply stateless_raise].
  - apply stateless_ret.
Qed.

Lemma stateless_bind {A B} (m : M A) (f : A -> M B) :
  stateless m -> (forall a, stateless (f a)) -> stateless (bind m f).
Proof.
  intros [r Hr] Hf. destruct r as [a|e].
  - destruct (Hf a) as [r' Hr']. exists r'. intros w.
    unfold bind. rewrite Hr. apply Hr'.
  - exists (Raise e). intros w. unfold bind. rewrite Hr. reflexivity.
Qed.

Lemma stateless_map_M {A B} (f : A -> M B) (l : list A) :
  (forall a, stateless (f a)) -> stateless (map_M f l).
Proof.
  intros Hf. induction l as [|x l IH]; cbn [map_M].
  - apply stateless_ret.
  - apply stateless_bind; [apply Hf|]. intros y.
    apply stateless_bind; [exact IH|]. intros ys. apply stateless_ret.
Qed.

Lemma stateless_tweet_dict (o : TweetObj.t) :
  stateless (TweetServices.tweet_dict o).
Proof.
  unfold TweetServices.tweet_dict.
  repeat first
    [ apply stateless_ret
    | apply stateless_attr
    | apply stateless_map_M; intros ?
    | apply stateless_bind; [|intros ?] ].
Qed.

Lemma stateless_world {A} (m : M A) (w w' : World) (r : Result A) :
  stateless m -> m w = (r, w') -> w' = w.
Proof.
  intros [r0 H] E. rewrite H in E. inversion E. reflexivity.
Qed.

Lemma map_M_length {A B} (f : A -> M B) (l : list A) :
  forall w ys w', map_M f l w = (Ok ys, w') -> List.length ys = List.length l.
Proof.
  induction l as [|x l IH]; intros w ys w' H; cbn [map_M] in H.
  - inversion H. reflexivity.
  - unfold bind, ret in H.
    destruct (f x w) as [[y|e] w1]; [|discriminate].
    destruct (map_M f l w1) as [[ys'|e] w2] eqn:E; [|discriminate].
    inversion H. subst. cbn. f_equal. eapply IH. exact E.
Qed.

Lemma map_M_Forall2 {A B} (f : A -> M B) (l : list A) :
  (forall a, stateless (f a)) ->
  forall w ys w',
    map_M f l w = (Ok ys, w') ->
    Forall2 (fun x y => f x w = (Ok y, w)) l ys.
Proof.
  intros Hf. induction l as [|x l IH]; intros w ys w' H; cbn [map_M] in H.
  - inversion H. constructor.
  - unfold bind, ret in H.
    destruct (f x w) as [[y|e] w1] eqn:Ex; [|discriminate].
    assert (w1 = w) by (eapply stateless_world; [apply Hf|exact Ex]). subst w1.
    destruct (map_M f l w) as [[ys'|e] w2] eqn:E; [|discriminate].
    inversion H. subst. constructor; [exact Ex|]. eapply IH. exact E.
Qed.


Lemma tweet_dict_shows (d : DB) (t : Tweets.t) (dct : TweetDetails) (w w' : World) :
  TweetServices.tweet_dict (TweetRepository.load d t) w = (Ok dct, w') ->
  shows d t dct.
Proof.
  unfold TweetServices.tweet_dict. unfold bind at 1.
  destruct (map_M _ (TweetObj.media _) w) as [[atts|e] w1]; [|discriminate].
  unfold bind at 1.
  destruct (map_M _ (TweetObj.likes _) w1) as [[lks|e] w2] eqn:El;
    [|discriminate].
  apply map_M_length in El.
  unfold bind, attr, ret, raise. cbn [TweetRepository.load TweetObj.author].
  destruct (Tweets.user_id t) as [u|] eqn:Eu; [|discriminate].
  destruct (find (fun x => Users.id x =? u) (users d)) as [a|] eqn:Ea;
    [|discriminate].
  intros Hres. inversion Hres. subst. unfold shows. cbn.
  apply find_some in Ea as [_ Ea]. apply Z.eqb_eq in Ea.
  repeat split.
  - rewrite El. cbn [TweetRepository.load TweetObj.likes].
    rewrite length_map. reflexivity.
  - rewrite Ea. exact Eu.
Qed.

Lemma apply_offset_ok {A} (offset : option Z) (rows r : list A) (w w' : World) :
  TweetRepository.apply_offset offset rows w = (Ok r, w') ->
  w' = w
  /\ match offset with
     | None => r = rows
     | Some o => 0 <= o <= max_int64 /\ r = skipn (Z.to_nat o) rows
     end.
Proof.
  unfold TweetRepository.apply_offset, ret, raise.
  destruct offset as [o|].
  - destruct (Z.ltb_spec o 0) as [Hlt|Hge]; [discriminate|].
    destruct (Z.ltb_spec max_int64 o) as [Hlt|Hle]; [discriminate|].
    intros Hres. inversion Hres. repeat split; lia.
  - intros Hres. inversion Hres. split; reflexivity.
Qed.

Lemma apply_limit_ok {A} (limit : option Z) (rows r : list A) (w w' : World) :
  TweetRepository.apply_limit limit rows w = (Ok r, w') ->
  w' = w
  /\ match limit with
     | None => r = rows
     | Some n => 0 <= n <= max_int64 /\ r = firstn (Z.to_nat n) rows
     end.
Proof.
  unfold TweetRepository.apply_limit, ret, raise.
  destruct limit as [n|].
  - destruct (Z.ltb_spec n 0) as [Hlt|Hge]; [discriminate|].
    destruct (Z.ltb_spec max_int64 n) as [Hlt|Hle]; [discriminate|].
    intros Hres. inversion Hres. repeat split; lia.
  - intros Hres. inversion Hres. split; reflexivity.
Qed.


(** A successful [get_tweets] shows, row by row, the requested page of the
    feed rows. *)
Lemma get_tweets_ok (user : Users.t) (limit offset : option Z)
  (w w' : World) (resp : TweetResponse) :
  TweetServices.get_tweets user limit offset w = (Ok resp, w') ->
  Forall2 (shows (db w))
          (page_of limit (TweetServices.page_offset limit offset)
                   (feed_rows (db w) user))
          (tweets_list resp).
Proof.
  rewrite get_tweets_run. unfold bind at 1.
  destruct (TweetRepository.apply_offset _ _ _) as [[rows0|e] w1] eqn:Eo;
    [|discriminate].
  apply apply_offset_ok in Eo as [-> Eo].
  unfold bind at 1.
  destruct (TweetRepository.apply_limit _ _ _) as [[rows|e] w2] eqn:El;
    [|discriminate].
  apply apply_limit_ok in El as [-> El].
  unfold bind at 1.
  destruct (map_M _ _ _) as [[tl|e] w3] eqn:Em; [|discriminate].
  unfold ret. intros H. inversion H. subst. clear H. cbn [tweets_list].
  assert (Hrows : rows = page_of limit (TweetServices.page_offset limit offset)
                                 (feed_rows (db w) user)).
  { unfold page_of.
    destruct (TweetServices.page_offset limit offset) as [o|];
      destruct limit as [n|]; intuition congruence. }
  rewrite <- Hrows. clear Hrows Eo El.
  apply map_M_Forall2 in Em; [|apply stateless_tweet_dict].
  simpl_world.
  remember (traced w _) as w1 eqn:Ew1. clear Ew1.
  revert tl Em. induction rows as [|t rows IH]; intros tl Em.
  - inversion Em. constructor.
  - cbn [map] in Em. inversion Em as [|x y l l' Hxy Hrest]. subst.
    constructor.
    + eapply tweet_dict_shows. exact Hxy.
    + apply IH. exact Hrest.
Qed.

Lemma stateless_apply_offset {A} (offset : option Z) (rows : list A) :
  stateless (TweetRepository.apply_offset offset rows).
Proof.
  unfold TweetRepository.apply_offset. destruct offset as [o|].
  - destruct ((o <? 0) || (max_int64 <? o));
      [apply stateless_raise|apply stateless_ret].
  - apply stateless_ret.
Qed.

Lemma stateless_apply_limit {A} (limit : option Z) (rows : list A) :
  stateless (TweetRepository.apply_limit limit rows).
Proof.
  unfold TweetRepository.apply_limit. destruct limit as [n|].
  - destruct ((n <? 0) || (max_int64 <? n));
      [apply stateless_raise|apply stateless_ret].
  - apply stateless_ret.
Qed.

Lemma get_tweets_trace (user : Users.t) (limit offset : option Z) (w : World) :
  snd (TweetServices.get_tweets user limit offset w)
  = traced w [follow_repo_filter [follower_id_eq (Users.id user)];
              tweet_repo_filter [] limit
                                (TweetServices.page_offset limit offset)].
Proof.
  rewrite get_tweets_run.
  match goal with
  | |- snd (?m ?w1) = _ =>
      assert (Hs : stateless m);
      [|destruct Hs as [r Hr]; rewrite Hr; reflexivity]
  end.
  apply stateless_bind; [apply stateless_apply_offset|]. intros rows.
  apply stateless_bind; [apply stateless_apply_limit|]. intros rows'.
  apply stateless_bind; [|intros tl; apply stateless_ret].
  apply stateless_map_M. intros o. apply stateless_tweet_dict.
Qed.


(* ------------------------------------------------------------------ *)
(** ** Feed ordering *)

Lemma order_cmp_feed (d : DB) (a b : Tweets.t) :
  TweetRepository.order_cmp d feed_keys a b
  = match TweetRepository.likes_count d b ?= TweetRepository.likes_count d a with
    | Eq =>
        match Tweets.created_at b ?= Tweets.created_at a with
        | Eq => Eq
        | c => c
        end
    | c => c
    end.
Proof. reflexivity. Qed.

Lemma order_cmp_Lt (d : DB) (a b : Tweets.t) :
  TweetRepository.order_cmp d feed_keys a b = Lt <-> feed_gt d a b.
Proof.
  rewrite order_cmp_feed. unfold feed_gt.
  destruct (Z.compare_spec (TweetRepository.likes_count d b)
                           (TweetRepository.likes_count d a));
    destruct (Z.compare_spec (Tweets.created_at b) (Tweets.created_at a));
    split; intros; try discriminate; try reflexivity; lia.
Qed.

Lemma order_cmp_not_Lt (d : DB) (a b : Tweets.t) :
  TweetRepository.order_cmp d feed_keys a b <> Lt -> feed_ge d b a.
Proof.
  rewrite order_cmp_feed. unfold feed_ge.
  destruct (Z.compare_spec (TweetRepository.likes_count d b)
                           (TweetRepository.likes_count d a));
    destruct (Z.compare_spec (Tweets.created_at b) (Tweets.created_at a));
    intros; try congruence; lia.
Qed.

Lemma feed_gt_ge (d : DB) (a b : Tweets.t) : feed_gt d a b -> feed_ge d a b.
Proof. unfold feed_gt, feed_ge. lia. Qed.

Lemma feed_ge_trans (d : DB) (a b c : Tweets.t) :
  feed_ge d a b -> feed_ge d b c -> feed_ge d a c.
Proof. unfold feed_ge. lia. Qed.

Lemma feed_gt_not_ge (d : DB) (a b : Tweets.t) :
  feed_gt d a b -> feed_ge d b a -> False.
Proof. unfold feed_gt, feed_ge. lia. Qed.

Lemma insert_sorted_In (d : DB) (x z : Tweets.t) (l : list Tweets.t) :
  In z (TweetRepository.insert_sorted d feed_keys x l) <-> z = x \/ In z l.
Proof.
  induction l as [|y l IH]; cbn [TweetRepository.insert_sorted].
  - cbn. intuition.
  - destruct (TweetRepository.order_cmp d feed_keys x y); cbn [In];
      rewrite ?IH; intuition.
Qed.

Lemma insert_sorted_sorted (d : DB) (x : Tweets.t) (l : list Tweets.t) :
  StronglySorted (feed_ge d) l ->
  StronglySorted (feed_ge d) (TweetRepository.insert_sorted d feed_keys x l).
Proof.
  induction 1 as [|y l Hs IH Hall]; cbn [TweetRepository.insert_sorted].
  - repeat constructor.
  - assert (Hkeep : TweetRepository.order_cmp d feed_keys x y <> Lt ->
                    StronglySorted
                      (feed_ge d)
                      (y :: TweetRepository.insert_sorted d feed_keys x l)).
    { intros Hc. constructor; [exact IH|].
      apply Forall_forall. intros z Hz. apply insert_sorted_In in Hz.
      destruct Hz as [->|Hz].
      - apply order_cmp_not_Lt. exact Hc.
      - rewrite Forall_forall in Hall. apply Hall. exact Hz. }
    destruct (TweetRepository.order_cmp d feed_keys x y) eqn:Ec.
    + apply Hkeep. discriminate.
    + apply order_cmp_Lt in Ec. constructor.
      * constructor; assumption.
      * constructor; [apply feed_gt_ge; exact Ec|].
        apply Forall_forall. intros z Hz.
        rewrite Forall_forall in Hall.
        apply (feed_ge_trans d x y z); [apply feed_gt_ge; exact Ec|].
        apply Hall. exact Hz.
    + apply Hkeep. discriminate.
Qed.

Lemma sort_rows_sorted (d : DB) (l : list Tweets.t) :
  StronglySorted (feed_ge d) (TweetRepository.sort_rows d feed_keys l).
Proof.
  unfold TweetRepository.sort_rows.
  induction (rev l) as [|x r IH]; cbn [fold_right].
  - constructor.
  - apply insert_sorted_sorted. exact IH.
Qed.

Lemma sort_rows_In (d : DB) (l : list Tweets.t) (z : Tweets.t) :
  In z (TweetRepository.sort_rows d feed_keys l) <-> In z l.
Proof.
  unfold TweetRepository.sort_rows. rewrite (in_rev l z).
  induction (rev l) as [|x r IH]; cbn [fold_right].
  - reflexivity.
  - rewrite insert_sorted_In, IH. cbn. intuition.
Qed.

Lemma feed_rows_sorted (d : DB) (user : Users.t) :
  StronglySorted (feed_ge d) (feed_rows d user).
Proof. apply sort_rows_sorted. Qed.

Lemma precedes_sorted {A} (R : A -> A -> Prop) (l : list A) (a b : A) :
  StronglySorted R l -> precedes a b l -> R a b.
Proof.
  intros Hs (l1 & l2 & l3 & ->).
  induction l1 as [|x l1 IH]; cbn in Hs.
  - apply StronglySorted_inv in Hs as [_ Hall].
    rewrite Forall_forall in Hall. apply Hall.
    apply in_or_app. right. left. reflexivity.
  - apply StronglySorted_inv in Hs as [Hs _]. apply IH. exact Hs.
Qed.

Lemma precedes_skipn {A} (n : nat) (l : list A) (a b : A) :
  precedes a b (skipn n l) -> precedes a b l.
Proof.
  intros (l1 & l2 & l3 & H). exists (firstn n l ++ l1), l2, l3.
  rewrite <- app_assoc, <- H. symmetry. apply firstn_skipn.
Qed.

Lemma precedes_firstn {A} (n : nat) (l : list A) (a b : A) :
  precedes a b (firstn n l) -> precedes a b l.
Proof.
  intros (l1 & l2 & l3 & H). exists l1, l2, (l3 ++ skipn n l).
  rewrite <- (firstn_skipn n l) at 1. rewrite H, <- !app_assoc. cbn.
  rewrite <- !app_assoc. reflexivity.
Qed.

Lemma precedes_page {A} (limit offset : option Z) (l : list A) (a b : A) :
  precedes a b (page_of limit offset l) -> precedes a b l.
Proof.
  unfold page_of. intros H.
  destruct limit as [n|]; [apply precedes_firstn in H|];
    destruct offset as [o|]; try apply precedes_skipn in H; exact H.
Qed.

Lemma precedes_or {A} (l : list A) (a b : A) :
  In a l -> In b l -> a <> b -> precedes a b l \/ precedes b a l.
Proof.
  intros Ha Hb Hne. apply in_split in Ha as (l1 & l2 & ->).
  apply in_app_or in Hb as [Hb|[Hb|Hb]].
  - right. apply in_split in Hb as (k1 & k2 & ->).
    exists k1, k2, l2. rewrite <- app_assoc. reflexivity.
  - contradiction.
  - left. apply in_split in Hb as (k1 & k2 & ->).
    exists l1, k1, k2. reflexivity.
Qed.

(* ------------------------------------------------------------------ *)
(** ** Visible authors *)

Lemma visible_authors_In (d : DB) (user : Users.t) (a : Z) :
  In a (visible_authors d user)
  <-> a = Users.id user \/ follows d (Users.id user) a.
Proof.
  unfold visible_authors, follows.
  assert (Hf : forall f,
             In f (filter (FollowerRepository.matches
                             [follower_id_eq (Users.id user)])
                          (followers d))
             <-> In f (followers d) /\ Follower.follower_id f = Users.id user).
  { intros f. rewrite filter_In. unfold FollowerRepository.matches. cbn.
    rewrite andb_true_r, Z.eqb_eq. reflexivity. }
  destruct (filter (FollowerRepository.matches [follower_id_eq (Users.id user)])
                   (followers d)) as [|f0 subs].
  - cbn. split.
    + intros [<-|[]]. left. reflexivity.
    + intros [->|(f & Hin & Hu & _)]; [left; reflexivity|].
      exfalso. apply (proj2 (Hf f)). split; assumption.
  - rewrite in_app_iff, in_map_iff. cbn [In]. split.
    + intros [(f & <- & Hin)|[<-|[]]].
      * right. apply Hf in Hin as [Hin Hu]. exists f. repeat split; assumption.
      * left. reflexivity.
    + intros [->|(f & Hin & Hu & <-)].
      * right. left. reflexivity.
      * left. exists f. split; [reflexivity|]. apply Hf. split; assumption.
Qed.

Lemma visible_iff (d : DB) (user : Users.t) (t : Tweets.t) :
  visible d user t = true
  <-> exists a, Tweets.user_id t = Some a
                /\ (a = Users.id user \/ follows d (Users.id user) a).
Proof.
  unfold visible. destruct (Tweets.user_id t) as [a|].
  - rewrite existsb_exists. split.
    + intros (x & Hx & E). apply Z.eqb_eq in E. subst x.
      exists a. split; [reflexivity|]. apply visible_authors_In. exact Hx.
    + intros (x & E & Hx). inversion E. subst x.
      exists a. split; [|apply Z.eqb_refl]. apply visible_authors_In. exact Hx.
  - split; [discriminate|]. intros (a & E & _). discriminate.
Qed.

Lemma outerjoin_In (ts : list Tweets.t) (ls : list Like.t)
  (t : Tweets.t) (l : option Like.t) :
  In (t, l) (TweetRepository.outerjoin ts ls) -> In t ts.
Proof.
  unfold TweetRepository.outerjoin. rewrite in_flat_map.
  intros (x & Hx & Hin).
  destruct (filter (fun l0 => Like.tweet_id l0 =? Tweets.id x) ls).
  - destruct Hin as [E|[]]. inversion E. subst. exact Hx.
  - apply in_map_iff in Hin as (y & E & _). inversion E. subst. exact Hx.
Qed.

Lemma group_by_id_In (rows : list (Tweets.t * option Like.t)) :
  forall seen t,
    In t (TweetRepository.group_by_id seen rows) ->
    exists l, In (t, l) rows.
Proof.
  induction rows as [|[x lx] rows IH]; intros seen t H;
    cbn [TweetRepository.group_by_id] in H; [contradiction|].
  destruct (existsb (Z.eqb (Tweets.id x)) seen).
  - destruct (IH _ _ H) as [l Hl]. exists l. right. exact Hl.
  - destruct H as [<-|H].
    + exists lx. left. reflexivity.
    + destruct (IH _ _ H) as [l Hl]. exists l. right. exact Hl.
Qed.

Lemma group_by_id_seen (seen : list Z) (t : Tweets.t)
  (rows : list (Tweets.t * option Like.t)) (rest : list (Tweets.t * option Like.t)) :
  In (Tweets.id t) seen ->
  (forall p, In p rows -> fst p = t) ->
  TweetRepository.group_by_id seen (rows ++ rest)
  = TweetRepository.group_by_id seen rest.
Proof.
  intros Hseen. induction rows as [|[x lx] rows IH]; intros Hall; [reflexivity|].
  cbn [app TweetRepository.group_by_id].
  assert (x = t) by (apply (Hall (x, lx)); left; reflexivity). subst x.
  assert (E : existsb (Z.eqb (Tweets.id t)) seen = true).
  { apply existsb_exists. exists (Tweets.id t). split; [exact Hseen|apply Z.eqb_refl]. }
  rewrite E. apply IH. intros p Hp. apply Hall. right. exact Hp.
Qed.

(** With unique tweet keys, joining the likes and grouping by key gives each
    selected tweet once, in table order. *)
Lemma group_by_outerjoin (p : Tweets.t -> bool) (ls : list Like.t)
  (ts : list Tweets.t) :
  forall seen,
    NoDup (map Tweets.id ts) ->
    (forall t, In t ts -> ~ In (Tweets.id t) seen) ->
    TweetRepository.group_by_id
      seen (filter (fun r => p (fst r)) (TweetRepository.outerjoin ts ls))
    = filter p ts.
Proof.
  induction ts as [|t ts IH]; intros seen Hnd Hseen; [reflexivity|].
  cbn in Hnd. apply NoDup_cons_iff in Hnd as [Hni Hnd].
  unfold TweetRepository.outerjoin. cbn [flat_map].
  fold (TweetRepository.outerjoin ts ls).
  rewrite filter_app. cbn [filter].
  set (mine := match filter (fun l => Like.tweet_id l =? Tweets.id t) ls with
               | [] => [(t, None)]
               | l :: m => map (fun l0 => (t, Some l0)) (l :: m)
               end).
  assert (Hmine : forall r, In r mine -> fst r = t).
  { intros r Hr. unfold mine in Hr.
    destruct (filter (fun l => Like.tweet_id l =? Tweets.id t) ls).
    - destruct Hr as [<-|[]]. reflexivity.
    - apply in_map_iff in Hr as (y & <- & _). reflexivity. }
  assert (Hne : exists r m, mine = r :: m).
  { unfold mine.
    destruct (filter (fun l => Like.tweet_id l =? Tweets.id t) ls);
      cbn; eauto. }
  destruct (p t) eqn:Ept.
  - assert (Hall : filter (fun r => p (fst r)) mine = mine).
    { apply forallb_filter_id. apply forallb_forall. intros r Hr.
      rewrite (Hmine r Hr). exact Ept. }
    rewrite Hall. destruct Hne as (r & m & Em). rewrite Em.
    assert (Hr : fst r = t) by (apply Hmine; rewrite Em; left; reflexivity).
    destruct r as [x lx]. cbn in Hr. subst x.
    cbn [app TweetRepository.group_by_id].
    assert (E : existsb (Z.eqb (Tweets.id t)) seen = false).
    { apply not_true_is_false. intros Hex.
      apply existsb_exists in Hex as (z & Hz & Ez). apply Z.eqb_eq in Ez.
      subst z. apply (Hseen t); [left; reflexivity|exact Hz]. }
    rewrite E. f_equal.
    rewrite (group_by_id_seen (Tweets.id t :: seen) t m).
    + apply IH; [exact Hnd|].
      intros x Hx [Heq|Hin].
      * apply Hni. rewrite Heq. apply in_map. exact Hx.
      * apply (Hseen x); [right; exact Hx|exact Hin].
    + left. reflexivity.
    + intros q Hq. apply Hmine. rewrite Em. right. exact Hq.
  - assert (Hnone : filter (fun r => p (fst r)) mine = []).
    { apply filter_none. intros r Hr. rewrite (Hmine r Hr). exact Ept. }
    rewrite Hnone. cbn [app]. apply IH; [exact Hnd|].
    intros x Hx. apply Hseen. right. exact Hx.
Qed.

Lemma feed_rows_In (d : DB) (user : Users.t) (t : Tweets.t) :
  In t (feed_rows d user) -> In t (tweets d) /\ visible d user t = true.
Proof.
  unfold feed_rows, TweetRepository.ordered_rows, feed_query.
  cbn [TweetRepository.order_by TweetRepository.kw
       TweetRepository.custom_filters].
  intros H. apply (proj1 (sort_rows_In d _ _)) in H.
  apply group_by_id_In in H as [l Hl].
  apply filter_In in Hl as [Hl Hp]. cbn in Hp.
  rewrite andb_true_r in Hp. split.
  - eapply outerjoin_In. exact Hl.
  - exact Hp.
Qed.

Lemma feed_rows_pk (d : DB) (user : Users.t) :
  tweets_pk d ->
  feed_rows d user
  = TweetRepository.sort_rows d feed_keys (filter (visible d user) (tweets d)).
Proof.
  intros Hpk.
  unfold feed_rows, TweetRepository.ordered_rows, feed_query.
  cbn [TweetRepository.order_by TweetRepository.kw
       TweetRepository.custom_filters].
  f_equal.
  rewrite <- (group_by_outerjoin (visible d user) (likes d) (tweets d) []
                                 Hpk (fun _ _ H => H)).
  f_equal. apply filter_ext. intros r. cbn. rewrite andb_true_r. reflexivity.
Qed.

Lemma In_firstn {A} (n : nat) (l : list A) (x : A) :
  In x (firstn n l) -> In x l.
Proof.
  intros H. rewrite <- (firstn_skipn n l). apply in_or_app. left. exact H.
Qed.

Lemma In_skipn {A} (n : nat) (l : list A) (x : A) :
  In x (skipn n l) -> In x l.
Proof.
  intros H. rewrite <- (firstn_skipn n l). apply in_or_app. right. exact H.
Qed.

Lemma page_of_In {A} (limit offset : option Z) (l : list A) (x : A) :
  In x (page_of limit offset l) -> In x l.
Proof.
  unfold page_of. intros H.
  destruct limit as [n|]; [apply In_firstn in H|];
    destruct offset as [o|]; try apply In_skipn in H; exact H.
Qed.

Lemma find_exists {A} (p : A -> bool) (l : list A) :
  existsb p l = true -> exists x, find p l = Some x.
Proof.
  induction l as [|a l IH]; cbn; [discriminate|].
  destruct (p a); [eauto|exact IH].
Qed.

Lemma map_M_returns {A B} (f : A -> M B) (l : list A) :
  (forall x, In x l -> exists y, forall w, f x w = (Ok y, w)) ->
  exists ys, forall w, map_M f l w = (Ok ys, w).
Proof.
  induction l as [|x l IH]; intros H.
  - exists []. reflexivity.
  - destruct (H x (or_introl eq_refl)) as [y Hy].
    destruct IH as [ys Hys]; [intros z Hz; apply H; right; exact Hz|].
    exists (y :: ys). intros w. cbn [map_M]. unfold bind, ret.
    rewrite Hy, Hys. reflexivity.
Qed.

(** With the foreign keys in place, the dictionary of a stored tweet that
    has an author is built without exception. *)
Lemma tweet_dict_returns (d : DB) (t : Tweets.t) (u : Z) :
  referential_integrity d -> In t (tweets d) -> Tweets.user_id t = Some u ->
  exists dct, forall w,
      TweetServices.tweet_dict (TweetRepository.load d t) w = (Ok dct, w).
Proof.
  intros (Hauthor & Hmedia & Hlikes) Hin Hu.
  unfold TweetServices.tweet_dict.
  destruct (map_M_returns
              (fun tweet_media =>
                 media <- attr (TweetMedia.media tweet_media) ;;
                 ret (Media.file_path media))
              (TweetObj.media (TweetRepository.load d t))) as [atts Hatts].
  { intros o Ho. cbn [TweetRepository.load TweetObj.media] in Ho.
    apply in_map_iff in Ho as (tm & <- & Htm). apply filter_In in Htm as [Htm _].
    destruct (find_exists _ _ (Hmedia tm Htm)) as [m Em].
    exists (Media.file_path m). intros w.
    cbn [TweetRepository.load_media TweetMedia.media].
    rewrite Em. reflexivity. }
  destruct (map_M_returns
              (fun like =>
                 u0 <- attr (Like.user like) ;;
                 ret (mkLikeBasic (Like.user_id (Like.row like))
                                  (Users.name u0)))
              (TweetObj.likes (TweetRepository.load d t))) as [lks Hlks].
  { intros o Ho. cbn [TweetRepository.load TweetObj.likes] in Ho.
    apply in_map_iff in Ho as (l & <- & Hl). apply filter_In in Hl as [Hl _].
    destruct (find_exists _ _ (Hlikes l Hl)) as [a Ea].
    exists (mkLikeBasic (Like.user_id l) (Users.name a)). intros w.
    cbn [TweetRepository.load_like Like.user Like.row].
    rewrite Ea. reflexivity. }
  destruct (find_exists _ _ (Hauthor t u Hin Hu)) as [a Ea].
  eexists. intros w. unfold bind at 1. rewrite Hatts.
  unfold bind at 1. rewrite Hlks.
  cbn [TweetRepository.load TweetObj.author TweetObj.row].
  rewrite Hu, Ea. reflexivity.
Qed.

(** With the foreign keys in place and an offset and a limit within the range
    the database accepts, [get_tweets] returns a response. *)
Lemma get_tweets_returns (user : Users.t) (limit offset : option Z) (w : World) :
  referential_integrity (db w) ->
  match limit with Some n => 0 <= n <= max_int64 | None => True end ->
  match TweetServices.page_offset limit offset with
  | Some o => 0 <= o <= max_int64
  | None => True
  end ->
  exists resp w', TweetServices.get_tweets user limit offset w = (Ok resp, w').
Proof.
  intros Hri Hlimit Hoffset. rewrite get_tweets_run.
  set (rows := page_of limit (TweetServices.page_offset limit offset)
                       (feed_rows (db w) user)).
  destruct (map_M_returns TweetServices.tweet_dict
                          (map (TweetRepository.load (db w)) rows))
    as [tl Htl].
  { intros o Ho. apply in_map_iff in Ho as (t & <- & Ht).
    apply page_of_In in Ht. apply feed_rows_In in Ht as [Hin Hv].
    apply visible_iff in Hv as (a & Ha & _).
    exact (tweet_dict_returns (db w) t a Hri Hin Ha). }
  exists (mkTweetResponse true tl).
  exists (traced w [follow_repo_filter [follower_id_eq (Users.id user)];
                    tweet_repo_filter
                      [] limit (TweetServices.page_offset limit offset)]).
  unfold bind, TweetRepository.apply_offset, TweetRepository.apply_limit,
    ret, raise.
  subst rows. unfold page_of in Htl.
  destruct (TweetServices.page_offset limit offset) as [o|];
    destruct limit as [n|];
    repeat match goal with
      | |- context [?x <? ?y] =>
          destruct (Z.ltb_spec x y); [lia|]
      end;
    cbn [orb]; rewrite Htl; reflexivity.
Qed.

(* ------------------------------------------------------------------ *)
(** ** The rows behind a served page *)

Lemma stateless_result {A} (m : M A) (w w' : World) (r : Result A) :
  stateless m -> m w = (r, w') -> forall w0, m w0 = (r, w0).
Proof.
  intros [r0 H] E w0. rewrite H in E. inversion E. subst. apply H.
Qed.

Lemma map_M_of_Forall2 {A B} (f : A -> M B) (l : list A) (ys : list B) :
  Forall2 (fun x y => forall w, f x w = (Ok y, w)) l ys ->
  forall w, map_M f l w = (Ok ys, w).
Proof.
  induction 1 as [|x y l ys Hxy _ IH]; intros w; cbn [map_M].
  - reflexivity.
  - unfold bind, ret. rewrite Hxy, IH. reflexivity.
Qed.

Lemma Forall2_skipn {A B} (R : A -> B -> Prop) (n : nat) :
  forall l ys, Forall2 R l ys -> Forall2 R (skipn n l) (skipn n ys).
Proof.
  induction n as [|n IH]; intros l ys H; [exact H|].
  destruct H as [|x y l ys Hxy H]; cbn [skipn]; [constructor|].
  apply IH. exact H.
Qed.

Lemma Forall2_firstn {A B} (R : A -> B -> Prop) (n : nat) :
  forall l ys, Forall2 R l ys -> Forall2 R (firstn n l) (firstn n ys).
Proof.
  induction n as [|n IH]; intros l ys H; [constructor|].
  destruct H as [|x y l ys Hxy H]; cbn [firstn]; constructor; auto.
Qed.

Lemma Forall2_page_of {A B} (R : A -> B -> Prop) (limit offset : option Z)
  (l : list A) (ys : list B) :
  Forall2 R l ys -> Forall2 R (page_of limit offset l) (page_of limit offset ys).
Proof.
  intros H. unfold page_of.
  destruct offset as [o|]; destruct limit as [n|];
    repeat first [apply Forall2_firstn | apply Forall2_skipn]; exact H.
Qed.

Lemma Forall2_map_l {A B C} (R : B -> C -> Prop) (g : A -> B) (l : list A) :
  forall ys, Forall2 R (map g l) ys <-> Forall2 (fun x y => R (g x) y) l ys.
Proof.
  induction l as [|x l IH]; intros ys; split; intros H; cbn [map] in *.
  - inversion H. constructor.
  - inversion H. constructor.
  - inversion H as [|a b l1 l2 Hab Hrest]. subst.
    constructor; [exact Hab|]. apply IH. exact Hrest.
  - inversion H as [|a b l1 l2 Hab Hrest]. subst.
    constructor; [exact Hab|]. apply IH. exact Hrest.
Qed.

Lemma Forall2_In_l {A B} (R : A -> B -> Prop) (l : list A) (ys : list B) (x : A) :
  Forall2 R l ys -> In x l -> exists y, In y ys /\ R x y.
Proof.
  induction 1 as [|a b l ys Hab _ IH]; intros Hin; [contradiction|].
  destruct Hin as [->|Hin].
  - exists b. split; [left; reflexivity|exact Hab].
  - destruct (IH Hin) as (y & Hy & Hr). exists y. split; [right; exact Hy|exact Hr].
Qed.

Lemma Forall2_In_r {A B} (R : A -> B -> Prop) (l : list A) (ys : list B) (y : B) :
  Forall2 R l ys -> In y ys -> exists x, In x l /\ R x y.
Proof.
  induction 1 as [|a b l ys Hab _ IH]; intros Hin; [contradiction|].
  destruct Hin as [->|Hin].
  - exists a. split; [left; reflexivity|exact Hab].
  - destruct (IH Hin) as (x & Hx & Hr). exists x. split; [right; exact Hx|exact Hr].
Qed.

Lemma Forall2_precedes_r {A B} (R : A -> B -> Prop) (l : list A) (ys : list B)
  (x y : B) :
  Forall2 R l ys -> precedes x y ys ->
  exists a b, precedes a b l /\ R a x /\ R b y.
Proof.
  intros H (l1 & l2 & l3 & ->).
  apply Forall2_app_inv_r in H as (k1 & k & _ & H & ->).
  inversion H as [|a x' k2 l2' Hax H']. subst.
  apply Forall2_app_inv_r in H' as (k3 & k4 & _ & H' & ->).
  inversion H' as [|b y' k5 l3' Hby _]. subst.
  exists a, b. split; [|split; assumption].
  exists k1, k3, k5. reflexivity.
Qed.

Lemma Forall2_precedes_l {A B} (R : A -> B -> Prop) (l : list A) (ys : list B)
  (a b : A) :
  Forall2 R l ys -> precedes a b l ->
  exists x y, precedes x y ys /\ R a x /\ R b y.
Proof.
  intros H (l1 & l2 & l3 & ->).
  apply Forall2_app_inv_l in H as (k1 & k & _ & H & ->).
  inversion H as [|a' x k2 l2' Hax H']. subst.
  apply Forall2_app_inv_l in H' as (k3 & k4 & _ & H' & ->).
  inversion H' as [|b' y k5 l3' Hby _]. subst.
  exists x, y. split; [|split; assumption].
  exists k1, k3, l3'. reflexivity.
Qed.

Lemma NoDup_map_eq {A K : Type} (key : A -> K) (l : list A) (a b : A) :
  NoDup (map key l) -> In a l -> In b l -> key a = key b -> a = b.
Proof.
  induction l as [|x l IH]; intros Hnd Ha Hb E; [contradiction|].
  cbn in Hnd. apply NoDup_cons_iff in Hnd as [Hni Hnd].
  destruct Ha as [->|Ha]; destruct Hb as [->|Hb].
  - reflexivity.
  - exfalso. apply Hni. rewrite E. apply in_map. exact Hb.
  - exfalso. apply Hni. rewrite <- E. apply in_map. exact Ha.
  - apply IH; assumption.
Qed.

Lemma NoDup_of_map {A K} (key : A -> K) (l : list A) :
  NoDup (map key l) -> NoDup l.
Proof.
  induction l as [|a l IH]; intros H; [constructor|].
  cbn in H. apply NoDup_cons_iff in H as [Hna Hnd].
  constructor; [|apply IH; exact Hnd].
  intros Hin. apply Hna. apply in_map. exact Hin.
Qed.

(** The outcome of [get_tweets], by range of the page. *)
Lemma get_tweets_cases (user : Users.t) (limit offset : option Z) (w : World) :
  TweetServices.get_tweets user limit offset w
  = (if out_of_range limit (TweetServices.page_offset limit offset)
     then raise DBAPIError
     else
       tweets_list <-
         map_M TweetServices.tweet_dict
               (map (TweetRepository.load (db w))
                    (page_of limit (TweetServices.page_offset limit offset)
                             (feed_rows (db w) user))) ;;
       ret (mkTweetResponse true tweets_list))
      (traced w [follow_repo_filter [follower_id_eq (Users.id user)];
                 tweet_repo_filter [] limit
                                   (TweetServices.page_offset limit offset)]).
Proof.
  rewrite get_tweets_run.
  unfold out_of_range, page_of, TweetRepository.apply_offset,
    TweetRepository.apply_limit.
  destruct (TweetServices.page_offset limit offset) as [o|];
    destruct limit as [n|]; cbn [orb];
    repeat match goal with
      | |- context [(?x <? 0) || (max_int64 <? ?x)] =>
          destruct ((x <? 0) || (max_int64 <? x)); cbn [orb]
      end;
    reflexivity.
Qed.

(** The dictionaries of a served page, one per row, whatever the world. *)
Lemma get_tweets_rows (user : Users.t) (limit offset : option Z)
  (w w' : World) (resp : TweetResponse) :
  TweetServices.get_tweets user limit offset w = (Ok resp, w') ->
  out_of_range limit (TweetServices.page_offset limit offset) = false
  /\ Forall2 (fun t dct =>
                forall w0,
                  TweetServices.tweet_dict (TweetRepository.load (db w) t) w0
                  = (Ok dct, w0))
             (page_of limit (TweetServices.page_offset limit offset)
                      (feed_rows (db w) user))
             (tweets_list resp).
Proof.
  rewrite get_tweets_cases.
  destruct (out_of_range _ _); [discriminate|].
  unfold bind.
  destruct (map_M _ _ _) as [[tl|e] w1] eqn:Em; [|discriminate].
  unfold ret. intros H. inversion H. subst. clear H. cbn [tweets_list].
  split; [reflexivity|].
  apply map_M_Forall2 in Em; [|apply stateless_tweet_dict].
  apply Forall2_map_l in Em.
  eapply Forall2_impl; [|exact Em]. cbn beta. intros t dct E.
  eapply stateless_result; [apply stateless_tweet_dict|exact E].
Qed.

(** The rows of the whole feed, under the primary key of [tweets]. *)
Lemma feed_rows_iff (d : DB) (user : Users.t) (t : Tweets.t) :
  tweets_pk d ->
  (In t (feed_rows d user)
   <-> In t (tweets d)
       /\ exists a, Tweets.user_id t = Some a
                    /\ (a = Users.id user \/ follows d (Users.id user) a)).
Proof.
  intros Hpk. rewrite (feed_rows_pk d user Hpk), sort_rows_In, filter_In.
  rewrite visible_iff. reflexivity.
Qed.

Lemma feed_ids (user : Users.t) (limit offset : option Z) (w w' : World)
  (resp : TweetResponse) :
  TweetServices.get_tweets user limit offset w = (Ok resp, w') ->
  map details_id (tweets_list resp)
  = map Tweets.id (page_of limit (TweetServices.page_offset limit offset)
                           (feed_rows (db w) user)).
Proof.
  intros H. apply get_tweets_ok in H.
  induction H as [|t dct rows l Hs _ IH]; [reflexivity|].
  cbn [map]. rewrite IH. destruct Hs as [-> _]. reflexivity.
Qed.

(* ------------------------------------------------------------------ *)
(** ** Arrangements of the feed *)

Lemma insert_all_In (d : DB) (r : list Tweets.t) (z : Tweets.t) :
  In z (fold_right (TweetRepository.insert_sorted d feed_keys) [] r) <-> In z r.
Proof.
  induction r as [|x r IH]; cbn [fold_right].
  - reflexivity.
  - rewrite insert_sorted_In, IH. cbn. intuition.
Qed.

Lemma insert_sorted_NoDup (d : DB) (x : Tweets.t) (l : list Tweets.t) :
  ~ In x l -> NoDup l -> NoDup (TweetRepository.insert_sorted d feed_keys x l).
Proof.
  intros Hx Hl. induction Hl as [|y l Hy Hl IH];
    cbn [TweetRepository.insert_sorted].
  - constructor; [exact Hx|constructor].
  - assert (Hkeep : NoDup (y :: TweetRepository.insert_sorted d feed_keys x l)).
    { constructor.
      - intros Hin. apply insert_sorted_In in Hin as [->|Hin].
        + apply Hx. left. reflexivity.
        + contradiction.
      - apply IH. intros Hin. apply Hx. right. exact Hin. }
    destruct (TweetRepository.order_cmp d feed_keys x y).
    + exact Hkeep.
    + constructor; [exact Hx|]. constructor; assumption.
    + exact Hkeep.
Qed.

Lemma sort_rows_NoDup (d : DB) (l : list Tweets.t) :
  NoDup l -> NoDup (TweetRepository.sort_rows d feed_keys l).
Proof.
  intros H. unfold TweetRepository.sort_rows. apply NoDup_rev in H.
  induction H as [|x r Hx _ IH]; cbn [fold_right]; [constructor|].
  apply insert_sorted_NoDup; [|exact IH].
  rewrite insert_all_In. exact Hx.
Qed.

(** The ordered rows of the feed statement are an arrangement of the feed. *)
Lemma feed_rows_arrangement (d : DB) (user : Users.t) :
  tweets_pk d -> feed_arrangement d user (feed_rows d user).
Proof.
  intros Hpk. split; [|split].
  - rewrite (feed_rows_pk _ _ Hpk). apply sort_rows_NoDup.
    apply NoDup_filter. eapply NoDup_of_map. exact Hpk.
  - intros t. rewrite (feed_rows_pk _ _ Hpk), sort_rows_In, filter_In.
    reflexivity.
  - intros a b Hp. exact (precedes_sorted _ _ _ _ (feed_rows_sorted d user) Hp).
Qed.

(** In an arrangement, a tweet that sorts strictly before another one
    stands before it. *)
Lemma arrangement_strict (d : DB) (user : Users.t) (rows : list Tweets.t)
  (a b : Tweets.t) :
  (forall x y, precedes x y rows -> feed_ge d x y) ->
  In a rows -> In b rows -> feed_gt d a b -> precedes a b rows.
Proof.
  intros Hge Ha Hb Hgt.
  destruct (precedes_or rows a b Ha Hb) as [Hp|Hp].
  - intros ->. apply (feed_gt_not_ge d b b Hgt). apply feed_gt_ge. exact Hgt.
  - exact Hp.
  - exfalso. apply (feed_gt_not_ge d a b Hgt). apply Hge. exact Hp.
Qed.

(** A served entry that stands for a stored tweet is the dictionary of that
    tweet, and the tweet is a row of the page. *)
Lemma entry_row (d : DB) (rows : list Tweets.t) (t a : Tweets.t)
  (x : TweetDetails) (w w' : World) :
  tweets_pk d -> In t (tweets d) ->
  TweetServices.tweet_dict (TweetRepository.load d t) w = (Ok x, w') ->
  entry_of d x a -> t = a.
Proof.
  intros Hpk Ht E (Ha & Hid & _).
  apply tweet_dict_shows in E as (Hid' & _).
  apply (NoDup_map_eq Tweets.id (tweets d)); [exact Hpk|exact Ht|exact Ha|].
  congruence.
Qed.

Lemma precedes_In {A} (a b : A) (l : list A) :
  precedes a b l -> In a l /\ In b l.
Proof.
  intros (l1 & l2 & l3 & ->). split.
  - apply in_or_app. right. left. reflexivity.
  - apply in_or_app. right. right. apply in_or_app. right. left. reflexivity.
Qed.

Ltac solve_pk :=
  vm_compute;
  repeat (apply NoDup_cons; [cbn; intuition discriminate|]);
  apply NoDup_nil.

(* ------------------------------------------------------------------ *)
(** ** Feed ordering *)

(** C5 (as amended). Every entry of a successful [get_tweets] response
    stands for a stored tweet: it carries the tweet's id, and its [likes]
    list has as many elements as the tweet has [likes] rows when the query
    runs (the like count is that live aggregate, not a stored value).  Of two
    entries of the response, the one whose tweet has more likes, or as many
    and a later creation time, comes first; and when an entry comes before
    another one, its tweet has more likes, or as many and a creation time at
    least as late.  Tweets that tie on both keys are shown in an order the
    keys do not determine. *)
Theorem feed_sorted_by_likes_then_recency
  (user : Users.t) (limit offset : option Z) (w w' : World)
  (resp : TweetResponse) :
  tweets_pk (db w) ->
  TweetServices.get_tweets user limit offset w = (Ok resp, w') ->
  (forall x, In x (tweets_list resp) -> exists a, entry_of (db w) x a)
  /\ (forall x y a b,
         entry_of (db w) x a -> entry_of (db w) y b ->
         In x (tweets_list resp) -> In y (tweets_list resp) ->
         feed_gt (db w) a b -> precedes x y (tweets_list resp))
  /\ (forall x y a b,
         entry_of (db w) x a -> entry_of (db w) y b ->
         precedes x y (tweets_list resp) -> feed_ge (db w) a b).
Proof.
  intros Hpk H. apply get_tweets_rows in H as [_ H].
  set (rows := page_of limit (TweetServices.page_offset limit offset)
                       (feed_rows (db w) user)) in *.
  assert (Hstored : forall t, In t rows -> In t (tweets (db w))).
  { intros t Ht. apply page_of_In in Ht. apply feed_rows_In in Ht as [Ht _].
    exact Ht. }
  assert (Hge : forall a b, precedes a b rows -> feed_ge (db w) a b).
  { intros a b Hp. apply precedes_page in Hp.
    exact (precedes_sorted _ _ _ _ (feed_rows_sorted (db w) user) Hp). }
  assert (Hrow : forall x a,
             In x (tweets_list resp) -> entry_of (db w) x a ->
             In a rows
             /\ forall w0,
                 TweetServices.tweet_dict (TweetRepository.load (db w) a) w0
                 = (Ok x, w0)).
  { intros x a Hx Hxa.
    destruct (Forall2_In_r _ _ _ _ H Hx) as (t & Ht & E).
    assert (t = a)
      by exact (entry_row (db w) rows t a x w w Hpk (Hstored t Ht) (E w) Hxa).
    subst t. split; assumption. }
  split; [|split].
  - intros x Hx. destruct (Forall2_In_r _ _ _ _ H Hx) as (t & Ht & E).
    exists t. split; [apply Hstored; exact Ht|].
    exact (tweet_dict_shows (db w) t x w w (E w)).
  - intros x y a b Hxa Hyb Hx Hy Hgt.
    destruct (Hrow x a Hx Hxa) as [Ha Ea].
    destruct (Hrow y b Hy Hyb) as [Hb Eb].
    pose proof (arrangement_strict (db w) user rows a b Hge Ha Hb Hgt) as Hp.
    destruct (Forall2_precedes_l _ _ _ _ _ H Hp) as (x' & y' & Hp' & Ea' & Eb').
    specialize (Ea w). specialize (Eb w).
    rewrite (Ea' w) in Ea. rewrite (Eb' w) in Eb.
    inversion Ea. inversion Eb. subst. exact Hp'.
  - intros x y a b Hxa Hyb Hp.
    destruct (Forall2_precedes_r _ _ _ _ _ H Hp) as (t & u & Hp' & Et & Eu).
    destruct (precedes_In _ _ _ Hp') as [Ht Hu].
    assert (t = a)
      by exact (entry_row (db w) rows t a x w w Hpk (Hstored t Ht) (Et w) Hxa).
    assert (u = b)
      by exact (entry_row (db w) rows u b y w w Hpk (Hstored u Hu) (Eu w) Hyb).
    subst. apply Hge. exact Hp'.
Qed.

Lemma feed_sorted_by_likes_then_recency_witness :
  exists resp w',
    TweetServices.get_tweets Ex.alice None None Ex.social_world = (Ok resp, w')
    /\ map details_id (tweets_list resp) = [1; 4; 2]
    /\ (forall x, In x (tweets_list resp) ->
                  exists a, entry_of (db Ex.social_world) x a)
    /\ (forall x y a b,
           entry_of (db Ex.social_world) x a ->
           entry_of (db Ex.social_world) y b ->
           In x (tweets_list resp) -> In y (tweets_list resp) ->
           feed_gt (db Ex.social_world) a b ->
           precedes x y (tweets_list resp))
    /\ (forall x y a b,
           entry_of (db Ex.social_world) x a ->
           entry_of (db Ex.social_world) y b ->
           precedes x y (tweets_list resp) ->
           feed_ge (db Ex.social_world) a b).
Proof.
  eexists. eexists. split; [vm_compute; reflexivity|].
  split; [reflexivity|].
  eapply (feed_sorted_by_likes_then_recency Ex.alice None None Ex.social_world).
  - solve_pk.
  - vm_compute. reflexivity.
Defined.

(** C5, the claim as stated fails: two tweets stored with the same creation
    time and the same number of likes are both shown, one before the other,
    though neither has more likes nor a later creation time. *)
Lemma feed_order_tie_counterexample :
  (exists w',
      TweetServices.get_tweets Ex.alice None None Ex.twin_world
      = (Ok (mkTweetResponse
               true
               [mkTweetDetails 1 (Some "first"%string) []
                               (mkAuthorBasic 1 (Some "alice"%string)) [];
                mkTweetDetails 2 (Some "second"%string) []
                               (mkAuthorBasic 1 (Some "alice"%string)) []]),
         w'))
  /\ feed_rows Ex.twin_db Ex.alice = [Ex.twin_a; Ex.twin_b]
  /\ precedes Ex.twin_a Ex.twin_b (feed_rows Ex.twin_db Ex.alice)
  /\ ~ feed_gt Ex.twin_db Ex.twin_a Ex.twin_b
  /\ ~ strict_feed_order Ex.twin_db (feed_rows Ex.twin_db Ex.alice).
Proof.
  assert (Hrows : feed_rows Ex.twin_db Ex.alice = [Ex.twin_a; Ex.twin_b])
    by (vm_compute; reflexivity).
  assert (Hp : precedes Ex.twin_a Ex.twin_b (feed_rows Ex.twin_db Ex.alice)).
  { rewrite Hrows. exists [], [], []. reflexivity. }
  assert (Hn : ~ feed_gt Ex.twin_db Ex.twin_a Ex.twin_b).
  { unfold feed_gt. vm_compute. intros [H|[_ H]]; discriminate H. }
  split; [eexists; vm_compute; reflexivity|].
  split; [exact Hrows|]. split; [exact Hp|]. split; [exact Hn|].
  intros Hclaim. apply Hn. apply (Hclaim Ex.twin_a Ex.twin_b).
  - rewrite Hrows. left. reflexivity.
  - rewrite Hrows. right. left. reflexivity.
  - exact Hp.
Qed.

(* ------------------------------------------------------------------ *)
(** ** Who is in the feed *)

(** C6. The [following_list] that [get_tweets] computes from the follow edges
    leaving [user], the author set of the feed statement, is [user] alone when
    no follow edge leaves [user], and the followees plus [user] otherwise.
    A feed row is a stored tweet whose author is in that set, and (tweet keys
    being unique) every such tweet is a feed row.  Hence a successful
    [get_tweets] shows only tweets authored by [user] or by a user [user]
    follows: a user W who is neither contributes nothing.  And the response
    of a successful call without limit and offset has an entry for every
    stored tweet of [user] and of every user [user] follows; with the foreign
    keys in place that call does return. *)
Theorem feed_visible_authors (user : Users.t) (w : World) :
  (forall w0,
      TweetServices.following_list
        user
        (scalars_all
           (filter (FollowerRepository.matches [follower_id_eq (Users.id user)])
                   (followers (db w))))
        w0
      = (Ok (visible_authors (db w) user), w0))
  /\ ((forall a, ~ follows (db w) (Users.id user) a) ->
   visible_authors (db w) user = [Users.id user])
  /\ (forall a,
         In a (visible_authors (db w) user)
         <-> a = Users.id user \/ follows (db w) (Users.id user) a)
  /\ (forall t,
         In t (feed_rows (db w) user) ->
         In t (tweets (db w))
         /\ exists a, Tweets.user_id t = Some a
                      /\ (a = Users.id user \/ follows (db w) (Users.id user) a))
  /\ (tweets_pk (db w) ->
      forall t a,
        In t (tweets (db w)) -> Tweets.user_id t = Some a ->
        a = Users.id user \/ follows (db w) (Users.id user) a ->
        In t (feed_rows (db w) user))
  /\ (forall limit offset resp w' W,
         TweetServices.get_tweets user limit offset w = (Ok resp, w') ->
         W <> Users.id user -> ~ follows (db w) (Users.id user) W ->
         forall dct, In dct (tweets_list resp) -> author_id (author dct) <> W)
  /\ (forall limit offset resp w' dct,
         TweetServices.get_tweets user limit offset w = (Ok resp, w') ->
         In dct (tweets_list resp) ->
         exists t a,
           entry_of (db w) dct t
           /\ Tweets.user_id t = Some a
           /\ author_id (author dct) = a
           /\ (a = Users.id user \/ follows (db w) (Users.id user) a))
  /\ (tweets_pk (db w) ->
      forall resp w' t a,
        TweetServices.get_tweets user None None w = (Ok resp, w') ->
        In t (tweets (db w)) -> Tweets.user_id t = Some a ->
        a = Users.id user \/ follows (db w) (Users.id user) a ->
        exists dct,
          In dct (tweets_list resp)
          /\ entry_of (db w) dct t
          /\ author_id (author dct) = a)
  /\ (referential_integrity (db w) ->
      exists resp w',
        TweetServices.get_tweets user None None w = (Ok resp, w')).
Proof.
  assert (Hentry : forall limit offset resp w' dct,
             TweetServices.get_tweets user limit offset w = (Ok resp, w') ->
             In dct (tweets_list resp) ->
             exists t a,
               entry_of (db w) dct t
               /\ Tweets.user_id t = Some a
               /\ author_id (author dct) = a
               /\ (a = Users.id user \/ follows (db w) (Users.id user) a)).
  { intros limit offset resp w' dct H Hdct.
    apply get_tweets_ok in H.
    destruct (Forall2_In_r _ _ _ _ H Hdct) as (t & Ht & Hs).
    apply page_of_In in Ht. apply feed_rows_In in Ht as [Hin Hv].
    apply visible_iff in Hv as (a & Ea & Ha).
    exists t, a. split; [split; assumption|]. split; [exact Ea|].
    split; [|exact Ha].
    destruct Hs as (_ & _ & _ & Hauth). congruence. }
  split; [|split; [|split; [|split; [|split; [|split; [|split; [|split]]]]]]].
  - intros w0. unfold TweetServices.following_list, visible_authors, scalars_all.
    destruct (filter _ (followers (db w))); reflexivity.
  - intros Hnone. unfold visible_authors.
    destruct (filter _ (followers (db w))) as [|f subs] eqn:E; [reflexivity|].
    exfalso. assert (Hin : In f (f :: subs)) by (left; reflexivity).
    rewrite <- E in Hin. apply filter_In in Hin as [Hin Hm].
    unfold FollowerRepository.matches in Hm. cbn in Hm.
    rewrite andb_true_r in Hm. apply Z.eqb_eq in Hm.
    apply (Hnone (Follower.followee_id f)). exists f. repeat split; assumption.
  - apply visible_authors_In.
  - intros t Ht. apply feed_rows_In in Ht as [Hin Hv].
    split; [exact Hin|]. apply visible_iff. exact Hv.
  - intros Hpk t a Hin Ha Hv. rewrite (feed_rows_pk _ _ Hpk).
    apply sort_rows_In. apply filter_In. split; [exact Hin|].
    apply visible_iff. exists a. split; assumption.
  - intros limit offset resp w' W H HW Hnf dct Hdct Heq.
    destruct (Hentry limit offset resp w' dct H Hdct) as (t & a & _ & _ & Ea & Ha).
    rewrite Heq in Ea. subst a. destruct Ha as [Ha|Ha]; contradiction.
  - exact Hentry.
  - intros Hpk resp w' t a H Hin Ea Ha.
    apply get_tweets_ok in H. cbn [TweetServices.page_offset page_of] in H.
    assert (Ht : In t (feed_rows (db w) user)).
    { apply (feed_rows_iff (db w) user t Hpk). split; [exact Hin|].
      exists a. split; assumption. }
    destruct (Forall2_In_l _ _ _ _ H Ht) as (dct & Hdct & Hs).
    exists dct. split; [exact Hdct|]. split; [split; assumption|].
    destruct Hs as (_ & _ & _ & Hauth). congruence.
  - intros Hri.
    exact (get_tweets_returns user None None w Hri I I).
Qed.

Lemma feed_visible_authors_witness :
  exists resp w',
    TweetServices.get_tweets Ex.alice None None Ex.social_world = (Ok resp, w')
    /\ map details_id (tweets_list resp) = [1; 4; 2]
    /\ (forall dct, In dct (tweets_list resp) ->
                    author_id (author dct) <> Users.id Ex.carol)
    /\ (exists dct, In dct (tweets_list resp)
                    /\ entry_of (db Ex.social_world) dct Ex.bob_two
                    /\ author_id (author dct) = Users.id Ex.bob).
Proof.
  eexists. eexists. split; [vm_compute; reflexivity|].
  split; [vm_compute; reflexivity|].
  pose proof (feed_visible_authors Ex.alice Ex.social_world)
    as (_ & _ & _ & _ & _ & Hout & _ & Hin & _).
  split.
  - apply (Hout None None _ _ (Users.id Ex.carol) eq_refl).
    + discriminate.
    + intros (f & [<-|[]] & _ & E). discriminate E.
  - apply (Hin ltac:(solve_pk) _ _ Ex.bob_two (Users.id Ex.bob) eq_refl).
    + right. right. right. left. reflexivity.
    + reflexivity.
    + right. exists Ex.alice_follows_bob.
      split; [left; reflexivity|]. split; reflexivity.
Defined.

(* ------------------------------------------------------------------ *)
(** ** Feed pagination *)

(** C4. When both a limit and an offset are supplied, the offset is a
    1-based page number: the one feed statement [get_tweets] issues carries
    [OFFSET (offset - 1) * limit], and a successful call shows the tweets of
    the ordered feed (the stored tweets of the visible authors, arranged by
    like count and creation time, ties in the order the database leaves
    them) from that raw position on, [limit] of them at most.  In particular
    page 2 with limit 5 shows the rows at raw positions 5 to 9.  A call is
    successful only if the limit and the product are in the range the
    database accepts, from 0 to [max_int64]; with the foreign keys in place
    every such call is. *)
Theorem feed_page_offset (user : Users.t) (w : World) :
  (forall limit page,
      trace (snd (TweetServices.get_tweets user (Some limit) (Some page) w))
      = trace w
        ++ [follow_repo_filter [follower_id_eq (Users.id user)];
            tweet_repo_filter [] (Some limit) (Some ((page - 1) * limit))])
  /\ (tweets_pk (db w) ->
      forall limit page resp w',
        TweetServices.get_tweets user (Some limit) (Some page) w
        = (Ok resp, w') ->
        exists rows,
          feed_arrangement (db w) user rows
          /\ Forall2 (shows (db w))
                     (firstn (Z.to_nat limit)
                             (skipn (Z.to_nat ((page - 1) * limit)) rows))
                     (tweets_list resp))
  /\ (tweets_pk (db w) ->
      forall resp w',
        TweetServices.get_tweets user (Some 5) (Some 2) w = (Ok resp, w') ->
        exists rows,
          feed_arrangement (db w) user rows
          /\ Forall2 (shows (db w)) (firstn 5 (skipn 5 rows))
                     (tweets_list resp))
  /\ (forall limit page resp w',
         TweetServices.get_tweets user (Some limit) (Some page) w
         = (Ok resp, w') ->
         0 <= limit <= max_int64 /\ 0 <= (page - 1) * limit <= max_int64)
  /\ (referential_integrity (db w) ->
      forall limit page,
        0 <= limit <= max_int64 -> 0 <= (page - 1) * limit <= max_int64 ->
        exists resp w',
          TweetServices.get_tweets user (Some limit) (Some page) w
          = (Ok resp, w')).
Proof.
  split; [|split; [|split; [|split]]].
  - intros limit page. rewrite get_tweets_trace. reflexivity.
  - intros Hpk limit page resp w' H. apply get_tweets_ok in H.
    exists (feed_rows (db w) user).
    split; [apply feed_rows_arrangement; exact Hpk|exact H].
  - intros Hpk resp w' H. apply get_tweets_ok in H.
    exists (feed_rows (db w) user).
    split; [apply feed_rows_arrangement; exact Hpk|exact H].
  - intros limit page resp w' H. apply get_tweets_rows in H as [H _].
    unfold out_of_range in H. cbn [TweetServices.page_offset] in H.
    apply orb_false_iff in H as [Ho Hl].
    apply orb_false_iff in Ho as [Ho1 Ho2].
    apply orb_false_iff in Hl as [Hl1 Hl2].
    apply Z.ltb_ge in Ho1, Ho2, Hl1, Hl2. lia.
  - intros Hri limit page Hl Ho.
    apply (get_tweets_returns user (Some limit) (Some page) w Hri Hl Ho).
Qed.

Lemma feed_page_offset_witness :
  exists resp w',
    TweetServices.get_tweets Ex.alice (Some 5) (Some 2) Ex.busy_world
    = (Ok resp, w')
    /\ map details_id (tweets_list resp) = [7; 6; 5; 4; 3]
    /\ exists rows,
        feed_arrangement (db Ex.busy_world) Ex.alice rows
        /\ Forall2 (shows (db Ex.busy_world)) (firstn 5 (skipn 5 rows))
                   (tweets_list resp).
Proof.
  eexists. eexists. split; [vm_compute; reflexivity|].
  split; [vm_compute; reflexivity|].
  apply (proj1 (proj2 (proj2 (feed_page_offset Ex.alice Ex.busy_world)))
               ltac:(solve_pk) _ _ eq_refl).
Defined.

(* ------------------------------------------------------------------ *)
(** ** Deleting a tweet: the clean-up loop *)

Lemma filter_filter_and {A} (f g : A -> bool) (l : list A) :
  filter f (filter g l) = filter (fun x => g x && f x) l.
Proof.
  induction l as [|a l IH]; cbn; [reflexivity|].
  destruct (g a); cbn; [destruct (f a)|]; rewrite IH; reflexivity.
Qed.

Lemma filter_negb_none {A} (p : A -> bool) (l : list A) :
  existsb p l = false -> filter (fun x => negb (p x)) l = l.
Proof.
  induction l as [|a l IH]; cbn; [reflexivity|].
  intros H. apply orb_false_iff in H as [Ha Hl].
  rewrite Ha. cbn. f_equal. apply IH. exact Hl.
Qed.

Lemma tm_lookup_is_None (tbl : list TweetMedia.t) (mid : Z) :
  is_None (as_any (scalars_first
                     (filter (TweetMediaRepository.matches [tm_media_id_eq mid])
                             tbl)))
  = negb (existsb (fun tm => TweetMedia.media_id tm =? mid) tbl).
Proof.
  induction tbl as [|tm tbl IH]; cbn; [reflexivity|].
  unfold TweetMediaRepository.matches at 1. cbn. rewrite andb_true_r.
  destruct (TweetMedia.media_id tm =? mid); cbn; [reflexivity|exact IH].
Qed.

(** One turn of the loop. *)
Lemma reclaim_step (settings : Settings) (o : TweetMedia.obj) (w : World) :
  TweetServices.reclaim settings o w
  = match TweetMedia.media o with
    | None => (Raise AttributeError, w)
    | Some m =>
        if referenced (db w) (Media.id m)
        then (Ok tt, traced w [tm_repo_filter [tm_media_id_eq (Media.id m)]])
        else
          match upload_path settings m with
          | None =>
              (Raise TypeError,
               traced w [tm_repo_filter [tm_media_id_eq (Media.id m)]])
          | Some path =>
              if existsb (String.eqb path) (files w)
              then (Ok tt,
                    mkWorld
                      (without_media (db w) (Media.id m))
                      (filter (fun p => negb (String.eqb path p)) (files w))
                      (now w)
                      (trace w ++ [tm_repo_filter [tm_media_id_eq (Media.id m)];
                                   os_remove_call path;
                                   media_repo_delete (Media.id m)])
                      (open_error w))
              else (Raise (FileNotFoundError (errno2 path)),
                    traced w [tm_repo_filter [tm_media_id_eq (Media.id m)];
                              os_remove_call path])
          end
    end.
Proof.
  unfold TweetServices.reclaim.
  destruct (TweetMedia.media o) as [m|]; [|reflexivity].
  unfold attr, TweetMediaRepository.filter. unfold_m.
  rewrite tm_lookup_is_None. fold (referenced (db w) (Media.id m)).
  destruct (referenced (db w) (Media.id m)); cbn [negb]; [reflexivity|].
  unfold upload_path, os_path_basename.
  destruct (Media.file_path m) as [fp|]; [|reflexivity].
  unfold os_remove, MediaRepository.delete, without_media. unfold_m.
  destruct (existsb _ (files w)); simpl_world;
    rewrite <- ?app_assoc; reflexivity.
Qed.

Lemma filter_all {A} (l : list A) : filter (fun _ => true) l = l.
Proof. induction l as [|a l IH]; cbn; [|rewrite IH]; reflexivity. Qed.

Lemma DB_eta (d : DB) :
  mkDB (users d) (tweets d) (media d) (tweet_media d) (likes d) (followers d) = d.
Proof. destruct d. reflexivity. Qed.

(** A loop that runs to its end reclaims exactly the media rows of its
    associations to which no association remains, with their files; the
    associations and the other tables are as the loop found them. *)
Lemma reclaim_loop_ok (settings : Settings) (objs : list TweetMedia.obj) :
  forall w w' r,
    for_each objs (TweetServices.reclaim settings) w = (Ok r, w') ->
    db w' = mkDB (users (db w)) (tweets (db w))
                 (filter (fun x => negb (reclaimed (tweet_media (db w)) objs x))
                         (media (db w)))
                 (tweet_media (db w)) (likes (db w)) (followers (db w))
    /\ files w'
       = filter (fun p => negb (unlinked settings (tweet_media (db w)) objs p))
                (files w).
Proof.
  induction objs as [|o objs IH]; intros w w' r H.
  - cbn in H. unfold ret in H. inversion H. subst. cbn.
    rewrite !filter_all, DB_eta. split; reflexivity.
  - cbn [for_each] in H. unfold bind in H. rewrite reclaim_step in H.
    unfold reclaimed, unlinked. cbn [existsb].
    fold (reclaimed (tweet_media (db w)) objs).
    fold (unlinked settings (tweet_media (db w)) objs).
    destruct (TweetMedia.media o) as [m|]; [|discriminate].
    fold (referenced (db w) (Media.id m)).
    destruct (referenced (db w) (Media.id m)) eqn:Eref.
    + apply IH in H. unfold traced in H. simpl_world.
      cbn [negb andb orb]. exact H.
    + destruct (upload_path settings m) as [path|]; [|discriminate].
      destruct (existsb (String.eqb path) (files w)); [|discriminate].
      apply IH in H. simpl_world. unfold without_media in H at 1 2.
      simpl_world. destruct H as [Hdb Hfiles].
      assert (Etm : tweet_media (without_media (db w) (Media.id m))
                    = tweet_media (db w)).
      { unfold without_media. cbn [tweet_media].
        apply filter_negb_none. exact Eref. }
      rewrite Etm in Hdb, Hfiles.
      unfold without_media in Hdb. cbn [media users tweets likes followers] in Hdb.
      rewrite Hdb, Hfiles. cbn [negb andb orb].
      rewrite !filter_filter_and. split.
      * f_equal. apply filter_ext. intros x. rewrite negb_orb. reflexivity.
      * apply filter_ext. intros p. rewrite negb_orb. reflexivity.
Qed.

(** A loop that stops on an exception stops on a dangling relationship, a
    null file path, or [os.remove] not finding the file. *)
Lemma reclaim_loop_raise (settings : Settings) (objs : list TweetMedia.obj) :
  forall w w' e,
    for_each objs (TweetServices.reclaim settings) w = (Raise e, w') ->
    e = AttributeError \/ e = TypeError \/ os_remove_failure e w'.
Proof.
  induction objs as [|o objs IH]; intros w w' e H.
  - cbn in H. unfold ret in H. discriminate.
  - cbn [for_each] in H. unfold bind in H. rewrite reclaim_step in H.
    destruct (TweetMedia.media o) as [m|].
    2:{ inversion H. left. reflexivity. }
    destruct (referenced (db w) (Media.id m)); [eapply IH; exact H|].
    destruct (upload_path settings m) as [path|].
    2:{ inversion H. right. left. reflexivity. }
    destruct (existsb (String.eqb path) (files w)) eqn:Ef; [eapply IH; exact H|].
    inversion H. subst. right. right. exists path. cbn.
    split; [reflexivity|]. split; [exact Ef|].
    exists (trace w ++ [tm_repo_filter [tm_media_id_eq (Media.id m)]]).
    rewrite <- app_assoc. reflexivity.
Qed.

(** [del_tweet], step by step: the lookup, which the driver refuses when it
    selects nothing and a parameter is beyond 32 bits, the 404 when it
    selects nothing otherwise, the cascading delete of the first row
    selected, the clean-up loop over the associations loaded with that row. *)
Lemma del_tweet_run (settings : Settings) (user : Users.t) (id : Z) (w : World) :
  TweetServices.del_tweet settings user id w
  = match TweetRepository.ordered_rows (db w) (del_query user id) with
    | [] =>
        (if forallb in_int32 [id; Users.id user]
         then Raise (HTTPException
                       404 "Tweet not found or not owned by the user")
         else Raise DBAPIError,
         traced w [tweet_repo_filter
                     [tweet_pk_eq id; tweet_user_id_eq (Users.id user)]
                     None None])
    | t :: _ =>
        (for_each (TweetObj.media (TweetRepository.load (db w) t))
                  (TweetServices.reclaim settings) ;;;
         ret (mkGeneralAnswer true))
          (mkWorld (without_tweet (db w) (Tweets.id t)) (files w) (now w)
                   (trace w
                    ++ [tweet_repo_filter
                          [tweet_pk_eq id; tweet_user_id_eq (Users.id user)]
                          None None;
                        tweet_repo_delete (Tweets.id t)])
                   (open_error w))
    end.
Proof.
  unfold TweetServices.del_tweet, TweetRepository.filter, scalars_all.
  fold (del_query user id).
  unfold TweetRepository.apply_offset, TweetRepository.apply_limit.
  cbn [del_query TweetRepository.offset TweetRepository.limit
       TweetRepository.kw TweetRepository.kw_values].
  fold (del_query user id).
  unfold bind at 1. unfold bind at 1. unfold record at 1.
  unfold bind at 1. unfold get_db at 1. simpl_world.
  destruct (TweetRepository.ordered_rows (db w) (del_query user id))
    as [|t rows].
  - unfold int32_params. unfold_m. cbn [TweetRepository.kw_values map].
    destruct (forallb in_int32 [id; Users.id user]); reflexivity.
  - rewrite int32_params_found. unfold_m.
    cbn [map truthy negb py_first].
    cbn [TweetRepository.load TweetObj.row TweetObj.media].
    unfold TweetRepository.delete. unfold_m.
    simpl_world. fold (without_tweet (db w) (Tweets.id t)).
    rewrite <- app_assoc. reflexivity.
Qed.

Lemma del_query_In (d : DB) (user : Users.t) (id : Z) (t : Tweets.t) :
  In t (TweetRepository.ordered_rows d (del_query user id)) ->
  In t (tweets d) /\ Tweets.id t = id
  /\ Tweets.user_id t = Some (Users.id user).
Proof.
  unfold TweetRepository.ordered_rows, del_query.
  cbn [TweetRepository.order_by TweetRepository.kw
       TweetRepository.custom_filters].
  intros H. apply group_by_id_In in H as [l Hl].
  apply filter_In in Hl as [Hl Hp]. cbn in Hp.
  rewrite !andb_true_r in Hp. apply andb_true_iff in Hp as [Hid Hu].
  split; [eapply outerjoin_In; exact Hl|].
  apply Z.eqb_eq in Hid. split; [exact Hid|].
  destruct (Tweets.user_id t) as [u|]; [|discriminate].
  apply Z.eqb_eq in Hu. rewrite Hu. reflexivity.
Qed.

(* ------------------------------------------------------------------ *)
(** ** The "file not found" guard of [del_tweet] *)

Lemma errno2_not_guard (path : string) :
  FileNotFoundError (errno2 path) <> FileNotFoundError "File not found".
Proof. unfold errno2. cbn. discriminate. Qed.

(** C10. In the clean-up loop [file_path] is the string [os.path.join]
    returns, so the branch raising [FileNotFoundError("File not found")] is
    never taken: no call of [del_tweet] ends with that exception.  Whenever
    [del_tweet] ends with a [FileNotFoundError] at all, it is the one
    [os.remove] raised on a path missing from the file system, that
    [os.remove] being the last call issued. *)
Theorem del_tweet_file_guard_unreachable
  (settings : Settings) (user : Users.t) (id : Z) (w : World) :
  fst (TweetServices.del_tweet settings user id w)
  <> Raise (FileNotFoundError "File not found")
  /\ (forall msg,
         fst (TweetServices.del_tweet settings user id w)
         = Raise (FileNotFoundError msg) ->
         os_remove_failure (FileNotFoundError msg)
                           (snd (TweetServices.del_tweet settings user id w))).
Proof.
  rewrite del_tweet_run.
  destruct (TweetRepository.ordered_rows (db w) (del_query user id)) as [|t rows].
  - cbn [fst snd]. destruct (forallb in_int32 _);
      (split; [discriminate|]; intros msg H; discriminate).
  - unfold bind.
    destruct (for_each _ _ _) as [[r|e] w1] eqn:E.
    + cbn. split; [discriminate|]. intros msg H. discriminate.
    + apply reclaim_loop_raise in E. cbn [fst snd].
      destruct E as [->|[->|Hos]].
      * split; [discriminate|]. intros msg H. discriminate.
      * split; [discriminate|]. intros msg H. discriminate.
      * split.
        -- destruct Hos as (path & -> & _). intros H.
           apply (errno2_not_guard path). congruence.
        -- intros msg H. inversion H. subst e. exact Hos.
Qed.

Lemma del_tweet_file_guard_unreachable_witness :
  fst (TweetServices.del_tweet Ex.settings Ex.alice 3 Ex.album_world)
  = Raise (FileNotFoundError (errno2 "uploads/b.jpg"))
  /\ os_remove_failure
       (FileNotFoundError (errno2 "uploads/b.jpg"))
       (snd (TweetServices.del_tweet Ex.settings Ex.alice 3 Ex.album_world)).
Proof.
  split; [vm_compute; reflexivity|].
  apply (proj2 (del_tweet_file_guard_unreachable
                  Ex.settings Ex.alice 3 Ex.album_world)).
  vm_compute. reflexivity.
Defined.

(* ------------------------------------------------------------------ *)
(** ** Deleting a tweet: reference-counted media *)

Lemma reclaim_loop_paths (settings : Settings) (objs : list TweetMedia.obj) :
  forall w w' r,
    for_each objs (TweetServices.reclaim settings) w = (Ok r, w') ->
    forall o m,
      In o objs -> TweetMedia.media o = Some m ->
      referenced (db w) (Media.id m) = false ->
      exists path, upload_path settings m = Some path.
Proof.
  induction objs as [|o0 objs IH]; intros w w' r H o m Hin Hm Href;
    [contradiction|].
  cbn [for_each] in H. unfold bind in H. rewrite reclaim_step in H.
  destruct (TweetMedia.media o0) as [m0|] eqn:Em0; [|discriminate].
  destruct (referenced (db w) (Media.id m0)) eqn:Eref0.
  - destruct Hin as [<-|Hin].
    + rewrite Em0 in Hm. inversion Hm. subst m0. congruence.
    + eapply IH; [exact H|exact Hin|exact Hm|exact Href].
  - destruct (upload_path settings m0) as [path|] eqn:Ep; [|discriminate].
    destruct (existsb (String.eqb path) (files w)); [|discriminate].
    destruct Hin as [<-|Hin].
    + rewrite Em0 in Hm. inversion Hm. subst m0. exists path. exact Ep.
    + eapply IH; [exact H|exact Hin|exact Hm|].
      unfold referenced, without_media. simpl_world.
      rewrite filter_negb_none; [exact Href|exact Eref0].
Qed.

(** What a successful [del_tweet] leaves. *)
Lemma del_tweet_ok (settings : Settings) (user : Users.t) (id : Z)
  (w w' : World) (r : GeneralAnswer) :
  TweetServices.del_tweet settings user id w = (Ok r, w') ->
  exists t,
    In t (tweets (db w)) /\ Tweets.id t = id
    /\ Tweets.user_id t = Some (Users.id user)
    /\ db w'
       = mkDB (users (db w))
              (tweets (without_tweet (db w) id))
              (filter (fun x =>
                         negb (reclaimed
                                 (tweet_media (without_tweet (db w) id))
                                 (TweetObj.media (TweetRepository.load (db w) t))
                                 x))
                      (media (db w)))
              (tweet_media (without_tweet (db w) id))
              (likes (without_tweet (db w) id))
              (followers (db w))
    /\ files w'
       = filter (fun p =>
                   negb (unlinked
                           settings
                           (tweet_media (without_tweet (db w) id))
                           (TweetObj.media (TweetRepository.load (db w) t))
                           p))
                (files w)
    /\ forall o m,
        In o (TweetObj.media (TweetRepository.load (db w) t)) ->
        TweetMedia.media o = Some m ->
        referenced (without_tweet (db w) id) (Media.id m) = false ->
        exists path, upload_path settings m = Some path.
Proof.
  rewrite del_tweet_run.
  destruct (TweetRepository.ordered_rows (db w) (del_query user id))
    as [|t rows] eqn:Erows;
    [destruct (forallb in_int32 _); discriminate|].
  assert (Ht : In t (TweetRepository.ordered_rows (db w) (del_query user id)))
    by (rewrite Erows; left; reflexivity).
  apply del_query_In in Ht as (Hin & Hid & Hu).
  unfold bind.
  destruct (for_each _ _ _) as [[r0|e] w1] eqn:E; [|discriminate].
  unfold ret. intros H. inversion H. subst w1 r. clear H.
  exists t. rewrite Hid in E.
  split; [exact Hin|]. split; [exact Hid|]. split; [exact Hu|].
  destruct (reclaim_loop_ok _ _ _ _ _ E) as [Hdb Hfiles].
  simpl_world. split; [exact Hdb|]. split; [exact Hfiles|].
  intros o m Ho Hm Href.
  exact (reclaim_loop_paths _ _ _ _ _ E o m Ho Hm Href).
Qed.

Lemma find_by_key {A : Type} (key : A -> Z) (l : list A) (x : A) :
  In x l -> exists y, find (fun a => key a =? key x) l = Some y /\ key y = key x.
Proof.
  intros Hin.
  destruct (find (fun a => key a =? key x) l) as [y|] eqn:E.
  - exists y. split; [reflexivity|].
    apply find_some in E as [_ E]. apply Z.eqb_eq. exact E.
  - exfalso. apply (find_none _ _ E) in Hin. rewrite Z.eqb_refl in Hin.
    discriminate.
Qed.

Lemma find_by_pk {A : Type} (key : A -> Z) (l : list A) (x : A) :
  NoDup (map key l) -> In x l -> find (fun a => key a =? key x) l = Some x.
Proof.
  induction l as [|a l IH]; intros Hnd Hin; [contradiction|].
  cbn in Hnd. apply NoDup_cons_iff in Hnd as [Hni Hnd]. cbn [find].
  destruct Hin as [->|Hin].
  - rewrite Z.eqb_refl. reflexivity.
  - destruct (Z.eqb_spec (key a) (key x)) as [E|_].
    + exfalso. apply Hni. rewrite E. apply in_map. exact Hin.
    + apply IH; assumption.
Qed.

(** The loop reclaims a stored media row exactly when the deleted tweet was
    attached to it and no association refers to it any more. *)
Lemma reclaimed_iff (d : DB) (t : Tweets.t) (x : Media.t) :
  In x (media d) ->
  (reclaimed (tweet_media (without_tweet d (Tweets.id t)))
             (TweetObj.media (TweetRepository.load d t)) x = true
   <-> attached d (Tweets.id t) (Media.id x) = true
       /\ referenced (without_tweet d (Tweets.id t)) (Media.id x) = false).
Proof.
  intros Hx. unfold reclaimed, attached, referenced.
  cbn [TweetRepository.load TweetObj.media].
  rewrite !existsb_exists. split.
  - intros (o & Ho & Hcond).
    apply in_map_iff in Ho as (tm & <- & Htm).
    apply filter_In in Htm as [Htm Ht]. apply Z.eqb_eq in Ht.
    cbn [TweetRepository.load_media TweetMedia.media] in Hcond.
    destruct (find _ (media d)) as [m|] eqn:Em; [|discriminate].
    apply andb_true_iff in Hcond as [Hnone Heq].
    apply Z.eqb_eq in Heq. apply negb_true_iff in Hnone.
    apply find_some in Em as [_ Em]. apply Z.eqb_eq in Em.
    split.
    + exists tm. split; [exact Htm|].
      rewrite Ht, Heq, Em, !Z.eqb_refl. reflexivity.
    + rewrite Heq. exact Hnone.
  - intros [(tm & Htm & Hcond) Hnone].
    apply andb_true_iff in Hcond as [Ht Hmid].
    apply Z.eqb_eq in Ht, Hmid.
    exists (TweetRepository.load_media d tm). split.
    + apply in_map. apply filter_In. split; [exact Htm|].
      rewrite Ht. apply Z.eqb_refl.
    + cbn [TweetRepository.load_media TweetMedia.media].
      destruct (find_by_key Media.id (media d) x Hx) as (y & Ey & Eid).
      rewrite Hmid, Ey, Eid, Hnone, Z.eqb_refl. reflexivity.
Qed.

(** A file the loop removes is the upload of a stored media row that the
    deleted tweet was attached to and that no association refers to any
    more. *)
Lemma unlinked_inv (settings : Settings) (d : DB) (t : Tweets.t) (p : string) :
  unlinked settings (tweet_media (without_tweet d (Tweets.id t)))
           (TweetObj.media (TweetRepository.load d t)) p = true ->
  exists m,
    In m (media d)
    /\ attached d (Tweets.id t) (Media.id m) = true
    /\ referenced (without_tweet d (Tweets.id t)) (Media.id m) = false
    /\ upload_path settings m = Some p.
Proof.
  unfold unlinked. cbn [TweetRepository.load TweetObj.media].
  rewrite existsb_exists. intros (o & Ho & Hcond).
  apply in_map_iff in Ho as (tm & <- & Htm).
  apply filter_In in Htm as [Htm Ht]. apply Z.eqb_eq in Ht.
  cbn [TweetRepository.load_media TweetMedia.media] in Hcond.
  destruct (find _ (media d)) as [m|] eqn:Em; [|discriminate].
  apply andb_true_iff in Hcond as [Hnone Hpath].
  apply negb_true_iff in Hnone.
  destruct (upload_path settings m) as [q|] eqn:Eq; [|discriminate].
  apply String.eqb_eq in Hpath. subst q.
  apply find_some in Em as [Hin Em]. apply Z.eqb_eq in Em.
  exists m. split; [exact Hin|]. split; [|split; [exact Hnone|exact Eq]].
  unfold attached. apply existsb_exists. exists tm. split; [exact Htm|].
  rewrite Ht, Em, !Z.eqb_refl. reflexivity.
Qed.

(** The law of a successful deletion: the associations of the tweet are
    gone; a stored media row is dropped exactly when the tweet was attached
    to it and no association refers to it afterwards; a file stays unless it
    is the upload of such a row. *)
Lemma del_tweet_law (settings : Settings) (user : Users.t) (id : Z)
  (w w' : World) (r : GeneralAnswer) :
  TweetServices.del_tweet settings user id w = (Ok r, w') ->
  tweet_media (db w')
  = filter (fun tm => negb (TweetMedia.tweet_id tm =? id)) (tweet_media (db w))
  /\ (forall x,
         In x (media (db w)) ->
         (In x (media (db w'))
          <-> ~ (attached (db w) id (Media.id x) = true
                 /\ referenced (db w') (Media.id x) = false)))
  /\ (forall x, In x (media (db w')) -> In x (media (db w)))
  /\ (forall p,
         In p (files w) ->
         (forall x,
             In x (media (db w)) ->
             attached (db w) id (Media.id x) = true ->
             referenced (db w') (Media.id x) = false ->
             upload_path settings x <> Some p) ->
         In p (files w')).
Proof.
  intros H. apply del_tweet_ok in H.
  destruct H as (t & Hin & Hid & Hu & Hdb & Hfiles & _). subst id.
  assert (Etm : tweet_media (db w')
                = tweet_media (without_tweet (db w) (Tweets.id t)))
    by (rewrite Hdb; reflexivity).
  assert (Eref : forall mid,
             referenced (db w') mid
             = referenced (without_tweet (db w) (Tweets.id t)) mid)
    by (intros mid; unfold referenced; rewrite Etm; reflexivity).
  split; [exact Etm|]. split; [|split].
  - intros x Hx. rewrite Eref, Hdb. cbn [media]. rewrite filter_In.
    rewrite <- (reclaimed_iff (db w) t x Hx).
    destruct (reclaimed _ _ x); cbn; intuition congruence.
  - intros x Hx. rewrite Hdb in Hx. cbn [media] in Hx.
    apply filter_In in Hx. tauto.
  - intros p Hp Hnone. rewrite Hfiles. apply filter_In. split; [exact Hp|].
    apply negb_true_iff. apply not_true_is_false. intros Hun.
    apply unlinked_inv in Hun as (m & Hm & Hatt & Href & Hpath).
    apply (Hnone m Hm Hatt); [|exact Hpath]. rewrite Eref. exact Href.
Qed.

(** C1 (as amended). After a successful [del_tweet] on tweet [t1], a stored
    media row is gone exactly when [t1] was attached to it and no
    association refers to it any more (rows [t1] was not attached to stay),
    and a stored file stays unless it is the upload of a row reclaimed by
    this deletion.  So when tweets [t1] and [t2] are the tweets attached to
    media [m], deleting [t1] keeps the row [m], and deleting [t2] afterwards
    drops the row [m] and removes its file. *)
Theorem del_tweet_reference_counted
  (settings : Settings) (u1 : Users.t) (t1 : Z) (w w1 : World)
  (r1 : GeneralAnswer) :
  TweetServices.del_tweet settings u1 t1 w = (Ok r1, w1) ->
  tweet_media (db w1)
  = filter (fun tm => negb (TweetMedia.tweet_id tm =? t1)) (tweet_media (db w))
  /\ (forall x,
         In x (media (db w)) ->
         (In x (media (db w1))
          <-> ~ (attached (db w) t1 (Media.id x) = true
                 /\ referenced (db w1) (Media.id x) = false)))
  /\ (forall p,
         In p (files w) ->
         (forall x,
             In x (media (db w)) ->
             attached (db w) t1 (Media.id x) = true ->
             referenced (db w1) (Media.id x) = false ->
             upload_path settings x <> Some p) ->
         In p (files w1))
  /\ (forall u2 t2 m r2 w2,
         media_pk (db w) -> In m (media (db w)) -> t1 <> t2 ->
         attached (db w) t1 (Media.id m) = true ->
         attached (db w) t2 (Media.id m) = true ->
         (forall tm,
             In tm (tweet_media (db w)) ->
             TweetMedia.media_id tm = Media.id m ->
             TweetMedia.tweet_id tm = t1 \/ TweetMedia.tweet_id tm = t2) ->
         TweetServices.del_tweet settings u2 t2 w1 = (Ok r2, w2) ->
         In m (media (db w1))
         /\ ~ In m (media (db w2))
         /\ exists p, upload_path settings m = Some p /\ ~ In p (files w2)).
Proof.
  intros H1.
  destruct (del_tweet_law _ _ _ _ _ _ H1) as (Htm1 & Hmedia1 & Hsub1 & Hfiles1).
  split; [exact Htm1|]. split; [exact Hmedia1|]. split; [exact Hfiles1|].
  intros u2 t2 m r2 w2 Hpk Hm Hne Hatt1 Hatt2 Honly H2.
  destruct (del_tweet_law _ _ _ _ _ _ H2) as (Htm2 & Hmedia2 & _ & _).
  (* the association of [t2] survives the first deletion *)
  unfold attached in Hatt2. apply existsb_exists in Hatt2 as (tm2 & Htm2in & Hc).
  apply andb_true_iff in Hc as [Ht2 Hm2]. apply Z.eqb_eq in Ht2, Hm2.
  assert (Hin1 : In tm2 (tweet_media (db w1))).
  { rewrite Htm1. apply filter_In. split; [exact Htm2in|].
    apply negb_true_iff. apply Z.eqb_neq. congruence. }
  assert (Href1 : referenced (db w1) (Media.id m) = true).
  { unfold referenced. apply existsb_exists. exists tm2.
    split; [exact Hin1|]. rewrite Hm2. apply Z.eqb_refl. }
  assert (Hkept : In m (media (db w1))).
  { apply Hmedia1; [exact Hm|]. intros [_ Hf]. congruence. }
  assert (Hatt : attached (db w1) t2 (Media.id m) = true).
  { unfold attached. apply existsb_exists. exists tm2.
    split; [exact Hin1|]. rewrite Ht2, Hm2, !Z.eqb_refl. reflexivity. }
  assert (Href2 : referenced (db w2) (Media.id m) = false).
  { unfold referenced. apply not_true_is_false. intros Hex.
    apply existsb_exists in Hex as (tm & Htm & E). apply Z.eqb_eq in E.
    rewrite Htm2, Htm1 in Htm.
    apply filter_In in Htm as [Htm Hn2]. apply filter_In in Htm as [Htm Hn1].
    apply negb_true_iff in Hn1, Hn2. apply Z.eqb_neq in Hn1, Hn2.
    destruct (Honly tm Htm E); contradiction. }
  split; [exact Hkept|]. split.
  - intros Hin2. apply (proj1 (Hmedia2 m Hkept)) in Hin2. apply Hin2.
    split; assumption.
  - apply del_tweet_ok in H1, H2.
    destruct H1 as (ta & _ & _ & _ & Hdb1 & _).
    destruct H2 as (tb & _ & Hidb & _ & Hdb2 & Hfiles2 & Hpaths).
    assert (Hpk1 : media_pk (db w1)).
    { unfold media_pk. rewrite Hdb1. cbn [media].
      apply NoDup_map_filter. exact Hpk. }
    set (o2 := TweetRepository.load_media (db w1) tm2).
    assert (Ho2 : In o2 (TweetObj.media (TweetRepository.load (db w1) tb))).
    { cbn [TweetRepository.load TweetObj.media]. apply in_map.
      apply filter_In. split; [exact Hin1|].
      rewrite Hidb, Ht2. apply Z.eqb_refl. }
    assert (Em2 : TweetMedia.media o2 = Some m).
    { unfold o2. cbn [TweetRepository.load_media TweetMedia.media].
      rewrite Hm2. apply (find_by_pk Media.id); assumption. }
    assert (Hnone : referenced (without_tweet (db w1) t2) (Media.id m) = false).
    { unfold referenced in *. rewrite Hdb2 in Href2. exact Href2. }
    destruct (Hpaths o2 m Ho2 Em2 Hnone) as [path Hpath].
    exists path. split; [exact Hpath|].
    rewrite Hfiles2. intros Hin. apply filter_In in Hin as [_ Hneg].
    apply negb_true_iff in Hneg.
    assert (Hun : unlinked settings (tweet_media (without_tweet (db w1) t2))
                           (TweetObj.media (TweetRepository.load (db w1) tb))
                           path = true).
    { unfold unlinked. apply existsb_exists. exists o2.
      split; [exact Ho2|]. rewrite Em2, Hpath.
      unfold referenced in Hnone. rewrite Hnone, String.eqb_refl.
      reflexivity. }
    congruence.
Qed.

Lemma del_tweet_reference_counted_witness :
  In "uploads/a.jpg"%string
     (files (snd (TweetServices.del_tweet Ex.settings Ex.alice 1 Ex.album_world)))
  /\ In Ex.picture_a
        (media (db (snd (TweetServices.del_tweet
                           Ex.settings Ex.alice 1 Ex.album_world))))
  /\ ~ In Ex.picture_a
         (media (db (snd (TweetServices.del_tweet
                            Ex.settings Ex.alice 2
                            (snd (TweetServices.del_tweet
                                    Ex.settings Ex.alice 1 Ex.album_world))))))
  /\ exists p,
      upload_path Ex.settings Ex.picture_a = Some p
      /\ ~ In p (files (snd (TweetServices.del_tweet
                               Ex.settings Ex.alice 2
                               (snd (TweetServices.del_tweet
                                       Ex.settings Ex.alice 1
                                       Ex.album_world))))).
Proof.
  assert (H1 : TweetServices.del_tweet Ex.settings Ex.alice 1 Ex.album_world
               = (Ok (mkGeneralAnswer true),
                  snd (TweetServices.del_tweet
                         Ex.settings Ex.alice 1 Ex.album_world)))
    by (vm_compute; reflexivity).
  assert (H2 : TweetServices.del_tweet
                 Ex.settings Ex.alice 2
                 (snd (TweetServices.del_tweet
                         Ex.settings Ex.alice 1 Ex.album_world))
               = (Ok (mkGeneralAnswer true),
                  snd (TweetServices.del_tweet
                         Ex.settings Ex.alice 2
                         (snd (TweetServices.del_tweet
                                 Ex.settings Ex.alice 1 Ex.album_world)))))
    by (vm_compute; reflexivity).
  destruct (del_tweet_reference_counted
              Ex.settings Ex.alice 1 Ex.album_world _ _ H1)
    as (_ & _ & Hfile & Hscenario).
  split.
  - apply Hfile; [left; reflexivity|].
    intros x [<-|[<-|[]]] Hatt Href.
    + vm_compute in Href. discriminate Href.
    + vm_compute in Hatt. discriminate Hatt.
  - apply (Hscenario Ex.alice 2 Ex.picture_a (mkGeneralAnswer true)).
    + unfold media_pk. cbn. repeat constructor; cbn; intuition discriminate.
    + left. reflexivity.
    + discriminate.
    + reflexivity.
    + reflexivity.
    + intros tm [<-|[<-|[<-|[]]]] E; cbn in E |- *;
        first [left; reflexivity | right; reflexivity | discriminate E].
    + exact H2.
Defined.

(** C1, the claim as stated fails on the stored file: Alice uploads two
    files under the name [a.jpg] (two media rows, one file on disk),
    attaches both uploads to tweet 1 and the first upload to tweet 2.
    Deleting tweet 1 keeps the first upload's row, which tweet 2 still
    refers to, but reclaims the second upload and with it removes the file
    the kept row points to. *)
Lemma shared_upload_counterexample :
  attached (db Ex.clash_world) 1 (Media.id Ex.upload_1) = true
  /\ attached (db Ex.clash_world) 2 (Media.id Ex.upload_1) = true
  /\ In Ex.upload_1 (media (db Ex.clash_world))
  /\ upload_path Ex.settings Ex.upload_1 = Some "uploads/a.jpg"%string
  /\ In "uploads/a.jpg"%string (files Ex.clash_world)
  /\ (exists w1,
      TweetServices.del_tweet Ex.settings Ex.alice 1 Ex.clash_world
      = (Ok (mkGeneralAnswer true), w1)
      /\ In Ex.upload_1 (media (db w1))
      /\ ~ In "uploads/a.jpg"%string (files w1))
  /\ ~ shared_media_survives Ex.settings Ex.clash_world.
Proof.
  split; [vm_compute; reflexivity|].
  split; [vm_compute; reflexivity|].
  split; [vm_compute; left; reflexivity|].
  split; [vm_compute; reflexivity|].
  split; [vm_compute; left; reflexivity|].
  split.
  - eexists. split; [vm_compute; reflexivity|].
    split; [left; reflexivity|]. intros [].
  - intros Hclaim.
    destruct (Hclaim Ex.alice 1 2 Ex.upload_1 (mkGeneralAnswer true)
                     (snd (TweetServices.del_tweet
                             Ex.settings Ex.alice 1 Ex.clash_world)))
      as [_ Hfile].
    + discriminate.
    + vm_compute. left. reflexivity.
    + vm_compute. reflexivity.
    + vm_compute. reflexivity.
    + vm_compute. reflexivity.
    + specialize (Hfile "uploads/a.jpg"%string).
      vm_compute in Hfile. apply Hfile; [reflexivity|left; reflexivity].
Qed.


(* ------------------------------------------------------------------ *)
(** ** Invariants of computations *)

Lemma preserves_ret {A} (I : World -> Prop) (a : A) : preserves I (ret a).
Proof. intros w H. exact H. Qed.

Lemma preserves_raise {A} (I : World -> Prop) (e : Exception) :
  preserves I (@raise A e).
Proof. intros w H. exact H. Qed.

Lemma preserves_bind {A B} (I : World -> Prop) (m : M A) (f : A -> M B) :
  preserves I m -> (forall a, preserves I (f a)) -> preserves I (bind m f).
Proof.
  intros Hm Hf w H. unfold bind. specialize (Hm w H).
  destruct (m w) as [[a|e] w1]; cbn in Hm |- *; [apply Hf|]; exact Hm.
Qed.

Lemma preserves_try_except {A} (I : World -> Prop) (m : M A)
  (h : Exception -> M A) :
  preserves I m -> (forall e, preserves I (h e)) -> preserves I (try_except m h).
Proof.
  intros Hm Hh w H. unfold try_except. specialize (Hm w H).
  destruct (m w) as [[a|e] w1]; cbn in Hm |- *; [|apply Hh]; exact Hm.
Qed.

Lemma preserves_for_each {A} (I : World -> Prop) (l : list A)
  (body : A -> M unit) :
  (forall x, preserves I (body x)) -> preserves I (for_each l body).
Proof.
  intros Hb. induction l as [|x l IH]; cbn [for_each].
  - apply preserves_ret.
  - apply preserves_bind; [apply Hb|intros _; exact IH].
Qed.

Lemma preserves_map_M {A B} (I : World -> Prop) (f : A -> M B) (l : list A) :
  (forall x, preserves I (f x)) -> preserves I (map_M f l).
Proof.
  intros Hf. induction l as [|x l IH]; cbn [map_M].
  - apply preserves_ret.
  - apply preserves_bind; [apply Hf|]. intros y.
    apply preserves_bind; [exact IH|]. intros ys. apply preserves_ret.
Qed.

Lemma preserves_stateless {A} (I : World -> Prop) (m : M A) :
  stateless m -> preserves I m.
Proof. intros [r Hr] w H. rewrite Hr. exact H. Qed.

(** An invariant that looks at the database only is kept by what leaves the
    database alone. *)
Lemma preserves_db_only {A} (P : DB -> Prop) (m : M A) :
  (forall w, db (snd (m w)) = db w) -> preserves (fun w => P (db w)) m.
Proof. intros Hm w H. rewrite Hm. exact H. Qed.

Lemma record_db (c : Call) (w : World) : db (snd (record c w)) = db w.
Proof. reflexivity. Qed.

Lemma stateless_py_iter {A} (x : Any A) : stateless (py_iter x).
Proof. destruct x; first [apply stateless_ret | apply stateless_raise]. Qed.

Lemma stateless_py_len {A} (x : Any A) : stateless (py_len x).
Proof. destruct x; first [apply stateless_ret | apply stateless_raise]. Qed.

Lemma stateless_py_first {A} (x : Any A) : stateless (py_first x).
Proof.
  destruct x as [| |[|a l]]; first [apply stateless_ret | apply stateless_raise].
Qed.

Lemma stateless_py_obj {A} (x : Any A) : stateless (py_obj x).
Proof. destruct x; first [apply stateless_ret | apply stateless_raise]. Qed.

Lemma stateless_scalar_one_or_none {A} (rows : list A) :
  stateless (scalar_one_or_none rows).
Proof.
  destruct rows as [|a [|b r]]; first [apply stateless_ret | apply stateless_raise].
Qed.

Lemma observes_preserves {A} (m : M A) (w0 : World) :
  observes m -> preserves (same_store w0) m.
Proof.
  intros Hm w (Hd & Hf & Hn). destruct (Hm w) as (Hd' & Hf' & Hn').
  unfold same_store. rewrite Hd', Hf', Hn'. repeat split; assumption.
Qed.

Lemma preserves_observes {A} (m : M A) :
  (forall w0, preserves (same_store w0) m) -> observes m.
Proof.
  intros H w. apply H. repeat split.
Qed.

Lemma trace_blind_db (P : DB -> Prop) : trace_blind (fun w => P (db w)).
Proof. intros d f n t t' o H. exact H. Qed.

Lemma trace_blind_same_store (w0 : World) : trace_blind (same_store w0).
Proof. intros d f n t t' o H. exact H. Qed.

Lemma preserves_get_db (I : World -> Prop) : preserves I get_db.
Proof. intros w H. exact H. Qed.

Lemma preserves_get_now (I : World -> Prop) : preserves I get_now.
Proof. intros w H. exact H. Qed.

Lemma preserves_record (I : World -> Prop) (c : Call) :
  trace_blind I -> preserves I (record c).
Proof.
  intros Hb w H. unfold record. cbn. destruct w as [d f n t o]. cbn.
  apply (Hb d f n t). exact H.
Qed.

Create HintDb preserve.

#[local] Hint Resolve trace_blind_db trace_blind_same_store : preserve.
#[local] Hint Resolve preserves_get_db preserves_get_now preserves_record
  : preserve.
#[local] Hint Resolve stateless_ret stateless_raise stateless_attr
  stateless_py_iter stateless_py_len stateless_py_first stateless_py_obj
  stateless_scalar_one_or_none stateless_apply_offset stateless_apply_limit
  stateless_tweet_dict stateless_int32_params : preserve.
#[local] Hint Resolve preserves_stateless preserves_ret preserves_raise
  : preserve.

Ltac preserve_step :=
  match goal with
  | |- preserves _ (bind _ _) => apply preserves_bind; [|intros ?]
  | |- preserves _ (ret _) => apply preserves_ret
  | |- preserves _ (raise _) => apply preserves_raise
  | |- preserves _ (for_each _ _) => apply preserves_for_each; intros ?
  | |- preserves _ (map_M _ _) => apply preserves_map_M; intros ?
  | |- preserves _ (try_except _ _) => apply preserves_try_except; [|intros ?]
  | |- preserves _ (if ?b then _ else _) => destruct b
  | |- preserves _ (match ?x with _ => _ end) => destruct x
  | |- preserves _ _ => solve [eauto with preserve]
  end.

Ltac preserve := repeat preserve_step.

(** *** The reads *)

Section Reads.

Variable I : World -> Prop.
Hypothesis I_blind : trace_blind I.

Lemma preserves_user_get_by_id (id : Z) :
  preserves I (UserRepository.get_by_id id).
Proof. unfold UserRepository.get_by_id. preserve. Qed.

Lemma preserves_get_by_api_key (k : string) : preserves I (get_by_api_key k).
Proof. unfold get_by_api_key. preserve. Qed.

Lemma preserves_get_subscribe (kw : list FollowerKw) :
  preserves I (FollowerRepository.get_subscribe kw).
Proof. unfold FollowerRepository.get_subscribe. preserve. Qed.

Lemma preserves_follower_filter (kw : list FollowerKw) :
  preserves I (FollowerRepository.filter kw).
Proof. unfold FollowerRepository.filter. preserve. Qed.

Lemma preserves_tweet_get_by_id (id : Z) :
  preserves I (TweetRepository.get_by_id id).
Proof. unfold TweetRepository.get_by_id. preserve. Qed.

Lemma preserves_tweet_filter (a : TweetRepository.Kwargs) :
  preserves I (TweetRepository.filter a).
Proof. unfold TweetRepository.filter. preserve. Qed.

Lemma preserves_media_filter (a : MediaRepository.Kwargs) :
  preserves I (MediaRepository.filter a).
Proof. unfold MediaRepository.filter. preserve. Qed.

Lemma preserves_tm_filter (kw : list TweetMediaKw) :
  preserves I (TweetMediaRepository.filter kw).
Proof. unfold TweetMediaRepository.filter. preserve. Qed.

Lemma preserves_like_filter (kw : list LikeKw) :
  preserves I (LikeRepository.filter kw).
Proof. unfold LikeRepository.filter. preserve. Qed.

End Reads.

#[local] Hint Resolve preserves_user_get_by_id preserves_get_by_api_key
  preserves_get_subscribe preserves_follower_filter preserves_tweet_get_by_id
  preserves_tweet_filter preserves_media_filter preserves_tm_filter
  preserves_like_filter : preserve.

(** *** The read-only operations *)

Lemma preserves_get_tweets (I : World -> Prop) (user : Users.t)
  (limit offset : option Z) :
  trace_blind I -> preserves I (TweetServices.get_tweets user limit offset).
Proof.
  intros Hb. unfold TweetServices.get_tweets, TweetServices.following_list.
  preserve.
Qed.

Lemma preserves_edges_of (I : World -> Prop) (id : Z) :
  trace_blind I -> preserves I (UserProfiles.edges_of id).
Proof.
  intros Hb. unfold UserProfiles.edges_of, UserProfiles.basic_of. preserve.
Qed.

Lemma preserves_get_my_data (I : World -> Prop) (user : Users.t) :
  trace_blind I -> preserves I (UserProfiles.get_my_data user).
Proof.
  intros Hb. unfold UserProfiles.get_my_data.
  apply preserves_bind; [apply preserves_edges_of; exact Hb|].
  intros lists. apply preserves_ret.
Qed.

Lemma preserves_get_user_data_by_id (I : World -> Prop) (id : Z) :
  trace_blind I -> preserves I (UserProfiles.get_user_data_by_id id).
Proof.
  intros Hb. unfold UserProfiles.get_user_data_by_id.
  apply preserves_bind; [eauto with preserve|]. intros [u|].
  - apply preserves_bind; [apply preserves_edges_of; exact Hb|].
    intros lists. apply preserves_ret.
  - apply preserves_raise.
Qed.

Lemma preserves_get_current_user (I : World -> Prop) (k : string) :
  trace_blind I -> preserves I (get_current_user k).
Proof.
  intros Hb. unfold get_current_user. preserve.
Qed.

(** X1. The read operations of the services -- the feed, the two profile
    queries and the authentication of a request -- leave the database, the
    file system and the clock as they found them, whether they return or
    raise; at most the trace of store calls grows. *)
Theorem read_operations_change_nothing (w : World) :
  (forall user limit offset,
      same_store w (snd (TweetServices.get_tweets user limit offset w)))
  /\ (forall user, same_store w (snd (UserProfiles.get_my_data user w)))
  /\ (forall id, same_store w (snd (UserProfiles.get_user_data_by_id id w)))
  /\ (forall key, same_store w (snd (get_current_user key w))).
Proof.
  assert (H0 : same_store w w) by (repeat split).
  split; [|split; [|split]]; intros.
  - apply preserves_get_tweets; [apply trace_blind_same_store|exact H0].
  - apply preserves_get_my_data; [apply trace_blind_same_store|exact H0].
  - apply preserves_get_user_data_by_id; [apply trace_blind_same_store|exact H0].
  - apply preserves_get_current_user; [apply trace_blind_same_store|exact H0].
Qed.

(* ------------------------------------------------------------------ *)
(** ** The writes keep the schema *)

Lemma NoDup_map_snoc {A K : Type} (key : A -> K) (l : list A) (x : A) :
  NoDup (map key l) -> ~ In (key x) (map key l) ->
  NoDup (map key (l ++ [x])).
Proof.
  intros Hnd Hni. rewrite map_app. cbn.
  apply NoDup_app; [exact Hnd|repeat constructor; intros []|].
  intros k Hk [<-|[]]. contradiction.
Qed.

Lemma next_id_not_In {A : Type} (key : A -> Z) (l : list A) :
  ~ In (next_id (map key l)) (map key l).
Proof.
  intros H. apply next_id_fresh in H. lia.
Qed.

Lemma existsb_app_l {A} (p : A -> bool) (l l' : list A) :
  existsb p l = true -> existsb p (l ++ l') = true.
Proof. intros H. rewrite existsb_app, H. reflexivity. Qed.

Lemma existsb_filter_keep {A} (p q : A -> bool) (l : list A) :
  existsb p l = true ->
  (forall x, In x l -> p x = true -> q x = true) ->
  existsb p (filter q l) = true.
Proof.
  intros H Hq. apply existsb_exists in H as (x & Hx & Hp).
  apply existsb_exists. exists x. split; [|exact Hp].
  apply filter_In. split; [exact Hx|]. apply Hq; assumption.
Qed.

Lemma pair_not_In {A : Type} (f g : A -> Z) (l : list A) (a b : Z) :
  existsb (fun x => (f x =? a) && (g x =? b)) l = false ->
  ~ In (a, b) (map (fun x => (f x, g x)) l).
Proof.
  intros H Hin. apply in_map_iff in Hin as (x & E & Hx). inversion E.
  assert (Ht : existsb (fun x => (f x =? a) && (g x =? b)) l = true).
  { apply existsb_exists. exists x. split; [exact Hx|].
    subst. rewrite !Z.eqb_refl. reflexivity. }
  congruence.
Qed.

Ltac keep_fields Hc :=
  destruct Hc; constructor; simpl_world; try assumption.

Lemma consistent_follower_add (a b : Z) :
  preserves (fun w => consistent (db w)) (FollowerRepository.add a b).
Proof.
  intros w Hc. unfold FollowerRepository.add, user_exists. unfold_m.
  destruct (existsb _ (followers (db w))) eqn:Eu; [exact Hc|].
  destruct (existsb _ (users (db w))) eqn:Ea; [|exact Hc].
  destruct (existsb (fun u => Users.id u =? b) (users (db w))) eqn:Eb;
    [|exact Hc].
  cbn [negb]. simpl_world. keep_fields Hc.
  - apply NoDup_map_snoc; [assumption|apply next_id_not_In].
  - apply NoDup_map_snoc; [assumption|]. cbn. apply pair_not_In. exact Eu.
  - intros f Hf. apply in_app_or in Hf as [Hf|[<-|[]]]; [auto|exact Ea].
  - intros f Hf. apply in_app_or in Hf as [Hf|[<-|[]]]; [auto|exact Eb].
Qed.

Lemma consistent_follower_delete (f : Follower.t) :
  preserves (fun w => consistent (db w)) (FollowerRepository.delete f).
Proof.
  intros w Hc. unfold FollowerRepository.delete. unfold_m. keep_fields Hc.
  - apply NoDup_map_filter. assumption.
  - apply NoDup_map_filter. assumption.
  - intros x Hx. apply filter_In in Hx as [Hx _]. auto.
  - intros x Hx. apply filter_In in Hx as [Hx _]. auto.
Qed.

Lemma consistent_tweet_add (content : option string) (uid : option Z) :
  preserves (fun w => consistent (db w)) (TweetRepository.add content uid).
Proof.
  intros w Hc. unfold TweetRepository.add, user_exists. unfold_m.
  destruct uid as [u|].
  - destruct (existsb _ (users (db w))) eqn:Eu; [|exact Hc].
    cbn [negb]. simpl_world. keep_fields Hc.
    + apply NoDup_map_snoc; [assumption|apply next_id_not_In].
    + intros t v Ht Hv. apply in_app_or in Ht as [Ht|[<-|[]]]; [eauto|].
      cbn in Hv. inversion Hv. subst v. exact Eu.
    + intros tm Htm. apply existsb_app_l. auto.
    + intros l Hl. apply existsb_app_l. auto.
  - cbn [negb]. simpl_world. keep_fields Hc.
    + apply NoDup_map_snoc; [assumption|apply next_id_not_In].
    + intros t v Ht Hv. apply in_app_or in Ht as [Ht|[<-|[]]]; [eauto|].
      cbn in Hv. discriminate.
    + intros tm Htm. apply existsb_app_l. auto.
    + intros l Hl. apply existsb_app_l. auto.
Qed.

Lemma consistent_tweet_delete (t : Tweets.t) :
  preserves (fun w => consistent (db w)) (TweetRepository.delete t).
Proof.
  intros w Hc. unfold TweetRepository.delete. unfold_m. keep_fields Hc.
  - apply NoDup_map_filter. assumption.
  - apply NoDup_map_filter. assumption.
  - apply NoDup_map_filter. assumption.
  - apply NoDup_map_filter. assumption.
  - apply NoDup_map_filter. assumption.
  - intros x u Hx. apply filter_In in Hx as [Hx _]. eauto.
  - intros tm Htm. apply filter_In in Htm as [Htm Hn].
    apply existsb_filter_keep; [auto|].
    intros x _ Hx. apply Z.eqb_eq in Hx. rewrite Hx. exact Hn.
  - intros tm Htm. apply filter_In in Htm as [Htm _]. auto.
  - intros l Hl. apply filter_In in Hl as [Hl Hn].
    apply existsb_filter_keep; [auto|].
    intros x _ Hx. apply Z.eqb_eq in Hx. rewrite Hx. exact Hn.
  - intros l Hl. apply filter_In in Hl as [Hl _]. auto.
Qed.

Lemma consistent_media_add (p : option string) (uid : Z) :
  preserves (fun w => consistent (db w)) (MediaRepository.add p uid).
Proof.
  intros w Hc. unfold MediaRepository.add, user_exists. unfold_m.
  destruct (existsb _ (users (db w))) eqn:Eu; [|exact Hc].
  cbn [negb]. simpl_world. keep_fields Hc.
  - apply NoDup_map_snoc; [assumption|apply next_id_not_In].
  - intros m Hm. apply in_app_or in Hm as [Hm|[<-|[]]]; [auto|exact Eu].
  - intros tm Htm. apply existsb_app_l. auto.
Qed.

Lemma consistent_media_delete (m : Media.t) :
  preserves (fun w => consistent (db w)) (MediaRepository.delete m).
Proof.
  intros w Hc. unfold MediaRepository.delete. unfold_m. keep_fields Hc.
  - apply NoDup_map_filter. assumption.
  - apply NoDup_map_filter. assumption.
  - apply NoDup_map_filter. assumption.
  - intros x Hx. apply filter_In in Hx as [Hx _]. auto.
  - intros tm Htm. apply filter_In in Htm as [Htm _]. auto.
  - intros tm Htm. apply filter_In in Htm as [Htm Hn].
    apply existsb_filter_keep; [auto|].
    intros x _ Hx. apply Z.eqb_eq in Hx. rewrite Hx. exact Hn.
Qed.

Lemma insert_all_consistent (d : DB) (rec : list (Z * Z)) :
  forall tbl tbl',
    TweetMediaRepository.insert_all d tbl rec = Ok tbl' ->
    NoDup (map TweetMedia.id tbl) -> NoDup (map tm_pair tbl) ->
    (forall tm, In tm tbl ->
                tweet_exists d (TweetMedia.tweet_id tm) = true
                /\ media_exists d (TweetMedia.media_id tm) = true) ->
    NoDup (map TweetMedia.id tbl') /\ NoDup (map tm_pair tbl')
    /\ (forall tm, In tm tbl' ->
                   tweet_exists d (TweetMedia.tweet_id tm) = true
                   /\ media_exists d (TweetMedia.media_id tm) = true).
Proof.
  induction rec as [|[tid mid] r IH]; intros tbl tbl' H Hpk Hu Hfk.
  - cbn in H. inversion H. subst. auto.
  - cbn [TweetMediaRepository.insert_all] in H.
    destruct (existsb _ tbl) eqn:Eu; [discriminate|].
    destruct (tweet_exists d tid) eqn:Et; [|discriminate].
    destruct (media_exists d mid) eqn:Em; [|discriminate].
    cbn [negb] in H. apply IH in H; [exact H| | |].
    + apply NoDup_map_snoc; [exact Hpk|apply next_id_not_In].
    + apply NoDup_map_snoc; [exact Hu|]. cbn.
      apply (pair_not_In TweetMedia.tweet_id TweetMedia.media_id). exact Eu.
    + intros tm Htm. apply in_app_or in Htm as [Htm|[<-|[]]]; [auto|].
      cbn. auto.
Qed.

Lemma consistent_tm_add_all (rec : list (Z * Z)) :
  preserves (fun w => consistent (db w)) (TweetMediaRepository.add_all rec).
Proof.
  intros w Hc. unfold TweetMediaRepository.add_all. unfold_m.
  destruct (TweetMediaRepository.insert_all _ _ _) as [tbl|e] eqn:E;
    [|exact Hc].
  simpl_world.
  apply insert_all_consistent in E as (Hpk & Hu & Hfk).
  - keep_fields Hc; intros tm Htm; apply Hfk; exact Htm.
  - destruct Hc; assumption.
  - destruct Hc; assumption.
  - intros tm Htm. unfold tweet_exists, media_exists. destruct Hc. auto.
Qed.

Lemma consistent_like_add (tid uid : Z) :
  preserves (fun w => consistent (db w)) (LikeRepository.add tid uid).
Proof.
  intros w Hc. unfold LikeRepository.add, tweet_exists, user_exists. unfold_m.
  destruct (existsb _ (likes (db w))) eqn:Eu; [exact Hc|].
  destruct (existsb _ (tweets (db w))) eqn:Et; [|exact Hc].
  destruct (existsb _ (users (db w))) eqn:Ea; [|exact Hc].
  cbn [negb]. simpl_world. keep_fields Hc.
  - apply NoDup_map_snoc; [assumption|apply next_id_not_In].
  - apply NoDup_map_snoc; [assumption|]. cbn. apply pair_not_In. exact Eu.
  - intros l Hl. apply in_app_or in Hl as [Hl|[<-|[]]]; [auto|exact Et].
  - intros l Hl. apply in_app_or in Hl as [Hl|[<-|[]]]; [auto|exact Ea].
Qed.

Lemma consistent_like_delete (l : Like.t) :
  preserves (fun w => consistent (db w)) (LikeRepository.delete l).
Proof.
  intros w Hc. unfold LikeRepository.delete. unfold_m. keep_fields Hc.
  - apply NoDup_map_filter. assumption.
  - apply NoDup_map_filter. assumption.
  - intros x Hx. apply filter_In in Hx as [Hx _]. auto.
  - intros x Hx. apply filter_In in Hx as [Hx _]. auto.
Qed.

Lemma consistent_os_remove (p : string) :
  preserves (fun w => consistent (db w)) (os_remove p).
Proof.
  intros w Hc. unfold os_remove. unfold_m.
  destruct (existsb _ (files w)); exact Hc.
Qed.

Lemma consistent_write_file (p : string) :
  preserves (fun w => consistent (db w)) (write_file p).
Proof.
  intros w Hc. unfold write_file. unfold_m.
  destruct (open_error w p); exact Hc.
Qed.

#[local] Hint Resolve consistent_follower_add consistent_follower_delete
  consistent_tweet_add consistent_tweet_delete consistent_media_add
  consistent_media_delete consistent_tm_add_all consistent_like_add
  consistent_like_delete consistent_os_remove consistent_write_file
  : preserve.

(** *** The services keep the schema *)

Lemma consistent_reclaim (settings : Settings) (o : TweetMedia.obj) :
  preserves (fun w => consistent (db w)) (TweetServices.reclaim settings o).
Proof.
  unfold TweetServices.reclaim, os_path_basename. preserve.
Qed.

(** X2. Every operation of [UserServices] and [TweetServices] keeps the
    schema: started on a database that satisfies the primary keys, the
    unique constraints and the foreign keys of [models.py], it leaves one
    that satisfies them too, whether it returns or raises (and wherever in
    its sequence of commits it raises). *)
Theorem services_keep_schema (settings : Settings) (user : Users.t) (w : World) :
  consistent (db w) ->
  (forall id, consistent (db (snd (UserServices.add_subscribe user id w))))
  /\ (forall id, consistent (db (snd (UserServices.delete_subscribe user id w))))
  /\ (forall tweet,
         consistent (db (snd (TweetServices.add_new_tweet user tweet w))))
  /\ (forall file dir,
         consistent
           (db (snd (TweetServices.add_media_files settings user file dir w))))
  /\ (forall id, consistent (db (snd (TweetServices.del_tweet settings user id w))))
  /\ (forall id, consistent (db (snd (TweetServices.add_like user id w))))
  /\ (forall id, consistent (db (snd (TweetServices.del_like user id w)))).
Proof.
  intros Hc.
  split; [|split; [|split; [|split; [|split; [|split]]]]]; intros.
  - revert w Hc. change (preserves (fun w => consistent (db w))
                                   (UserServices.add_subscribe user id)).
    unfold UserServices.add_subscribe. preserve.
  - revert w Hc. change (preserves (fun w => consistent (db w))
                                   (UserServices.delete_subscribe user id)).
    unfold UserServices.delete_subscribe. preserve.
  - revert w Hc. change (preserves (fun w => consistent (db w))
                                   (TweetServices.add_new_tweet user tweet)).
    unfold TweetServices.add_new_tweet. preserve.
  - revert w Hc.
    change (preserves (fun w => consistent (db w))
                      (TweetServices.add_media_files settings user file dir)).
    unfold TweetServices.add_media_files. preserve.
  - revert w Hc. change (preserves (fun w => consistent (db w))
                                   (TweetServices.del_tweet settings user id)).
    unfold TweetServices.del_tweet. preserve.
    apply consistent_reclaim.
  - revert w Hc. change (preserves (fun w => consistent (db w))
                                   (TweetServices.add_like user id)).
    unfold TweetServices.add_like. preserve.
  - revert w Hc. change (preserves (fun w => consistent (db w))
                                   (TweetServices.del_like user id)).
    unfold TweetServices.del_like. preserve.
Qed.

Ltac solve_fk :=
  cbn; intros;
  repeat match goal with
    | H : _ \/ _ |- _ => destruct H
    | H : False |- _ => contradiction
    end;
  subst; cbn in *;
  try match goal with
    | H : Some _ = Some _ |- _ => inversion H; subst
    end;
  first [reflexivity | discriminate].

Ltac solve_consistent :=
  constructor;
  first [ solve [cbn; repeat constructor; cbn; intuition discriminate]
        | solve [solve_fk] ].

Lemma services_keep_schema_witness :
  consistent (db (snd (TweetServices.add_like Ex.bob 2 Ex.social_world)))
  /\ consistent (db (snd (TweetServices.del_tweet
                            Ex.settings Ex.bob 1 Ex.social_world))).
Proof.
  assert (Hc : consistent (db Ex.social_world)) by solve_consistent.
  split.
  - apply (services_keep_schema Ex.settings Ex.bob Ex.social_world Hc).
  - apply (services_keep_schema Ex.settings Ex.bob Ex.social_world Hc).
Defined.

(* ------------------------------------------------------------------ *)
(** ** Following and unfollowing *)

Lemma bind_ok {A B} (m : M A) (f : A -> M B) (w w' : World) (a : A) :
  m w = (Ok a, w') -> bind m f w = f a w'.
Proof. intros H. unfold bind. rewrite H. reflexivity. Qed.

Lemma bind_raise {A B} (m : M A) (f : A -> M B) (w w' : World) (e : Exception) :
  m w = (Raise e, w') -> bind m f w = (Raise e, w').
Proof. intros H. unfold bind. rewrite H. reflexivity. Qed.

Lemma traced_traced (w : World) (a b : list Call) :
  traced (traced w a) b = traced w (a ++ b).
Proof. unfold traced. cbn. rewrite app_assoc. reflexivity. Qed.

Lemma user_get_by_id_found (w : World) (v : Users.t) :
  users_pk (db w) -> In v (users (db w)) ->
  UserRepository.get_by_id (Users.id v) w
  = (Ok (Some v), traced w [user_repo_get_by_id (Users.id v)]).
Proof.
  intros Hpk Hv. unfold UserRepository.get_by_id. unfold_m.
  rewrite (filter_unique_key Users.id Z.eqb Z.eqb_eq (users (db w)) v Hpk Hv).
  reflexivity.
Qed.

Lemma user_rows_none (d : DB) (id : Z) :
  user_exists d id = false ->
  filter (fun u => Users.id u =? id) (users d) = [].
Proof.
  intros Hnone. apply filter_none.
  intros u Hu. apply not_true_is_false. intros E.
  unfold user_exists in Hnone.
  assert (Ht : existsb (fun x => Users.id x =? id) (users d) = true)
    by (apply existsb_exists; exists u; split; assumption).
  congruence.
Qed.

Lemma user_get_by_id_missing (w : World) (id : Z) :
  user_exists (db w) id = false -> in_int32 id = true ->
  UserRepository.get_by_id id w
  = (Ok None, traced w [user_repo_get_by_id id]).
Proof.
  intros Hnone Hr. unfold UserRepository.get_by_id. unfold_m.
  rewrite (user_rows_none _ _ Hnone). unfold int32_params.
  cbn [forallb]. rewrite Hr. reflexivity.
Qed.

(** The driver refuses a key beyond 32 bits that selects no row. *)
Lemma user_get_by_id_refused (w : World) (id : Z) :
  user_exists (db w) id = false -> in_int32 id = false ->
  UserRepository.get_by_id id w
  = (Raise DBAPIError, traced w [user_repo_get_by_id id]).
Proof.
  intros Hnone Hr. unfold UserRepository.get_by_id. unfold_m.
  rewrite (user_rows_none _ _ Hnone). unfold int32_params.
  cbn [forallb]. rewrite Hr. reflexivity.
Qed.

Lemma edges_matching (d : DB) (u v : Z) :
  followsb d u v = false ->
  filter (FollowerRepository.matches [follower_id_eq u; followee_id_eq v])
         (followers d) = [].
Proof.
  intros H. apply filter_none. intros f Hf. apply not_true_is_false. intros E.
  unfold FollowerRepository.matches in E. cbn in E. rewrite andb_true_r in E.
  unfold followsb in H.
  assert (Ht : existsb (fun x => (Follower.follower_id x =? u)
                                 && (Follower.followee_id x =? v))
                       (followers d) = true)
    by (apply existsb_exists; exists f; split; assumption).
  congruence.
Qed.

Lemma filter_snoc_fresh {A} (key : A -> Z) (l : list A) (x : A) :
  ~ In (key x) (map key l) ->
  filter (fun y => negb (key y =? key x)) (l ++ [x]) = l.
Proof.
  intros Hni. rewrite filter_app. cbn. rewrite Z.eqb_refl. cbn.
  rewrite app_nil_r. rewrite <- (filter_all l) at 2.
  apply filter_ext_in. intros y Hy. apply negb_true_iff. apply Z.eqb_neq.
  intros E. apply Hni. rewrite <- E. apply in_map. exact Hy.
Qed.


Lemma add_subscribe_ok (user v : Users.t) (w : World) :
  users_pk (db w) -> In v (users (db w)) -> Users.id v <> Users.id user ->
  user_exists (db w) (Users.id user) = true ->
  followsb (db w) (Users.id user) (Users.id v) = false ->
  UserServices.add_subscribe user (Users.id v) w
  = (Ok (mkGeneralAnswer true),
     mkWorld (mkDB (users (db w)) (tweets (db w)) (media (db w))
                   (tweet_media (db w)) (likes (db w))
                   (followers (db w)
                    ++ [new_edge w (Users.id user) (Users.id v)]))
             (files w) (now w)
             (trace w ++ [user_repo_get_by_id (Users.id v);
                          follow_repo_add (Users.id user) (Users.id v)])
             (open_error w)).
Proof.
  intros Hpk Hv Hne Hu Hnone. unfold UserServices.add_subscribe.
  destruct (Z.eqb_spec (Users.id v) (Users.id user)) as [E|_]; [contradiction|].
  rewrite (bind_ok _ _ _ _ _ (user_get_by_id_found w v Hpk Hv)).
  cbn [truthy_opt negb]. unfold FollowerRepository.add. unfold_m.
  unfold followsb in Hnone. rewrite Hnone.
  assert (Hv' : user_exists (db w) (Users.id v) = true).
  { unfold user_exists. apply existsb_exists. exists v.
    split; [exact Hv|apply Z.eqb_refl]. }
  rewrite Hu, Hv'. cbn [negb]. simpl_world. unfold new_edge.
  rewrite <- app_assoc. reflexivity.
Qed.

(** X3. Follow, then unfollow.  When the target is a stored user other than
    the caller, the caller is stored and does not follow the target yet,
    [add_subscribe] returns [{"result": True}] and appends exactly one edge,
    from the caller to the target, under a key no stored edge has; the edge
    is then found, and [delete_subscribe] by the same caller on the same
    target returns [{"result": True}] and restores the database as it was
    before the follow. *)
Theorem follow_then_unfollow (user v : Users.t) (w : World) :
  users_pk (db w) -> In v (users (db w)) -> Users.id v <> Users.id user ->
  user_exists (db w) (Users.id user) = true ->
  followsb (db w) (Users.id user) (Users.id v) = false ->
  exists w1 w2 edge,
    UserServices.add_subscribe user (Users.id v) w
    = (Ok (mkGeneralAnswer true), w1)
    /\ followers (db w1) = followers (db w) ++ [edge]
    /\ Follower.follower_id edge = Users.id user
    /\ Follower.followee_id edge = Users.id v
    /\ ~ In (Follower.id edge) (map Follower.id (followers (db w)))
    /\ users (db w1) = users (db w)
    /\ tweets (db w1) = tweets (db w)
    /\ media (db w1) = media (db w)
    /\ tweet_media (db w1) = tweet_media (db w)
    /\ likes (db w1) = likes (db w)
    /\ followsb (db w1) (Users.id user) (Users.id v) = true
    /\ UserServices.delete_subscribe user (Users.id v) w1
       = (Ok (mkGeneralAnswer true), w2)
    /\ db w2 = db w.
Proof.
  intros Hpk Hv Hne Hu Hnone.
  eexists. eexists. exists (new_edge w (Users.id user) (Users.id v)).
  split; [apply add_subscribe_ok; assumption|].
  split; [reflexivity|]. split; [reflexivity|]. split; [reflexivity|].
  split; [apply next_id_not_In|].
  do 5 (split; [reflexivity|]).
  split.
  { unfold followsb. simpl_world. rewrite existsb_app. cbn.
    rewrite !Z.eqb_refl. cbn. apply orb_true_r. }
  unfold UserServices.delete_subscribe.
  destruct (Z.eqb_spec (Users.id v) (Users.id user)) as [E|_]; [contradiction|].
  match goal with
  | |- context [bind (UserRepository.get_by_id _) _ ?w1] =>
      rewrite (bind_ok _ _ _ _ _ (user_get_by_id_found w1 v Hpk Hv))
  end.
  cbn [truthy_opt negb].
  unfold FollowerRepository.get_subscribe, FollowerRepository.delete.
  unfold_m. rewrite filter_app, (edges_matching _ _ _ Hnone).
  cbn [filter app FollowerRepository.matches forallb FollowerRepository.holds
       new_edge Follower.follower_id Follower.followee_id].
  rewrite !Z.eqb_refl. cbn [andb scalar_one_or_none]. unfold_m.
  split; [reflexivity|]. simpl_world.
  change (next_id (map Follower.id (followers (db w))))
    with (Follower.id (new_edge w (Users.id user) (Users.id v))).
  rewrite (filter_snoc_fresh Follower.id).
  - apply DB_eta.
  - apply next_id_not_In.
Qed.

Lemma follow_then_unfollow_witness :
  exists w1 w2 edge,
    UserServices.add_subscribe Ex.bob 1 Ex.social_world
    = (Ok (mkGeneralAnswer true), w1)
    /\ followers (db w1) = followers Ex.social_db ++ [edge]
    /\ Follower.follower_id edge = 2
    /\ Follower.followee_id edge = 1
    /\ ~ In (Follower.id edge) (map Follower.id (followers Ex.social_db))
    /\ users (db w1) = users Ex.social_db
    /\ tweets (db w1) = tweets Ex.social_db
    /\ media (db w1) = media Ex.social_db
    /\ tweet_media (db w1) = tweet_media Ex.social_db
    /\ likes (db w1) = likes Ex.social_db
    /\ followsb (db w1) 2 1 = true
    /\ UserServices.delete_subscribe Ex.bob 1 w1
       = (Ok (mkGeneralAnswer true), w2)
    /\ db w2 = Ex.social_db.
Proof.
  apply (follow_then_unfollow Ex.bob Ex.alice Ex.social_world).
  - unfold users_pk. cbn. repeat constructor; cbn; intuition discriminate.
  - left. reflexivity.
  - discriminate.
  - reflexivity.
  - reflexivity.
Defined.

(** X4. The not-found answers of follow and unfollow.  For a target other
    than the caller: when no user has the target id and the id fits the
    32-bit key column, both [add_subscribe] and [delete_subscribe] raise 404
    "User not found" after the one user lookup; when the id does not fit,
    the lookup itself fails with the database error and both raise it; when
    the target is stored but the caller does not follow it,
    [delete_subscribe] raises 404 "You haven't subscribed to this user yet"
    after the user lookup and the edge lookup.  Nothing is written in any of
    these cases. *)
Theorem follow_not_found (user : Users.t) (id : Z) (w : World) :
  id <> Users.id user ->
  (user_exists (db w) id = false -> in_int32 id = true ->
   UserServices.add_subscribe user id w
   = (Raise (HTTPException 404 "User not found"),
      traced w [user_repo_get_by_id id])
   /\ UserServices.delete_subscribe user id w
      = (Raise (HTTPException 404 "User not found"),
         traced w [user_repo_get_by_id id]))
  /\ (user_exists (db w) id = false -> in_int32 id = false ->
      UserServices.add_subscribe user id w
      = (Raise DBAPIError, traced w [user_repo_get_by_id id])
      /\ UserServices.delete_subscribe user id w
         = (Raise DBAPIError, traced w [user_repo_get_by_id id]))
  /\ (forall v,
         users_pk (db w) -> In v (users (db w)) -> Users.id v = id ->
         followsb (db w) (Users.id user) id = false ->
         UserServices.delete_subscribe user id w
         = (Raise (HTTPException 404 "You haven't subscribed to this user yet"),
            traced w [user_repo_get_by_id id;
                      follow_repo_get_subscribe
                        [follower_id_eq (Users.id user); followee_id_eq id]])).
Proof.
  intros Hne.
  unfold UserServices.add_subscribe, UserServices.delete_subscribe.
  destruct (Z.eqb_spec id (Users.id user)) as [E|_]; [contradiction|].
  split; [|split].
  - intros Hnone Hr.
    rewrite !(bind_ok _ _ _ _ _ (user_get_by_id_missing w id Hnone Hr)).
    split; reflexivity.
  - intros Hnone Hr.
    rewrite !(bind_raise _ _ _ _ _ (user_get_by_id_refused w id Hnone Hr)).
    split; reflexivity.
  - intros v Hpk Hv Hid Hnone. subst id.
    rewrite (bind_ok _ _ _ _ _ (user_get_by_id_found w v Hpk Hv)).
    cbn [truthy_opt negb]. unfold FollowerRepository.get_subscribe. unfold_m.
    rewrite (edges_matching _ _ _ Hnone). cbn. rewrite <- app_assoc.
    reflexivity.
Qed.

Lemma follow_not_found_witness :
  (UserServices.add_subscribe Ex.alice 9 Ex.social_world
   = (Raise (HTTPException 404 "User not found"),
      traced Ex.social_world [user_repo_get_by_id 9])
   /\ UserServices.delete_subscribe Ex.alice 9 Ex.social_world
      = (Raise (HTTPException 404 "User not found"),
         traced Ex.social_world [user_repo_get_by_id 9]))
  /\ (UserServices.add_subscribe Ex.alice 2147483648 Ex.social_world
      = (Raise DBAPIError,
         traced Ex.social_world [user_repo_get_by_id 2147483648])
      /\ UserServices.delete_subscribe Ex.alice 2147483648 Ex.social_world
         = (Raise DBAPIError,
            traced Ex.social_world [user_repo_get_by_id 2147483648]))
  /\ UserServices.delete_subscribe Ex.alice 3 Ex.social_world
     = (Raise (HTTPException 404 "You haven't subscribed to this user yet"),
        traced Ex.social_world
               [user_repo_get_by_id 3;
                follow_repo_get_subscribe
                  [follower_id_eq 1; followee_id_eq 3]]).
Proof.
  split; [|split].
  - apply (follow_not_found Ex.alice 9 Ex.social_world); [discriminate| |];
      reflexivity.
  - apply (proj1 (proj2 (follow_not_found Ex.alice 2147483648 Ex.social_world
                                          ltac:(discriminate))));
      reflexivity.
  - apply (proj2 (proj2 (follow_not_found Ex.alice 3 Ex.social_world
                                          ltac:(discriminate)))
                 Ex.carol).
    + unfold users_pk. cbn. repeat constructor; cbn; intuition discriminate.
    + right. right. left. reflexivity.
    + reflexivity.
    + reflexivity.
Defined.

(* ------------------------------------------------------------------ *)
(** ** Liking and unliking *)

Lemma tweet_get_by_id_found (w : World) (t : Tweets.t) :
  tweets_pk (db w) -> In t (tweets (db w)) ->
  TweetRepository.get_by_id (Tweets.id t) w
  = (Ok (Some t), traced w [tweet_repo_get_by_id (Tweets.id t)]).
Proof.
  intros Hpk Ht. unfold TweetRepository.get_by_id. unfold_m.
  rewrite (tweet_by_pk (db w) t Hpk Ht). reflexivity.
Qed.

Lemma tweet_rows_none (d : DB) (id : Z) :
  tweet_exists d id = false ->
  filter (fun t => Tweets.id t =? id) (tweets d) = [].
Proof.
  intros Hnone. apply filter_none.
  intros t Ht. apply not_true_is_false. intros E.
  unfold tweet_exists in Hnone.
  assert (Hx : existsb (fun x => Tweets.id x =? id) (tweets d) = true)
    by (apply existsb_exists; exists t; split; assumption).
  congruence.
Qed.

Lemma tweet_get_by_id_missing (w : World) (id : Z) :
  tweet_exists (db w) id = false -> in_int32 id = true ->
  TweetRepository.get_by_id id w
  = (Ok None, traced w [tweet_repo_get_by_id id]).
Proof.
  intros Hnone Hr. unfold TweetRepository.get_by_id. unfold_m.
  rewrite (tweet_rows_none _ _ Hnone). unfold int32_params.
  cbn [forallb]. rewrite Hr. reflexivity.
Qed.

(** The driver refuses a key beyond 32 bits that selects no row. *)
Lemma tweet_get_by_id_refused (w : World) (id : Z) :
  tweet_exists (db w) id = false -> in_int32 id = false ->
  TweetRepository.get_by_id id w
  = (Raise DBAPIError, traced w [tweet_repo_get_by_id id]).
Proof.
  intros Hnone Hr. unfold TweetRepository.get_by_id. unfold_m.
  rewrite (tweet_rows_none _ _ Hnone). unfold int32_params.
  cbn [forallb]. rewrite Hr. reflexivity.
Qed.

Lemma likes_matching (d : DB) (tid uid : Z) :
  liked d tid uid = false ->
  filter (LikeRepository.matches [like_tweet_id_eq tid; like_user_id_eq uid])
         (likes d) = [].
Proof.
  intros H. apply filter_none. intros l Hl. apply not_true_is_false. intros E.
  unfold LikeRepository.matches in E. cbn in E. rewrite andb_true_r in E.
  unfold liked in H.
  assert (Ht : existsb (fun x => (Like.tweet_id x =? tid)
                                 && (Like.user_id x =? uid)) (likes d) = true)
    by (apply existsb_exists; exists l; split; assumption).
  congruence.
Qed.

Lemma likes_count_snoc (d : DB) (l : Like.t) (t : Tweets.t) :
  TweetRepository.likes_count
    (mkDB (users d) (tweets d) (media d) (tweet_media d) (likes d ++ [l])
          (followers d)) t
  = TweetRepository.likes_count d t
    + (if Like.tweet_id l =? Tweets.id t then 1 else 0).
Proof.
  unfold TweetRepository.likes_count. cbn [likes].
  rewrite filter_app, length_app. cbn [filter].
  destruct (Like.tweet_id l =? Tweets.id t); cbn [List.length]; lia.
Qed.

(** X5. Like, then unlike.  When the tweet is stored, the caller is stored
    and has not liked it yet, [add_like] returns [{"result": True}] and
    appends exactly one like, of that tweet by the caller, under a key no
    stored like has: the like count of that tweet grows by one and that of
    every other tweet is unchanged.  [del_like] by the same caller then
    returns [{"result": True}] and restores the database as it was before
    the like. *)
Theorem like_then_unlike (user : Users.t) (t : Tweets.t) (w : World) :
  tweets_pk (db w) -> In t (tweets (db w)) ->
  user_exists (db w) (Users.id user) = true ->
  liked (db w) (Tweets.id t) (Users.id user) = false ->
  exists w1 w2 like,
    TweetServices.add_like user (Tweets.id t) w
    = (Ok (mkGeneralAnswer true), w1)
    /\ likes (db w1) = likes (db w) ++ [like]
    /\ Like.tweet_id like = Tweets.id t
    /\ Like.user_id like = Users.id user
    /\ ~ In (Like.id like) (map Like.id (likes (db w)))
    /\ users (db w1) = users (db w)
    /\ tweets (db w1) = tweets (db w)
    /\ media (db w1) = media (db w)
    /\ tweet_media (db w1) = tweet_media (db w)
    /\ followers (db w1) = followers (db w)
    /\ TweetRepository.likes_count (db w1) t
       = TweetRepository.likes_count (db w) t + 1
    /\ (forall t', Tweets.id t' <> Tweets.id t ->
                   TweetRepository.likes_count (db w1) t'
                   = TweetRepository.likes_count (db w) t')
    /\ TweetServices.del_like user (Tweets.id t) w1
       = (Ok (mkGeneralAnswer true), w2)
    /\ db w2 = db w.
Proof.
  intros Hpk Ht Hu Hnone.
  assert (Hex : tweet_exists (db w) (Tweets.id t) = true).
  { unfold tweet_exists. apply existsb_exists. exists t.
    split; [exact Ht|apply Z.eqb_refl]. }
  assert (Hadd : TweetServices.add_like user (Tweets.id t) w
                 = (Ok (mkGeneralAnswer true),
                    mkWorld
                      (mkDB (users (db w)) (tweets (db w)) (media (db w))
                            (tweet_media (db w))
                            (likes (db w)
                             ++ [new_like w (Tweets.id t) (Users.id user)])
                            (followers (db w)))
                      (files w) (now w)
                      (trace w
                       ++ [tweet_repo_get_by_id (Tweets.id t);
                           like_repo_filter
                             [like_tweet_id_eq (Tweets.id t);
                              like_user_id_eq (Users.id user)];
                           like_repo_add (Tweets.id t) (Users.id user)])
                      (open_error w))).
  { unfold TweetServices.add_like.
    rewrite (bind_ok _ _ _ _ _ (tweet_get_by_id_found w t Hpk Ht)).
    cbn [truthy_opt negb]. unfold LikeRepository.filter, LikeRepository.add.
    unfold_m. rewrite (likes_matching _ _ _ Hnone). cbn [scalar_one_or_none].
    unfold_m. cbn [as_any truthy]. simpl_world.
    unfold liked, tweet_exists, user_exists in *. rewrite Hnone, Hex, Hu. cbn [negb]. simpl_world.
    unfold new_like. rewrite <- !app_assoc. reflexivity. }
  eexists. eexists. exists (new_like w (Tweets.id t) (Users.id user)).
  split; [exact Hadd|]. split; [reflexivity|].
  split; [reflexivity|]. split; [reflexivity|].
  split; [apply next_id_not_In|].
  do 5 (split; [reflexivity|]).
  simpl_world. split; [|split].
  - rewrite likes_count_snoc. cbn [new_like Like.tweet_id].
    rewrite Z.eqb_refl. reflexivity.
  - intros t' Hne. rewrite likes_count_snoc. cbn [new_like Like.tweet_id].
    destruct (Z.eqb_spec (Tweets.id t) (Tweets.id t')) as [E|_];
      [congruence|lia].
  - unfold TweetServices.del_like.
    match goal with
    | |- context [bind (TweetRepository.get_by_id _) _ ?w1] =>
        rewrite (bind_ok _ _ _ _ _ (tweet_get_by_id_found w1 t Hpk Ht))
    end.
    cbn [truthy_opt negb]. unfold LikeRepository.filter, LikeRepository.delete.
    unfold_m. rewrite filter_app, (likes_matching _ _ _ Hnone).
    cbn [filter app LikeRepository.matches forallb LikeRepository.holds
         new_like Like.tweet_id Like.user_id].
    rewrite !Z.eqb_refl. cbn [andb scalar_one_or_none]. unfold_m.
    cbn [as_any truthy negb py_obj]. unfold_m.
    split; [reflexivity|]. simpl_world.
    change (next_id (map Like.id (likes (db w))))
      with (Like.id (new_like w (Tweets.id t) (Users.id user))).
    rewrite (filter_snoc_fresh Like.id).
    + apply DB_eta.
    + apply next_id_not_In.
Qed.

Lemma like_then_unlike_witness :
  exists w1 w2 like,
    TweetServices.add_like Ex.bob 2 Ex.social_world
    = (Ok (mkGeneralAnswer true), w1)
    /\ likes (db w1) = likes Ex.social_db ++ [like]
    /\ Like.tweet_id like = 2
    /\ Like.user_id like = 2
    /\ ~ In (Like.id like) (map Like.id (likes Ex.social_db))
    /\ users (db w1) = users Ex.social_db
    /\ tweets (db w1) = tweets Ex.social_db
    /\ media (db w1) = media Ex.social_db
    /\ tweet_media (db w1) = tweet_media Ex.social_db
    /\ followers (db w1) = followers Ex.social_db
    /\ TweetRepository.likes_count (db w1) Ex.alice_one
       = TweetRepository.likes_count Ex.social_db Ex.alice_one + 1
    /\ (forall t', Tweets.id t' <> 2 ->
                   TweetRepository.likes_count (db w1) t'
                   = TweetRepository.likes_count Ex.social_db t')
    /\ TweetServices.del_like Ex.bob 2 w1 = (Ok (mkGeneralAnswer true), w2)
    /\ db w2 = Ex.social_db.
Proof.
  apply (like_then_unlike Ex.bob Ex.alice_one Ex.social_world).
  - unfold tweets_pk. cbn. repeat constructor; cbn; intuition discriminate.
  - right. left. reflexivity.
  - reflexivity.
  - reflexivity.
Defined.

(** X6. The not-found answers of like and unlike.  When no tweet has the
    given id and the id fits the 32-bit key column, [add_like] and
    [del_like] raise 404 "Tweet not found" after the one tweet lookup; when
    the id does not fit, the lookup itself fails with the database error and
    both raise it; when the tweet is stored but the caller has not liked it,
    [del_like] raises 404 "You haven't liked the article yet" after the
    tweet lookup and the like lookup.  Nothing is written in these cases. *)
Theorem like_not_found (user : Users.t) (id : Z) (w : World) :
  (tweet_exists (db w) id = false -> in_int32 id = true ->
   TweetServices.add_like user id w
   = (Raise (HTTPException 404 "Tweet not found"),
      traced w [tweet_repo_get_by_id id])
   /\ TweetServices.del_like user id w
      = (Raise (HTTPException 404 "Tweet not found"),
         traced w [tweet_repo_get_by_id id]))
  /\ (tweet_exists (db w) id = false -> in_int32 id = false ->
      TweetServices.add_like user id w
      = (Raise DBAPIError, traced w [tweet_repo_get_by_id id])
      /\ TweetServices.del_like user id w
         = (Raise DBAPIError, traced w [tweet_repo_get_by_id id]))
  /\ (forall t,
         tweets_pk (db w) -> In t (tweets (db w)) -> Tweets.id t = id ->
         liked (db w) id (Users.id user) = false ->
         TweetServices.del_like user id w
         = (Raise (HTTPException 404 "You haven't liked the article yet"),
            traced w [tweet_repo_get_by_id id;
                      like_repo_filter
                        [like_tweet_id_eq id;
                         like_user_id_eq (Users.id user)]])).
Proof.
  unfold TweetServices.add_like, TweetServices.del_like. split; [|split].
  - intros Hnone Hr.
    rewrite !(bind_ok _ _ _ _ _ (tweet_get_by_id_missing w id Hnone Hr)).
    split; reflexivity.
  - intros Hnone Hr.
    rewrite !(bind_raise _ _ _ _ _ (tweet_get_by_id_refused w id Hnone Hr)).
    split; reflexivity.
  - intros t Hpk Ht Hid Hnone. subst id.
    rewrite (bind_ok _ _ _ _ _ (tweet_get_by_id_found w t Hpk Ht)).
    cbn [truthy_opt negb]. unfold LikeRepository.filter. unfold_m.
    rewrite (likes_matching _ _ _ Hnone). cbn. rewrite <- app_assoc.
    reflexivity.
Qed.

Lemma like_not_found_witness :
  (TweetServices.add_like Ex.alice 9 Ex.social_world
   = (Raise (HTTPException 404 "Tweet not found"),
      traced Ex.social_world [tweet_repo_get_by_id 9])
   /\ TweetServices.del_like Ex.alice 9 Ex.social_world
      = (Raise (HTTPException 404 "Tweet not found"),
         traced Ex.social_world [tweet_repo_get_by_id 9]))
  /\ (TweetServices.add_like Ex.alice 2147483648 Ex.social_world
      = (Raise DBAPIError,
         traced Ex.social_world [tweet_repo_get_by_id 2147483648])
      /\ TweetServices.del_like Ex.alice 2147483648 Ex.social_world
         = (Raise DBAPIError,
            traced Ex.social_world [tweet_repo_get_by_id 2147483648]))
  /\ TweetServices.del_like Ex.bob 1 Ex.social_world
     = (Raise (HTTPException 404 "You haven't liked the article yet"),
        traced Ex.social_world
               [tweet_repo_get_by_id 1;
                like_repo_filter [like_tweet_id_eq 1; like_user_id_eq 2]]).
Proof.
  split; [|split].
  - apply (like_not_found Ex.alice 9 Ex.social_world); reflexivity.
  - apply (proj1 (proj2 (like_not_found Ex.alice 2147483648 Ex.social_world)));
      reflexivity.
  - apply (proj2 (proj2 (like_not_found Ex.bob 1 Ex.social_world)) Ex.bob_one).
    + unfold tweets_pk. cbn. repeat constructor; cbn; intuition discriminate.
    + left. reflexivity.
    + reflexivity.
    + reflexivity.
Defined.

(* ------------------------------------------------------------------ *)
(** ** Deleting a tweet: ownership and cascade *)

Lemma outerjoin_complete (ts : list Tweets.t) (ls : list Like.t) (t : Tweets.t) :
  In t ts -> exists l, In (t, l) (TweetRepository.outerjoin ts ls).
Proof.
  intros Ht. unfold TweetRepository.outerjoin.
  destruct (filter (fun l => Like.tweet_id l =? Tweets.id t) ls) as [|l m] eqn:E.
  - exists None. apply in_flat_map. exists t. split; [exact Ht|].
    rewrite E. left. reflexivity.
  - exists (Some l). apply in_flat_map. exists t. split; [exact Ht|].
    rewrite E. left. reflexivity.
Qed.

Lemma group_by_id_nil (rows : list (Tweets.t * option Like.t)) :
  TweetRepository.group_by_id [] rows = [] -> rows = [].
Proof.
  destruct rows as [|[t l] rows]; [reflexivity|]. cbn. discriminate.
Qed.

Lemma del_query_nil (d : DB) (user : Users.t) (id : Z) :
  TweetRepository.ordered_rows d (del_query user id) = []
  <-> (forall t, In t (tweets d) -> Tweets.id t = id ->
                 Tweets.user_id t <> Some (Users.id user)).
Proof.
  split.
  - intros Hnil t Ht Hid Hu.
    unfold TweetRepository.ordered_rows, del_query in Hnil.
    cbn [TweetRepository.order_by TweetRepository.kw
         TweetRepository.custom_filters] in Hnil.
    apply group_by_id_nil in Hnil.
    destruct (outerjoin_complete (tweets d) (likes d) t Ht) as [l Hl].
    assert (Hin : In (t, l)
                     (filter
                        (fun p =>
                           forallb (TweetRepository.holds (fst p))
                                   [tweet_pk_eq id;
                                    tweet_user_id_eq (Users.id user)]
                           && forallb (TweetRepository.eval (fst p)) [])
                        (TweetRepository.outerjoin (tweets d) (likes d)))).
    { apply filter_In. split; [exact Hl|]. cbn. rewrite Hid, Hu, !Z.eqb_refl.
      reflexivity. }
    rewrite Hnil in Hin. contradiction.
  - intros Hnone.
    destruct (TweetRepository.ordered_rows d (del_query user id))
      as [|t rows] eqn:E; [reflexivity|].
    assert (Ht : In t (TweetRepository.ordered_rows d (del_query user id)))
      by (rewrite E; left; reflexivity).
    apply del_query_In in Ht as (Hin & Hid & Hu).
    exfalso. exact (Hnone t Hin Hid Hu).
Qed.

(** X7. Only the owner deletes.  [del_tweet] raises 404 "Tweet not found or
    not owned by the user" exactly when no stored tweet has the given id and
    the caller as author -- the tweet is missing or is someone else's --
    and the id fits the 32-bit key column; when the id does not fit, the
    lookup fails with the database error instead.  In both cases
    [del_tweet] has issued the lookup only: no table and no file has
    changed. *)
Theorem del_tweet_owner_only
  (settings : Settings) (user : Users.t) (id : Z) (w : World) :
  (in_int32 id = true -> in_int32 (Users.id user) = true ->
   (forall t, In t (tweets (db w)) -> Tweets.id t = id ->
              Tweets.user_id t <> Some (Users.id user)) ->
   TweetServices.del_tweet settings user id w
   = (Raise (HTTPException 404 "Tweet not found or not owned by the user"),
      traced w [tweet_repo_filter
                  [tweet_pk_eq id; tweet_user_id_eq (Users.id user)]
                  None None]))
  /\ (forall detail,
         fst (TweetServices.del_tweet settings user id w)
         = Raise (HTTPException 404 detail) ->
         in_int32 id = true
         /\ forall t, In t (tweets (db w)) -> Tweets.id t = id ->
                      Tweets.user_id t <> Some (Users.id user))
  /\ (in_int32 id = false ->
      (forall t, In t (tweets (db w)) -> Tweets.id t = id ->
                 Tweets.user_id t <> Some (Users.id user)) ->
      TweetServices.del_tweet settings user id w
      = (Raise DBAPIError,
         traced w [tweet_repo_filter
                     [tweet_pk_eq id; tweet_user_id_eq (Users.id user)]
                     None None])).
Proof.
  rewrite del_tweet_run. split; [|split].
  - intros Hid Hu Hnone. apply del_query_nil in Hnone. rewrite Hnone.
    cbn [forallb]. rewrite Hid, Hu. reflexivity.
  - intros detail H.
    destruct (TweetRepository.ordered_rows (db w) (del_query user id))
      as [|t rows] eqn:Erows.
    + split; [|apply del_query_nil; exact Erows].
      cbn [forallb fst] in H. destruct (in_int32 id); [reflexivity|].
      discriminate H.
    + exfalso. unfold bind in H.
      destruct (for_each _ _ _) as [[r|e] w1] eqn:E; [discriminate H|].
      cbn in H. inversion H. subst e.
      apply reclaim_loop_raise in E as [E|[E|(path & E & _)]]; discriminate E.
  - intros Hid Hnone. apply del_query_nil in Hnone. rewrite Hnone.
    cbn [forallb]. rewrite Hid. reflexivity.
Qed.

Lemma del_tweet_owner_only_witness :
  TweetServices.del_tweet Ex.settings Ex.alice 1 Ex.social_world
  = (Raise (HTTPException 404 "Tweet not found or not owned by the user"),
     traced Ex.social_world
            [tweet_repo_filter [tweet_pk_eq 1; tweet_user_id_eq 1] None None])
  /\ TweetServices.del_tweet Ex.settings Ex.alice 2147483648 Ex.social_world
     = (Raise DBAPIError,
        traced Ex.social_world
               [tweet_repo_filter
                  [tweet_pk_eq 2147483648; tweet_user_id_eq 1] None None]).
Proof.
  split.
  - apply (proj1 (del_tweet_owner_only Ex.settings Ex.alice 1 Ex.social_world));
      [reflexivity|reflexivity|].
    intros t [<-|[<-|[<-|[<-|[]]]]] Hid; cbn in Hid |- *; discriminate.
  - apply (proj2 (proj2 (del_tweet_owner_only
                           Ex.settings Ex.alice 2147483648 Ex.social_world)));
      [reflexivity|].
    intros t [<-|[<-|[<-|[<-|[]]]]] Hid; cbn in Hid |- *; discriminate.
Defined.

(** X8. Cascade.  A [del_tweet] that returns answers [{"result": True}] and
    has removed the caller's tweet with that id together with every like of
    it; the likes of the other tweets, hence their like counts, the users
    and the follow edges are as before. *)
Theorem del_tweet_cascade
  (settings : Settings) (user : Users.t) (id : Z) (w w' : World)
  (r : GeneralAnswer) :
  TweetServices.del_tweet settings user id w = (Ok r, w') ->
  r = mkGeneralAnswer true
  /\ (exists t, In t (tweets (db w)) /\ Tweets.id t = id
                /\ Tweets.user_id t = Some (Users.id user))
  /\ tweets (db w')
     = filter (fun t => negb (Tweets.id t =? id)) (tweets (db w))
  /\ tweet_exists (db w') id = false
  /\ likes (db w')
     = filter (fun l => negb (Like.tweet_id l =? id)) (likes (db w))
  /\ (forall t', Tweets.id t' <> id ->
                 TweetRepository.likes_count (db w') t'
                 = TweetRepository.likes_count (db w) t')
  /\ users (db w') = users (db w)
  /\ followers (db w') = followers (db w).
Proof.
  intros H.
  assert (Hr : r = mkGeneralAnswer true).
  { rewrite del_tweet_run in H.
    destruct (TweetRepository.ordered_rows _ _);
      [destruct (forallb in_int32 _); discriminate|].
    unfold bind, ret in H.
    destruct (for_each _ _ _) as [[r0|e] w1]; [|discriminate].
    inversion H. reflexivity. }
  apply del_tweet_ok in H as (t & Hin & Hid & Hu & Hdb & _).
  split; [exact Hr|]. split; [exists t; auto|].
  rewrite Hdb. simpl_world. unfold without_tweet. simpl_world.
  split; [reflexivity|]. split; [|split; [reflexivity|split; [|split]]].
  - unfold tweet_exists. simpl_world. apply not_true_is_false. intros Hex.
    apply existsb_exists in Hex as (x & Hx & E).
    apply filter_In in Hx as [_ Hn]. rewrite E in Hn. discriminate.
  - intros t' Hne. unfold TweetRepository.likes_count. simpl_world.
    rewrite filter_filter_and. f_equal. f_equal. apply filter_ext. intros l.
    destruct (Z.eqb_spec (Like.tweet_id l) (Tweets.id t')) as [E|_];
      [|apply andb_false_r].
    rewrite andb_true_r. apply negb_true_iff. apply Z.eqb_neq. congruence.
  - reflexivity.
  - reflexivity.
Qed.

Lemma del_tweet_cascade_witness :
  exists w',
    TweetServices.del_tweet Ex.settings Ex.bob 1 Ex.social_world
    = (Ok (mkGeneralAnswer true), w')
    /\ tweets (db w') = [Ex.alice_one; Ex.carol_one; Ex.bob_two]
    /\ likes (db w') = [].
Proof.
  eexists. split; [vm_compute; reflexivity|].
  destruct (del_tweet_cascade
              Ex.settings Ex.bob 1 Ex.social_world _ _ eq_refl)
    as (_ & _ & Ht & _ & Hl & _).
  split; [exact Ht|exact Hl].
Defined.

(* ------------------------------------------------------------------ *)
(** ** Creating a tweet: no media, and what the count check decides *)

(** X9. A tweet without media.  When [tweet_media_ids] is [None] or the
    empty list, [add_new_tweet] issues no media query and stores no
    association: for a stored caller it appends one tweet (content and
    author as given, under a key no stored tweet has) and returns that key,
    the insert being the only store call; for a caller that is not stored
    the insert fails on the author's foreign key and nothing is stored. *)
Theorem add_new_tweet_without_media
  (user : Users.t) (tweet : TweetCreate) (w : World) :
  tweet_media_ids tweet = None \/ tweet_media_ids tweet = Some [] ->
  (user_exists (db w) (Users.id user) = true ->
   exists new_tweet w',
     TweetServices.add_new_tweet user tweet w
     = (Ok (mkTweetOut true (Tweets.id new_tweet)), w')
     /\ ~ In (Tweets.id new_tweet) (map Tweets.id (tweets (db w)))
     /\ Tweets.user_id new_tweet = Some (Users.id user)
     /\ Tweets.content new_tweet = Some (tweet_data tweet)
     /\ db w'
        = mkDB (users (db w)) (tweets (db w) ++ [new_tweet])
               (media (db w)) (tweet_media (db w)) (likes (db w))
               (followers (db w))
     /\ files w' = files w
     /\ trace w' = trace w ++ [tweet_repo_add])
  /\ (user_exists (db w) (Users.id user) = false ->
      TweetServices.add_new_tweet user tweet w
      = (Raise (IntegrityError "tweets_user_id_fkey"),
         traced w [tweet_repo_add])).
Proof.
  intros Hids.
  assert (Hstart : TweetServices.add_new_tweet user tweet w
                   = (new_tweet <- TweetRepository.add
                                     (Some (tweet_data tweet))
                                     (Some (Users.id user)) ;;
                      ret tt ;;;
                      ret (mkTweetOut true (Tweets.id new_tweet))) w).
  { unfold TweetServices.add_new_tweet.
    destruct Hids as [-> | ->]; reflexivity. }
  rewrite Hstart. unfold TweetRepository.add. unfold_m.
  split; intros Hu; rewrite Hu; [|reflexivity].
  eexists. eexists. split; [reflexivity|].
  cbn [Tweets.id Tweets.user_id Tweets.content]. simpl_world.
  split; [apply next_id_not_In|]. repeat split.
Qed.

Lemma add_new_tweet_without_media_witness :
  exists new_tweet w',
    TweetServices.add_new_tweet
      Ex.alice (mkTweetCreate "hello" (Some [])) Ex.social_world
    = (Ok (mkTweetOut true (Tweets.id new_tweet)), w')
    /\ ~ In (Tweets.id new_tweet) (map Tweets.id (tweets Ex.social_db))
    /\ Tweets.user_id new_tweet = Some 1
    /\ Tweets.content new_tweet = Some "hello"%string
    /\ db w'
       = mkDB (users Ex.social_db) (tweets Ex.social_db ++ [new_tweet])
              (media Ex.social_db) (tweet_media Ex.social_db)
              (likes Ex.social_db) (followers Ex.social_db)
    /\ files w' = []
    /\ trace w' = [tweet_repo_add].
Proof.
  apply (proj1 (add_new_tweet_without_media
                  Ex.alice (mkTweetCreate "hello" (Some [])) Ex.social_world
                  (or_intror eq_refl))).
  reflexivity.
Defined.





Lemma add_new_tweet_with_ids
  (user : Users.t) (tweet : TweetCreate) (ids : list Z) (w : World) :
  tweet_media_ids tweet = Some ids -> ids <> [] ->
  TweetServices.add_new_tweet user tweet w
  = if Z.of_nat (List.length (validated_media (db w) user ids))
       =? Z.of_nat (List.length ids)
    then
      (new_tweet <- TweetRepository.add (Some (tweet_data tweet))
                                        (Some (Users.id user)) ;;
       (if truthy (PyList (validated_media (db w) user ids))
        then
          TweetMediaRepository.add_all
            (map (fun m => (Tweets.id new_tweet, Media.id m))
                 (validated_media (db w) user ids))
        else ret tt) ;;;
       ret (mkTweetOut true (Tweets.id new_tweet)))
        (traced w [media_repo_filter])
    else (Raise (HTTPException 400 "Some media files not found or inaccessible"),
          traced w [media_repo_filter]).
Proof.
  intros Hids Hne. unfold TweetServices.add_new_tweet. rewrite Hids.
  destruct ids as [|i ids']; [contradiction|].
  unfold bind at 1. unfold bind at 1. rewrite media_filter_validated.
  unfold py_len. unfold bind at 1. unfold ret at 1.
  set (v := validated_media (db w) user (i :: ids')).
  destruct (Z.eqb_spec (Z.of_nat (List.length v))
                       (Z.of_nat (List.length (i :: ids')))) as [E|E].
  - cbn [negb]. unfold ret at 1. unfold py_iter.
    destruct (truthy (PyList v)); reflexivity.
  - reflexivity.
Qed.



(* ------------------------------------------------------------------ *)
(** ** Uploading a file *)

Lemma basename_no_sep (f : string) :
  os_path.has_sep f = false -> os_path.basename f = f.
Proof.
  destruct f as [|c r]; [reflexivity|]. cbn [os_path.has_sep os_path.basename].
  intros H. rewrite H. reflexivity.
Qed.

Lemma has_sep_app (s f : string) :
  os_path.has_sep (s ++ f) = os_path.has_sep s || os_path.has_sep f.
Proof.
  induction s as [|c r IH]; cbn; [reflexivity|].
  rewrite IH. apply orb_assoc.
Qed.

Lemma endswith_has_sep (s : string) :
  os_path.endswith_sep s = true -> os_path.has_sep s = true.
Proof.
  induction s as [|c r IH]; cbn [os_path.endswith_sep os_path.has_sep];
    [discriminate|].
  destruct r as [|c' r'].
  - intros ->. reflexivity.
  - intros H. rewrite (IH H). apply orb_true_r.
Qed.

(** [basename] undoes the prefixing of a separator-free name by a
    directory prefix. *)
Lemma basename_prefix (s f : string) :
  os_path.has_sep f = false -> dir_prefix s = true ->
  os_path.basename (s ++ f) = f.
Proof.
  intros Hf. induction s as [|c r IH]; intros Hs.
  - cbn. apply basename_no_sep. exact Hf.
  - cbn [dir_prefix os_path.endswith_sep] in Hs.
    cbn [append os_path.basename].
    destruct r as [|c' r'].
    + rewrite Hs. cbn. apply basename_no_sep. exact Hf.
    + assert (Hr : os_path.has_sep (String c' r' ++ f) = true).
      { rewrite has_sep_app, (endswith_has_sep _ Hs). reflexivity. }
      rewrite Hr, orb_true_r. apply IH. exact Hs.
Qed.

Lemma join_no_sep (a f : string) :
  os_path.has_sep f = false ->
  os_path.join a f
  = if dir_prefix a then (a ++ f)%string else (a ++ String os_path.sep f)%string.
Proof.
  intros Hf. unfold os_path.join, dir_prefix.
  assert (Hs : os_path.startswith_sep f = false).
  { destruct f as [|c r]; [reflexivity|]. cbn in Hf |- *.
    apply orb_false_iff in Hf. tauto. }
  rewrite Hs. destruct a; reflexivity.
Qed.

Lemma add_media_files_run (settings : Settings) (user : Users.t)
  (file : UploadFile) (dir : option string) (w : World) :
  TweetServices.add_media_files settings user file dir w
  = let files' :=
      if existsb (String.eqb (stored_path settings file dir)) (files w)
      then files w
      else files w ++ [stored_path settings file dir] in
    let trace' :=
      trace w ++ [file_write (stored_path settings file dir); media_repo_add] in
    match open_error w (stored_path settings file dir) with
    | Some e =>
        (Raise e, traced w [file_write (stored_path settings file dir)])
    | None =>
        if user_exists (db w) (Users.id user)
        then (Ok (mkMediaResponse
                    true (Media.id (new_media settings user file w))),
              mkWorld (mkDB (users (db w)) (tweets (db w))
                            (media (db w) ++ [new_media settings user file w])
                            (tweet_media (db w)) (likes (db w))
                            (followers (db w)))
                      files' (now w) trace' (open_error w))
        else (Raise (IntegrityError "media_user_id_fkey"),
              mkWorld (db w) files' (now w) trace' (open_error w))
    end.
Proof.
  unfold TweetServices.add_media_files, write_file, MediaRepository.add.
  unfold_m. fold (stored_name file). fold (stored_path settings file dir).
  destruct (open_error w (stored_path settings file dir)); [reflexivity|].
  simpl_world.
  destruct (user_exists (db w) (Users.id user)); cbn [negb]; simpl_world;
    rewrite <- app_assoc; reflexivity.
Qed.

(** X11. Uploading.  [add_media_files] opens [join(upload_dir, filename)]
    for writing (the default directory and the name "default_file.jpeg"
    standing in for missing ones) before it inserts anything.  When the file
    system refuses to open that path -- the name leads into a directory
    that does not exist, say -- the call raises the error of [open] and
    nothing is written or stored.  When the path can be opened, the file is
    there afterwards and no other file is lost: for a stored caller the call
    appends one media row, owned by the caller, with path
    [SAVE_PATH + filename], under a key no stored media row has, and
    returns that key; for a caller that is not stored the insert fails and
    the file stays on disk without a row.  When the upload went to the
    default directory, the name has no separator and [SAVE_PATH] is empty or
    ends with one, the file [del_tweet] would remove for the new row is the
    file written. *)
Theorem add_media_files_upload (settings : Settings) (user : Users.t)
  (file : UploadFile) (dir : option string) (w : World) :
  (forall e,
      open_error w (stored_path settings file dir) = Some e ->
      TweetServices.add_media_files settings user file dir w
      = (Raise e, traced w [file_write (stored_path settings file dir)]))
  /\ (open_error w (stored_path settings file dir) = None ->
      In (stored_path settings file dir)
         (files (snd (TweetServices.add_media_files settings user file dir w)))
      /\ (forall p, In p (files w) ->
                    In p (files (snd (TweetServices.add_media_files
                                        settings user file dir w))))
      /\ (user_exists (db w) (Users.id user) = true ->
          exists m,
            fst (TweetServices.add_media_files settings user file dir w)
            = Ok (mkMediaResponse true (Media.id m))
            /\ ~ In (Media.id m) (map Media.id (media (db w)))
            /\ Media.user_id m = Users.id user
            /\ Media.file_path m
               = Some (SAVE_PATH settings ++ stored_name file)%string
            /\ db (snd (TweetServices.add_media_files
                          settings user file dir w))
               = mkDB (users (db w)) (tweets (db w)) (media (db w) ++ [m])
                      (tweet_media (db w)) (likes (db w)) (followers (db w))
            /\ (dir = None -> os_path.has_sep (stored_name file) = false ->
                dir_prefix (SAVE_PATH settings) = true ->
                upload_path settings m
                = Some (stored_path settings file dir)))
      /\ (user_exists (db w) (Users.id user) = false ->
          fst (TweetServices.add_media_files settings user file dir w)
          = Raise (IntegrityError "media_user_id_fkey")
          /\ db (snd (TweetServices.add_media_files settings user file dir w))
             = db w)).
Proof.
  rewrite add_media_files_run. cbv zeta.
  split; [intros e ->; reflexivity|]. intros ->.
  assert (Hin : In (stored_path settings file dir)
                   (if existsb (String.eqb (stored_path settings file dir))
                               (files w)
                    then files w
                    else files w ++ [stored_path settings file dir])).
  { destruct (existsb _ (files w)) eqn:E.
    - apply existsb_exists in E as (p & Hp & E). apply String.eqb_eq in E.
      subst p. exact Hp.
    - apply in_or_app. right. left. reflexivity. }
  assert (Hkeep : forall p, In p (files w) ->
                            In p (if existsb
                                       (String.eqb (stored_path settings file dir))
                                       (files w)
                                  then files w
                                  else files w ++ [stored_path settings file dir])).
  { intros p Hp. destruct (existsb _ (files w)); [exact Hp|].
    apply in_or_app. left. exact Hp. }
  split; [destruct (user_exists _ _); exact Hin|].
  split; [destruct (user_exists _ _); exact Hkeep|].
  split; [|intros ->; split; reflexivity].
  intros ->. exists (new_media settings user file w).
  split; [reflexivity|]. split; [apply next_id_not_In|].
  split; [reflexivity|]. split; [reflexivity|]. split; [reflexivity|].
  intros -> Hname Hsave.
  unfold upload_path, new_media, stored_path. cbn [Media.file_path].
  rewrite (basename_prefix _ _ Hname Hsave). reflexivity.
Qed.

Lemma add_media_files_upload_witness :
  (exists m,
      fst (TweetServices.add_media_files
             Ex.settings Ex.alice (mkUploadFile (Some "cat.png"%string)) None
             Ex.social_world)
      = Ok (mkMediaResponse true (Media.id m))
      /\ ~ In (Media.id m) (map Media.id (media (db Ex.social_world)))
      /\ Media.user_id m = 1
      /\ Media.file_path m = Some "/media/cat.png"%string
      /\ db (snd (TweetServices.add_media_files
                    Ex.settings Ex.alice
                    (mkUploadFile (Some "cat.png"%string)) None
                    Ex.social_world))
         = mkDB (users Ex.social_db) (tweets Ex.social_db)
                (media Ex.social_db ++ [m])
                (tweet_media Ex.social_db) (likes Ex.social_db)
                (followers Ex.social_db)
      /\ upload_path Ex.settings m = Some "uploads/cat.png"%string)
  /\ fst (TweetServices.add_media_files
            Ex.settings (Users.mk 9 None None 0) (mkUploadFile None) None
            Ex.social_world)
     = Raise (IntegrityError "media_user_id_fkey")
  /\ In "uploads/default_file.jpeg"%string
        (files (snd (TweetServices.add_media_files
                       Ex.settings (Users.mk 9 None None 0) (mkUploadFile None)
                       None Ex.social_world)))
  /\ TweetServices.add_media_files
       Ex.settings Ex.alice (mkUploadFile (Some "sub/a.jpg"%string)) None
       Ex.flat_world
     = (Raise (FileNotFoundError (errno2 "uploads/sub/a.jpg")),
        traced Ex.flat_world [file_write "uploads/sub/a.jpg"%string]).
Proof.
  destruct (add_media_files_upload
              Ex.settings Ex.alice (mkUploadFile (Some "cat.png"%string)) None
              Ex.social_world) as (_ & Hopen).
  destruct (Hopen eq_refl) as (_ & _ & Hok & _).
  destruct (add_media_files_upload
              Ex.settings (Users.mk 9 None None 0) (mkUploadFile None) None
              Ex.social_world) as (_ & Hopen').
  destruct (Hopen' eq_refl) as (Hfile & _ & _ & Hfail).
  destruct (add_media_files_upload
              Ex.settings Ex.alice (mkUploadFile (Some "sub/a.jpg"%string))
              None Ex.flat_world) as (Hrefused & _).
  destruct (Hok eq_refl) as (m & Hid & Hfresh & Hown & Hp & Hdb & Hpath).
  split.
  { exists m. repeat (split; [assumption|]).
    apply Hpath; reflexivity. }
  split; [apply Hfail; reflexivity|].
  split; [exact Hfile|].
  apply Hrefused. reflexivity.
Defined.

(* ------------------------------------------------------------------ *)
(** ** Authentication *)

Lemma filter_single {A} (p : A -> bool) (l : list A) (x : A) :
  NoDup l -> In x l -> p x = true ->
  (forall y, In y l -> p y = true -> y = x) ->
  filter p l = [x].
Proof.
  induction l as [|a l IH]; intros Hnd Hin Hp Huniq; [contradiction|].
  apply NoDup_cons_iff in Hnd as [Hna Hnd]. cbn [filter].
  destruct Hin as [->|Hin].
  - rewrite Hp. f_equal. apply filter_none. intros y Hy.
    apply not_true_is_false. intros Hpy.
    assert (y = x) by (apply Huniq; [right; exact Hy|exact Hpy]).
    subst y. contradiction.
  - destruct (p a) eqn:Epa.
    + assert (a = x) by (apply Huniq; [left; reflexivity|exact Epa]).
      subst a. contradiction.
    + apply IH; try assumption.
      intros y Hy. apply Huniq. right. exact Hy.
Qed.

(** X12. Authentication.  [get_current_user] changes nothing.  What it
    returns is a stored user whose API key is the one presented; what it
    raises is 401 "Invalid API Key" or 500 "Internal server error" and
    nothing else (any failure of the lookup is turned into the 500).  It
    raises the 401 when no stored user has the key, and with unique user ids
    and unique API keys it returns the user who has it. *)
Theorem get_current_user_resolves (key : string) (w : World) :
  snd (get_current_user key w) = w
  /\ (forall u, fst (get_current_user key w) = Ok u ->
                In u (users (db w)) /\ Users.api_key u = Some key)
  /\ (forall e, fst (get_current_user key w) = Raise e ->
                e = HTTPException 401 "Invalid API Key"
                \/ e = HTTPException 500 "Internal server error")
  /\ ((forall u, In u (users (db w)) -> Users.api_key u <> Some key) ->
      fst (get_current_user key w) = Raise (HTTPException 401 "Invalid API Key"))
  /\ (users_pk (db w) -> api_key_unique (db w) ->
      forall u, In u (users (db w)) -> Users.api_key u = Some key ->
                fst (get_current_user key w) = Ok u).
Proof.
  unfold get_current_user, get_by_api_key, try_except. unfold_m.
  set (p := fun u => match Users.api_key u with
                     | Some k => String.eqb k key
                     | None => false
                     end).
  assert (Hp : forall u, p u = true <-> Users.api_key u = Some key).
  { intros u. unfold p. destruct (Users.api_key u) as [k|].
    - rewrite String.eqb_eq. split; [intros ->; reflexivity|congruence].
    - split; discriminate. }
  split; [|split; [|split; [|split]]].
  - destruct (filter p (users (db w))) as [|a [|b r]]; reflexivity.
  - intros u. destruct (filter p (users (db w))) as [|a [|b r]] eqn:E;
      cbn; intros H; inversion H. subst a.
    assert (Hin : In u (filter p (users (db w)))) by (rewrite E; left; reflexivity).
    apply filter_In in Hin as [Hin Hpu]. split; [exact Hin|]. apply Hp. exact Hpu.
  - intros e. destruct (filter p (users (db w))) as [|a [|b r]];
      cbn; intros H; inversion H; auto.
  - intros Hnone. rewrite filter_none; [reflexivity|].
    intros u Hu. apply not_true_is_false. intros Hpu.
    apply (Hnone u Hu). apply Hp. exact Hpu.
  - intros Hpk Huniq u Hu Hkey.
    rewrite (filter_single p (users (db w)) u); [reflexivity| | | |].
    + apply (NoDup_of_map Users.id). exact Hpk.
    + exact Hu.
    + apply Hp. exact Hkey.
    + intros y Hy Hpy. apply Hp in Hpy. eapply Huniq; eassumption.
Qed.

Lemma get_current_user_resolves_witness :
  fst (get_current_user "key-2" Ex.social_world) = Ok Ex.bob
  /\ fst (get_current_user "nobody" Ex.social_world)
     = Raise (HTTPException 401 "Invalid API Key").
Proof.
  destruct (get_current_user_resolves "key-2" Ex.social_world)
    as (_ & _ & _ & _ & Hok).
  destruct (get_current_user_resolves "nobody" Ex.social_world)
    as (_ & _ & _ & Hno & _).
  split.
  - apply Hok.
    + unfold users_pk. cbn. repeat constructor; cbn; intuition discriminate.
    + intros u v k Hu Hv Eu Ev. cbn in Hu, Hv.
      destruct Hu as [<-|[<-|[<-|[]]]]; destruct Hv as [<-|[<-|[<-|[]]]];
        cbn in Eu, Ev; first [reflexivity | congruence].
    + right. left. reflexivity.
    + reflexivity.
  - apply Hno. intros u [<-|[<-|[<-|[]]]]; cbn; discriminate.
Defined.

(* ------------------------------------------------------------------ *)
(** ** Profiles *)

Lemma basic_of_ok (x : option Users.t) (b : UserBasic) (w w' : World) :
  UserProfiles.basic_of x w = (Ok b, w') ->
  exists u, x = Some u /\ b = mkUserBasic (Users.id u) (Users.name u).
Proof.
  unfold UserProfiles.basic_of, attr. unfold_m.
  destruct x as [u|]; [|discriminate]. intros H. inversion H. eauto.
Qed.

Lemma stateless_basic_of (x : option Users.t) :
  stateless (UserProfiles.basic_of x).
Proof.
  unfold UserProfiles.basic_of.
  apply stateless_bind; [apply stateless_attr|intros u; apply stateless_ret].
Qed.

Lemma basics_ok (d : DB) (key : Follower.t -> Z) (rows : list Follower.t) :
  forall w bs w',
    map_M (fun f => UserProfiles.basic_of
                      (find (fun u => Users.id u =? key f) (users d)))
          rows w = (Ok bs, w') ->
    map basic_id bs = map key rows /\ Forall (shows_user d) bs.
Proof.
  induction rows as [|f rows IH]; intros w bs w' H; cbn [map_M] in H.
  - unfold ret in H. inversion H. split; [reflexivity|constructor].
  - unfold bind, ret in H.
    destruct (UserProfiles.basic_of _ w) as [[b|e] w1] eqn:Eb; [|discriminate].
    destruct (map_M _ rows w1) as [[bs'|e] w2] eqn:Em; [|discriminate].
    inversion H. subst. clear H.
    apply basic_of_ok in Eb as (u & Eu & ->).
    apply find_some in Eu as [Hin Eid]. apply Z.eqb_eq in Eid.
    apply IH in Em as [Hids Hall]. cbn [map basic_id]. split.
    + rewrite Eid, Hids. reflexivity.
    + constructor; [|exact Hall]. exists u. cbn. auto.
Qed.


(** The two lookups of a profile, run. *)
Lemma edges_of_run (id : Z) (w : World) :
  UserProfiles.edges_of id w
  = (followers <- map_M (fun f => UserProfiles.basic_of
                                    (UserProfiles.follower_of (db w) f))
                        (edges_to (db w) id) ;;
     followings <- map_M (fun f => UserProfiles.basic_of
                                     (UserProfiles.followee_of (db w) f))
                         (edges_from (db w) id) ;;
     ret (followers, followings))
      (traced w [follow_repo_filter [followee_id_eq id];
                 follow_repo_filter [follower_id_eq id]]).
Proof.
  unfold UserProfiles.edges_of, FollowerRepository.filter, scalars_all, py_iter,
    edges_to, edges_from.
  unfold_m. rewrite <- app_assoc. reflexivity.
Qed.

Lemma edges_of_ok (id : Z) (w w' : World)
  (lists : list UserBasic * list UserBasic) :
  UserProfiles.edges_of id w = (Ok lists, w') ->
  map basic_id (fst lists) = map Follower.follower_id (edges_to (db w) id)
  /\ map basic_id (snd lists) = map Follower.followee_id (edges_from (db w) id)
  /\ Forall (shows_user (db w)) (fst lists)
  /\ Forall (shows_user (db w)) (snd lists).
Proof.
  rewrite edges_of_run. unfold bind at 1.
  destruct (map_M _ (edges_to (db w) id) _) as [[fs|e] w1] eqn:E1;
    [|discriminate].
  unfold bind at 1.
  destruct (map_M _ (edges_from (db w) id) _) as [[gs|e] w2] eqn:E2;
    [|discriminate].
  unfold ret. intros H. inversion H. subst. cbn [fst snd].
  apply (basics_ok (db w) Follower.follower_id) in E1 as [H1 H1'].
  apply (basics_ok (db w) Follower.followee_id) in E2 as [H2 H2'].
  auto.
Qed.


Lemma user_get_by_id_inv (id : Z) (w w1 : World) (r : Result (option Users.t)) :
  UserRepository.get_by_id id w = (r, w1) ->
  w1 = traced w [user_repo_get_by_id id]
  /\ forall u, r = Ok (Some u) -> In u (users (db w)) /\ Users.id u = id.
Proof.
  unfold UserRepository.get_by_id. unfold_m.
  destruct (filter (fun x => Users.id x =? id) (users (db w)))
    as [|a [|b l]] eqn:Ef; unfold int32_params; cbn [forallb].
  - destruct (in_int32 id); cbn; intros H; inversion H;
      (split; [reflexivity|]); intros u Hu; discriminate Hu.
  - cbn. intros H. inversion H. split; [reflexivity|].
    intros u Hu. inversion Hu. subst a.
    assert (Hin : In u (filter (fun x => Users.id x =? id) (users (db w))))
      by (rewrite Ef; left; reflexivity).
    apply filter_In in Hin as [Hin E]. apply Z.eqb_eq in E. split; assumption.
  - cbn. intros H. inversion H. split; [reflexivity|].
    intros u Hu. discriminate Hu.
Qed.

Lemma get_user_data_by_id_ok (id : Z) (w w' : World) (resp : UserResponse) :
  UserProfiles.get_user_data_by_id id w = (Ok resp, w') ->
  user_response_result resp = true
  /\ details_user_id (user_details resp) = id
  /\ map basic_id (profile_followers (user_details resp))
     = map Follower.follower_id (edges_to (db w) id)
  /\ map basic_id (profile_following (user_details resp))
     = map Follower.followee_id (edges_from (db w) id)
  /\ Forall (shows_user (db w)) (profile_followers (user_details resp))
  /\ Forall (shows_user (db w)) (profile_following (user_details resp)).
Proof.
  unfold UserProfiles.get_user_data_by_id. unfold bind at 1.
  destruct (UserRepository.get_by_id id w) as [[[u|]|e] w1] eqn:Eu;
    try discriminate.
  apply user_get_by_id_inv in Eu as [Hw1 Hu].
  assert (Hdb : db w1 = db w) by (subst w1; reflexivity).
  destruct (Hu u eq_refl) as [_ Hid].
  unfold bind.
  destruct (UserProfiles.edges_of id w1) as [[lists|e] w2] eqn:El;
    [|discriminate].
  apply edges_of_ok in El. rewrite Hdb in El.
  unfold ret. intros H. inversion H. subst resp. cbn. tauto.
Qed.


Lemma edges_from_followee (d : DB) (u v : Z) :
  In v (map Follower.followee_id (edges_from d u)) <-> followsb d u v = true.
Proof.
  unfold edges_from, followsb, FollowerRepository.matches. split.
  - intros H. apply in_map_iff in H as (f & Ef & Hf).
    apply filter_In in Hf as [Hf Hm]. cbn in Hm. rewrite andb_true_r in Hm.
    apply existsb_exists. exists f. split; [exact Hf|].
    rewrite Hm. apply Z.eqb_eq. exact Ef.
  - intros H. apply existsb_exists in H as (f & Hf & E).
    apply andb_true_iff in E as [E1 E2]. apply Z.eqb_eq in E2.
    apply in_map_iff. exists f. split; [exact E2|].
    apply filter_In. split; [exact Hf|]. cbn. rewrite E1. reflexivity.
Qed.

Lemma edges_to_follower (d : DB) (u v : Z) :
  In u (map Follower.follower_id (edges_to d v)) <-> followsb d u v = true.
Proof.
  unfold edges_to, followsb, FollowerRepository.matches. split.
  - intros H. apply in_map_iff in H as (f & Ef & Hf).
    apply filter_In in Hf as [Hf Hm]. cbn in Hm. rewrite andb_true_r in Hm.
    apply existsb_exists. exists f. split; [exact Hf|].
    rewrite Hm, andb_true_r. apply Z.eqb_eq. exact Ef.
  - intros H. apply existsb_exists in H as (f & Hf & E).
    apply andb_true_iff in E as [E1 E2]. apply Z.eqb_eq in E1.
    apply in_map_iff. exists f. split; [exact E1|].
    apply filter_In. split; [exact Hf|]. cbn. rewrite E2. reflexivity.
Qed.

(** X14. Profiles mirror each other.  When the profiles of [u] and of [v]
    are both served from the same database, [v] is listed under [following]
    in the profile of [u] exactly when [u] is listed under [followers] in
    the profile of [v], and exactly when the edge from [u] to [v] is
    stored. *)
Theorem profiles_mirror (u v : Z) (w wu wv : World) (ru rv : UserResponse) :
  UserProfiles.get_user_data_by_id u w = (Ok ru, wu) ->
  UserProfiles.get_user_data_by_id v w = (Ok rv, wv) ->
  (In v (map basic_id (profile_following (user_details ru)))
   <-> followsb (db w) u v = true)
  /\ (In u (map basic_id (profile_followers (user_details rv)))
      <-> followsb (db w) u v = true)
  /\ (In v (map basic_id (profile_following (user_details ru)))
      <-> In u (map basic_id (profile_followers (user_details rv)))).
Proof.
  intros Hu Hv.
  apply get_user_data_by_id_ok in Hu as (_ & _ & _ & Hu & _).
  apply get_user_data_by_id_ok in Hv as (_ & _ & Hv & _).
  rewrite Hu, Hv.
  pose proof (edges_from_followee (db w) u v) as H1.
  pose proof (edges_to_follower (db w) u v) as H2.
  tauto.
Qed.

Lemma profiles_mirror_witness :
  exists ru rv wu wv,
    UserProfiles.get_user_data_by_id 1 Ex.social_world = (Ok ru, wu)
    /\ UserProfiles.get_user_data_by_id 2 Ex.social_world = (Ok rv, wv)
    /\ (In 2 (map basic_id (profile_following (user_details ru)))
        <-> followsb (db Ex.social_world) 1 2 = true)
    /\ (In 1 (map basic_id (profile_followers (user_details rv)))
        <-> followsb (db Ex.social_world) 1 2 = true)
    /\ (In 2 (map basic_id (profile_following (user_details ru)))
        <-> In 1 (map basic_id (profile_followers (user_details rv)))).
Proof.
  eexists. eexists. eexists. eexists.
  split; [reflexivity|]. split; [reflexivity|].
  eapply (profiles_mirror 1 2 Ex.social_world); reflexivity.
Defined.

Lemma edges_of_result (id : Z) (w1 w2 : World) :
  db w1 = db w2 ->
  fst (UserProfiles.edges_of id w1) = fst (UserProfiles.edges_of id w2).
Proof.
  intros Hdb. rewrite !edges_of_run. rewrite Hdb.
  match goal with
  | |- fst (?m _) = fst (?m _) => assert (Hs : stateless m)
  end.
  { apply stateless_bind;
      [apply stateless_map_M; intros f; apply stateless_basic_of|].
    intros fs. apply stateless_bind;
      [apply stateless_map_M; intros f; apply stateless_basic_of|].
    intros gs. apply stateless_ret. }
  destruct Hs as [r Hr]. rewrite !Hr. reflexivity.
Qed.

(** X15. One's own profile is the profile served for one's id.  For a
    caller stored in the database, whose id is a primary key,
    [get_my_data] and [get_user_data_by_id] at the caller's id give the
    same outcome, and [get_my_data] makes the two edge queries only. *)
Theorem own_profile_is_profile_by_id (user : Users.t) (w : World) :
  users_pk (db w) -> In user (users (db w)) ->
  fst (UserProfiles.get_my_data user w)
  = fst (UserProfiles.get_user_data_by_id (Users.id user) w)
  /\ trace (snd (UserProfiles.get_my_data user w))
     = trace w ++ [follow_repo_filter [followee_id_eq (Users.id user)];
                   follow_repo_filter [follower_id_eq (Users.id user)]].
Proof.
  intros Hpk Hin. split.
  - unfold UserProfiles.get_user_data_by_id.
    rewrite (bind_ok _ _ _ _ _ (user_get_by_id_found w user Hpk Hin)).
    unfold UserProfiles.get_my_data.
    pose proof (edges_of_result
                  (Users.id user) w
                  (traced w [user_repo_get_by_id (Users.id user)])
                  eq_refl) as E.
    unfold bind, ret.
    destruct (UserProfiles.edges_of (Users.id user) w) as [[l1|e1] w1];
      destruct (UserProfiles.edges_of (Users.id user) (traced w _))
      as [[l2|e2] w2]; cbn [fst] in E |- *; congruence.
  - unfold UserProfiles.get_my_data. unfold bind at 1.
    rewrite edges_of_run.
    match goal with
    | |- context [?m (traced w ?t)] =>
        assert (Hs : stateless m)
    end.
    { apply stateless_bind;
        [apply stateless_map_M; intros f; apply stateless_basic_of|].
      intros fs. apply stateless_bind;
        [apply stateless_map_M; intros f; apply stateless_basic_of|].
      intros gs. apply stateless_ret. }
    destruct Hs as [r Hr]. rewrite Hr. destruct r; reflexivity.
Qed.

Lemma own_profile_is_profile_by_id_witness :
  fst (UserProfiles.get_my_data Ex.bob Ex.social_world)
  = fst (UserProfiles.get_user_data_by_id (Users.id Ex.bob) Ex.social_world)
  /\ trace (snd (UserProfiles.get_my_data Ex.bob Ex.social_world))
     = trace Ex.social_world
       ++ [follow_repo_filter [followee_id_eq (Users.id Ex.bob)];
           follow_repo_filter [follower_id_eq (Users.id Ex.bob)]].
Proof.
  apply (own_profile_is_profile_by_id Ex.bob Ex.social_world).
  - unfold users_pk. cbn. repeat constructor; cbn; intuition discriminate.
  - right. left. reflexivity.
Defined.

(* ------------------------------------------------------------------ *)
(** ** The feed *)

(** X16. A page is a slice of the whole feed.  Suppose no two tweets
    visible to the caller tie on both sort keys, so that the order of the
    feed is determined.  When the feed without limit and offset is served,
    every request whose [LIMIT] and computed [OFFSET] are in the range the
    database accepts is served as well, and its tweets are those of the
    whole feed after the offset, up to the limit: for [limit] and page
    [offset] together, the [limit] tweets that follow the first
    [(offset - 1) * limit]; for an offset alone, the tweets after the first
    [offset]; for a limit alone, the first [limit] tweets. *)
Theorem feed_page_is_slice (user : Users.t) (limit offset : option Z)
  (w w1 : World) (all : TweetResponse) :
  feed_untied (db w) user ->
  TweetServices.get_tweets user None None w = (Ok all, w1) ->
  (forall page w2,
      TweetServices.get_tweets user limit offset w = (Ok page, w2) ->
      tweets_list page
      = page_of limit (TweetServices.page_offset limit offset)
                (tweets_list all))
  /\ (out_of_range limit (TweetServices.page_offset limit offset) = false ->
      fst (TweetServices.get_tweets user limit offset w)
      = Ok (mkTweetResponse
              true
              (page_of limit (TweetServices.page_offset limit offset)
                       (tweets_list all))))
  /\ (forall n p,
         limit = Some n -> offset = Some p ->
         page_of limit (TweetServices.page_offset limit offset)
                 (tweets_list all)
         = firstn (Z.to_nat n)
                  (skipn (Z.to_nat ((p - 1) * n)) (tweets_list all))).
Proof.
  intros _ Hall. apply get_tweets_rows in Hall as [_ Hall].
  cbn [TweetServices.page_offset page_of] in Hall.
  assert (Hrun :
           out_of_range limit (TweetServices.page_offset limit offset) = false ->
           fst (TweetServices.get_tweets user limit offset w)
           = Ok (mkTweetResponse
                   true
                   (page_of limit (TweetServices.page_offset limit offset)
                            (tweets_list all)))).
  { intros Hr. rewrite get_tweets_cases, Hr. unfold bind.
    rewrite (map_M_of_Forall2
               TweetServices.tweet_dict _
               (page_of limit (TweetServices.page_offset limit offset)
                        (tweets_list all))).
    - reflexivity.
    - apply Forall2_map_l. apply Forall2_page_of. exact Hall. }
  split; [|split].
  - intros page w2 Hpage.
    pose proof (get_tweets_rows _ _ _ _ _ _ Hpage) as [Hr _].
    specialize (Hrun Hr). rewrite Hpage in Hrun. cbn [fst] in Hrun.
    inversion Hrun. reflexivity.
  - exact Hrun.
  - intros n p -> ->. reflexivity.
Qed.

Lemma feed_page_is_slice_witness :
  exists all w1,
    TweetServices.get_tweets Ex.alice None None Ex.social_world = (Ok all, w1)
    /\ map details_id (tweets_list all) = [1; 4; 2]
    /\ (forall page w2,
           TweetServices.get_tweets Ex.alice (Some 1) (Some 2) Ex.social_world
           = (Ok page, w2) ->
           tweets_list page
           = page_of (Some 1)
                     (TweetServices.page_offset (Some 1) (Some 2))
                     (tweets_list all))
    /\ (out_of_range (Some 1) (TweetServices.page_offset (Some 1) (Some 2))
        = false ->
        fst (TweetServices.get_tweets Ex.alice (Some 1) (Some 2) Ex.social_world)
        = Ok (mkTweetResponse
                true
                (page_of (Some 1)
                         (TweetServices.page_offset (Some 1) (Some 2))
                         (tweets_list all))))
    /\ (forall n p,
           Some 1 = Some n -> Some 2 = Some p ->
           page_of (Some 1) (TweetServices.page_offset (Some 1) (Some 2))
                   (tweets_list all)
           = firstn (Z.to_nat n)
                    (skipn (Z.to_nat ((p - 1) * n)) (tweets_list all))).
Proof.
  eexists. eexists. split; [reflexivity|]. split; [reflexivity|].
  eapply (feed_page_is_slice Ex.alice (Some 1) (Some 2) Ex.social_world).
  - intros a b Ha Hb Va Vb Hne. cbn in Ha, Hb.
    destruct Ha as [<-|[<-|[<-|[<-|[]]]]];
      destruct Hb as [<-|[<-|[<-|[<-|[]]]]];
      try (exfalso; apply Hne; reflexivity);
      try discriminate Va; try discriminate Vb;
      unfold feed_gt;
      first [ left; left; reflexivity
            | left; right; split; reflexivity
            | right; left; reflexivity
            | right; right; split; reflexivity ].
  - reflexivity.
Defined.

Lemma map_M_raises {A B} (f : A -> M B) (l : list A) (e : Exception) :
  forall w w',
    map_M f l w = (Raise e, w') ->
    exists x, In x l /\ exists w1 w2, f x w1 = (Raise e, w2).
Proof.
  induction l as [|x l IH]; intros w w' H; cbn [map_M] in H.
  - discriminate.
  - unfold bind, ret in H.
    destruct (f x w) as [[y|e1] w1] eqn:Ex.
    + destruct (map_M f l w1) as [[ys|e2] w2] eqn:El; [discriminate|].
      inversion H. subst. apply IH in El as (z & Hz & Hr).
      exists z. split; [right; exact Hz|exact Hr].
    + inversion H. subst. exists x. split; [left; reflexivity|eauto].
Qed.

Lemma attr_map_raises {A B C} (g : A -> option B) (h : A -> B -> C)
  (l : list A) (e : Exception) (w w' : World) :
  map_M (fun x => a <- attr (g x) ;; ret (h x a)) l w = (Raise e, w') ->
  e = AttributeError.
Proof.
  intros H. apply map_M_raises in H as (x & _ & w1 & w2 & H).
  unfold bind, attr, ret, raise in H.
  destruct (g x); inversion H. reflexivity.
Qed.

(** A relationship that is not loaded is the one failure of [tweet_dict]. *)
Lemma tweet_dict_raises (o : TweetObj.t) (e : Exception) (w w' : World) :
  TweetServices.tweet_dict o w = (Raise e, w') -> e = AttributeError.
Proof.
  unfold TweetServices.tweet_dict. unfold bind at 1.
  destruct (map_M _ (TweetObj.media o) w) as [[atts|e1] w1] eqn:E1.
  - unfold bind at 1.
    destruct (map_M _ (TweetObj.likes o) w1) as [[lks|e2] w2] eqn:E2.
    + unfold bind, attr, ret, raise.
      destruct (TweetObj.author o); intros H; inversion H. reflexivity.
    + intros H. inversion H. subst.
      exact (attr_map_raises _ _ _ _ _ _ E2).
  - intros H. inversion H. subst.
    exact (attr_map_raises _ _ _ _ _ _ E1).
Qed.

(** X17. Pages out of range.  [get_tweets] raises the database error of an
    [OFFSET] or [LIMIT] that is negative or beyond the 64-bit range, after
    its two queries and without writing, exactly when the limit or the
    computed offset is such; no other failure of it is a database error.  So
    a positive limit with a page below 1, any negative limit, and any limit
    or product [(page - 1) * limit] above [max_int64] are database errors,
    while limit 0 serves the empty list whatever the page. *)
Theorem feed_page_out_of_range (user : Users.t) (w : World) :
  (forall limit offset,
      fst (TweetServices.get_tweets user limit offset w) = Raise DBAPIError
      <-> out_of_range limit (TweetServices.page_offset limit offset) = true)
  /\ (forall limit offset,
         out_of_range limit (TweetServices.page_offset limit offset) = true ->
         TweetServices.get_tweets user limit offset w
         = (Raise DBAPIError,
            traced w [follow_repo_filter [follower_id_eq (Users.id user)];
                      tweet_repo_filter
                        [] limit (TweetServices.page_offset limit offset)]))
  /\ (forall n p,
         0 < n -> p < 1 ->
         fst (TweetServices.get_tweets user (Some n) (Some p) w)
         = Raise DBAPIError)
  /\ (forall n offset,
         n < 0 ->
         fst (TweetServices.get_tweets user (Some n) offset w)
         = Raise DBAPIError)
  /\ (forall n offset,
         max_int64 < n ->
         fst (TweetServices.get_tweets user (Some n) offset w)
         = Raise DBAPIError)
  /\ (forall n p,
         max_int64 < (p - 1) * n ->
         fst (TweetServices.get_tweets user (Some n) (Some p) w)
         = Raise DBAPIError)
  /\ fst (TweetServices.get_tweets user (Some 2) (Some 9223372036854775808) w)
     = Raise DBAPIError
  /\ (forall p,
         fst (TweetServices.get_tweets user (Some 0) (Some p) w)
         = Ok (mkTweetResponse true [])).
Proof.
  assert (Hraise :
           forall limit offset,
             out_of_range limit (TweetServices.page_offset limit offset) = true ->
             TweetServices.get_tweets user limit offset w
             = (Raise DBAPIError,
                traced w [follow_repo_filter [follower_id_eq (Users.id user)];
                          tweet_repo_filter
                            [] limit (TweetServices.page_offset limit offset)])).
  { intros limit offset Hr. rewrite get_tweets_cases, Hr. reflexivity. }
  assert (Hbig : forall n p,
             max_int64 < (p - 1) * n ->
             fst (TweetServices.get_tweets user (Some n) (Some p) w)
             = Raise DBAPIError).
  { intros n p Hp. rewrite Hraise; [reflexivity|].
    unfold out_of_range. cbn [TweetServices.page_offset].
    destruct (Z.ltb_spec max_int64 ((p - 1) * n)) as [_|Hge]; [|lia].
    rewrite orb_true_r. reflexivity. }
  split; [|split; [exact Hraise|split; [|split; [|split; [|split; [|split]]]]]].
  - intros limit offset. split.
    + rewrite get_tweets_cases.
      destruct (out_of_range _ _); [reflexivity|].
      unfold bind.
      destruct (map_M _ _ _) as [[tl|e] w1] eqn:Em; cbn [fst ret].
      * discriminate.
      * intros H. inversion H. subst e. exfalso.
        apply map_M_raises in Em as (o & _ & w2 & w3 & Eo).
        apply tweet_dict_raises in Eo. discriminate.
    + intros Hr. rewrite (Hraise _ _ Hr). reflexivity.
  - intros n p Hn Hp. rewrite Hraise; [reflexivity|].
    unfold out_of_range. cbn [TweetServices.page_offset].
    destruct (Z.ltb_spec ((p - 1) * n) 0) as [_|Hge]; [reflexivity|nia].
  - intros n offset Hn. rewrite Hraise; [reflexivity|].
    unfold out_of_range.
    destruct (Z.ltb_spec n 0) as [_|Hge]; [apply orb_true_r|lia].
  - intros n offset Hn. rewrite Hraise; [reflexivity|].
    unfold out_of_range.
    destruct (Z.ltb_spec max_int64 n) as [_|Hge]; [|lia].
    rewrite !orb_true_r. reflexivity.
  - exact Hbig.
  - apply Hbig. reflexivity.
  - intros p. rewrite get_tweets_cases.
    unfold out_of_range. cbn [TweetServices.page_offset].
    replace ((p - 1) * 0) with 0 by lia. reflexivity.
Qed.





(* ------------------------------------------------------------------ *)
(** ** Writes seen through the feed *)

Lemma add_subscribe_inv (user : Users.t) (v : Z) (w w1 : World)
  (r : GeneralAnswer) :
  UserServices.add_subscribe user v w = (Ok r, w1) ->
  v <> Users.id user
  /\ users (db w1) = users (db w) /\ tweets (db w1) = tweets (db w)
  /\ likes (db w1) = likes (db w)
  /\ followers (db w1)
     = followers (db w) ++ [new_edge w (Users.id user) v].
Proof.
  unfold UserServices.add_subscribe, UserRepository.get_by_id,
    FollowerRepository.add, new_edge.
  destruct (Z.eqb_spec v (Users.id user)) as [E|Hne]; [discriminate|].
  unfold_m.
  destruct (filter _ (users (db w))) as [|a [|b l]];
    [unfold int32_params; cbn [forallb]; destruct (in_int32 v); discriminate
    | |discriminate].
  cbn.
  destruct (existsb _ (followers (db w))); [discriminate|].
  destruct (negb (user_exists (db w) (Users.id user))); [discriminate|].
  destruct (negb (user_exists (db w) v)); [discriminate|].
  intros H. inversion H. cbn. auto.
Qed.

Lemma delete_subscribe_inv (user : Users.t) (v : Z) (w w1 : World)
  (r : GeneralAnswer) :
  UserServices.delete_subscribe user v w = (Ok r, w1) ->
  v <> Users.id user
  /\ users (db w1) = users (db w) /\ tweets (db w1) = tweets (db w)
  /\ likes (db w1) = likes (db w)
  /\ exists f,
      In f (followers (db w))
      /\ Follower.follower_id f = Users.id user
      /\ Follower.followee_id f = v
      /\ followers (db w1)
         = filter (fun x => negb (Follower.id x =? Follower.id f))
                  (followers (db w)).
Proof.
  unfold UserServices.delete_subscribe, UserRepository.get_by_id,
    FollowerRepository.get_subscribe, FollowerRepository.delete.
  destruct (Z.eqb_spec v (Users.id user)) as [E|Hne]; [discriminate|].
  unfold_m.
  destruct (filter _ (users (db w))) as [|a [|b l]];
    [unfold int32_params; cbn [forallb]; destruct (in_int32 v); discriminate
    | |discriminate].
  cbn.
  destruct (filter _ (followers (db w))) as [|f [|g l]] eqn:Ef;
    cbn; try discriminate.
  intros H. inversion H. cbn.
  assert (Hin : In f (filter (FollowerRepository.matches
                                [follower_id_eq (Users.id user);
                                 followee_id_eq v])
                             (followers (db w))))
    by (rewrite Ef; left; reflexivity).
  apply filter_In in Hin as [Hin Hm].
  unfold FollowerRepository.matches in Hm. cbn in Hm.
  rewrite andb_true_r in Hm. apply andb_true_iff in Hm as [Hm1 Hm2].
  apply Z.eqb_eq in Hm1, Hm2.
  repeat split; try assumption. exists f. auto.
Qed.

(** X19. Following opens the feed, unfollowing closes it.  Let [t] be a
    stored tweet of the author [v], tweet ids being unique.  Once
    [add_subscribe] of the caller on [v] has succeeded, [t] is in the
    caller's whole feed.  Once [delete_subscribe] of the caller on [v] has
    succeeded, an edge being stored once at most, [t] is on no page of the
    caller's feed. *)
Theorem follow_controls_feed (user : Users.t) (v : Z) (t : Tweets.t)
  (w : World) :
  tweets_pk (db w) -> In t (tweets (db w)) -> Tweets.user_id t = Some v ->
  (forall r w1 resp w2,
      UserServices.add_subscribe user v w = (Ok r, w1) ->
      TweetServices.get_tweets user None None w1 = (Ok resp, w2) ->
      In (Tweets.id t) (map details_id (tweets_list resp)))
  /\ (unique_follower_followee (db w) ->
      forall r w1 limit offset resp w2,
        UserServices.delete_subscribe user v w = (Ok r, w1) ->
        TweetServices.get_tweets user limit offset w1 = (Ok resp, w2) ->
        ~ In (Tweets.id t) (map details_id (tweets_list resp))).
Proof.
  intros Hpk Hin Hv. split.
  - intros r w1 resp w2 Hadd Hfeed.
    apply add_subscribe_inv in Hadd as (Hne & _ & Ht & _ & Hf).
    rewrite (feed_ids _ _ _ _ _ _ Hfeed).
    cbn [TweetServices.page_offset page_of].
    apply in_map. apply feed_rows_iff.
    + unfold tweets_pk. rewrite Ht. exact Hpk.
    + rewrite Ht. split; [exact Hin|].
      exists v. split; [exact Hv|]. right.
      exists (new_edge w (Users.id user) v). rewrite Hf.
      split; [apply in_or_app; right; left; reflexivity|].
      split; reflexivity.
  - intros Hu r w1 limit offset resp w2 Hdel Hfeed Hshown.
    apply delete_subscribe_inv in Hdel
        as (Hne & _ & Ht & _ & f & Hf & Hf1 & Hf2 & Hfs).
    rewrite (feed_ids _ _ _ _ _ _ Hfeed) in Hshown.
    apply in_map_iff in Hshown as (t' & Eid & Ht').
    apply page_of_In in Ht'.
    assert (Hpk1 : tweets_pk (db w1)) by (unfold tweets_pk; rewrite Ht; exact Hpk).
    apply (feed_rows_iff _ _ _ Hpk1) in Ht' as (Hin' & a & Ha & Hvis).
    rewrite Ht in Hin'.
    assert (t' = t) by (exact (NoDup_map_eq Tweets.id _ _ _ Hpk Hin' Hin Eid)).
    subst t'. rewrite Hv in Ha. inversion Ha. subst a.
    destruct Hvis as [E|(g & Hg & Hg1 & Hg2)]; [contradiction|].
    rewrite Hfs in Hg. apply filter_In in Hg as [Hg Hgid].
    assert (g = f).
    { apply (NoDup_map_eq
               (fun f => (Follower.follower_id f, Follower.followee_id f))
               _ _ _ Hu Hg Hf).
      cbn beta. congruence. }
    subst g. rewrite Z.eqb_refl in Hgid. discriminate.
Qed.

Lemma follow_controls_feed_witness :
  (exists r w1 resp w2,
      UserServices.add_subscribe Ex.bob 1 Ex.social_world = (Ok r, w1)
      /\ TweetServices.get_tweets Ex.bob None None w1 = (Ok resp, w2)
      /\ In (Tweets.id Ex.alice_one) (map details_id (tweets_list resp)))
  /\ (exists r w1 resp w2,
         UserServices.delete_subscribe Ex.alice 2 Ex.social_world = (Ok r, w1)
         /\ TweetServices.get_tweets Ex.alice None None w1 = (Ok resp, w2)
         /\ ~ In (Tweets.id Ex.bob_one) (map details_id (tweets_list resp))).
Proof.
  split.
  - eexists. eexists. eexists. eexists.
    split; [reflexivity|]. split; [reflexivity|].
    eapply (proj1 (follow_controls_feed Ex.bob 1 Ex.alice_one Ex.social_world
                                        ltac:(solve_pk)
                                        (or_intror (or_introl eq_refl))
                                        eq_refl));
      reflexivity.
  - eexists. eexists. eexists. eexists.
    split; [reflexivity|]. split; [reflexivity|].
    assert (Hu : unique_follower_followee (db Ex.social_world)).
    { unfold unique_follower_followee. cbn.
      repeat constructor; cbn; intuition discriminate. }
    eapply (proj2 (follow_controls_feed Ex.alice 2 Ex.bob_one Ex.social_world
                                        ltac:(solve_pk)
                                        (or_introl eq_refl)
                                        eq_refl)
                  Hu _ _ None None);
      reflexivity.
Defined.


Lemma filter_keep_all {A} (p : A -> bool) (l : list A) :
  (forall x, In x l -> p x = true) -> filter p l = l.
Proof.
  induction l as [|a l IH]; intros H; cbn; [reflexivity|].
  rewrite (H a (or_introl eq_refl)). f_equal. apply IH.
  intros x Hx. apply H. right. exact Hx.
Qed.



Lemma Forall2_map_r_eq {A B C} (f : A -> C) (g : B -> C) (l : list A)
  (ys : list B) :
  Forall2 (fun x y => g y = f x) l ys -> map g ys = map f l.
Proof.
  induction 1 as [|x y l ys E _ IH]; [reflexivity|].
  cbn [map]. rewrite E, IH. reflexivity.
Qed.




(* ------------------------------------------------------------------ *)
(** ** Upload, post, delete *)

(** No row refers to the key the next insert will take. *)
Lemma fresh_unreferenced {A B} (key : B -> Z) (ref : A -> Z) (tbl : list B)
  (l : list A) :
  (forall x, In x l -> existsb (fun y => key y =? ref x) tbl = true) ->
  forall x, In x l -> (ref x =? next_id (map key tbl)) = false.
Proof.
  intros Hfk x Hx. apply Z.eqb_neq. intros E.
  apply (next_id_not_In key tbl). rewrite <- E.
  pose proof (Hfk x Hx) as Hex.
  apply existsb_exists in Hex as (y & Hy & Ey). apply Z.eqb_eq in Ey.
  rewrite <- Ey. apply in_map. exact Hy.
Qed.

Lemma filter_fresh_keep {A} (p : A -> bool) (l : list A) :
  (forall x, In x l -> p x = false) -> filter (fun x => negb (p x)) l = l.
Proof.
  intros H. apply filter_keep_all. intros x Hx. rewrite (H x Hx). reflexivity.
Qed.

Lemma existsb_none {A} (p : A -> bool) (l : list A) :
  (forall x, In x l -> p x = false) -> existsb p l = false.
Proof.
  intros H. apply not_true_is_false. intros E.
  apply existsb_exists in E as (x & Hx & Ex). rewrite (H x Hx) in Ex.
  discriminate.
Qed.

Lemma validated_single (d : DB) (user : Users.t) (m : Media.t) :
  media_pk d -> In m (media d) -> Media.user_id m = Users.id user ->
  validated_media d user [Media.id m] = [m].
Proof.
  intros Hpk Hin Hu. unfold validated_media.
  rewrite (filter_ext _ (fun x => (Media.id x =? Media.id m)
                                  && (Media.user_id x =? Users.id user))).
  2:{ intros x. cbn. rewrite orb_false_r. reflexivity. }
  rewrite <- filter_filter_and.
  rewrite (filter_unique_key Media.id Z.eqb Z.eqb_eq (media d) m Hpk Hin).
  cbn. rewrite Hu, Z.eqb_refl. reflexivity.
Qed.

Lemma del_query_single (d : DB) (user : Users.t) (t : Tweets.t) :
  tweets_pk d -> In t (tweets d) -> Tweets.user_id t = Some (Users.id user) ->
  TweetRepository.ordered_rows d (del_query user (Tweets.id t)) = [t].
Proof.
  intros Hpk Hin Hu. unfold TweetRepository.ordered_rows, del_query.
  cbn [TweetRepository.order_by TweetRepository.kw
       TweetRepository.custom_filters].
  set (p := fun x => (Tweets.id x =? Tweets.id t)
                     && match Tweets.user_id x with
                        | Some u => u =? Users.id user
                        | None => false
                        end).
  transitivity (filter p (tweets d)).
  - rewrite <- (group_by_outerjoin p (likes d) (tweets d) []
                                   Hpk (fun _ _ H => H)).
    f_equal. apply filter_ext. intros r. unfold p. cbn.
    rewrite !andb_true_r. reflexivity.
  - unfold p. rewrite <- filter_filter_and. rewrite (tweet_by_pk d t Hpk Hin).
    cbn. rewrite Hu, Z.eqb_refl. reflexivity.
Qed.

(** Deleting a tweet whose one attachment is the last reference to its
    media row. *)
Lemma del_tweet_sole_media (settings : Settings) (user : Users.t)
  (t : Tweets.t) (m : Media.t) (row : TweetMedia.t) (path : string)
  (w : World) :
  tweets_pk (db w) -> In t (tweets (db w)) ->
  Tweets.user_id t = Some (Users.id user) ->
  filter (fun tm => TweetMedia.tweet_id tm =? Tweets.id t) (tweet_media (db w))
  = [row] ->
  find (fun x => Media.id x =? TweetMedia.media_id row) (media (db w)) = Some m ->
  referenced (without_tweet (db w) (Tweets.id t)) (Media.id m) = false ->
  upload_path settings m = Some path ->
  existsb (String.eqb path) (files w) = true ->
  TweetServices.del_tweet settings user (Tweets.id t) w
  = (Ok (mkGeneralAnswer true),
     mkWorld (without_media (without_tweet (db w) (Tweets.id t)) (Media.id m))
             (filter (fun p => negb (String.eqb path p)) (files w))
             (now w)
             (trace w
              ++ [tweet_repo_filter
                    [tweet_pk_eq (Tweets.id t); tweet_user_id_eq (Users.id user)]
                    None None;
                  tweet_repo_delete (Tweets.id t);
                  tm_repo_filter [tm_media_id_eq (Media.id m)];
                  os_remove_call path;
                  media_repo_delete (Media.id m)])
             (open_error w)).
Proof.
  intros Hpk Hin Hu Hrows Hfind Href Hpath Hfile.
  rewrite del_tweet_run, (del_query_single (db w) user t Hpk Hin Hu).
  cbn [TweetRepository.load TweetObj.media]. rewrite Hrows.
  cbn [map for_each]. unfold bind at 1. unfold bind at 1.
  rewrite reclaim_step.
  cbn [TweetRepository.load_media TweetMedia.media]. rewrite Hfind.
  simpl_world. rewrite Href, Hpath, Hfile.
  unfold ret. simpl_world. rewrite <- app_assoc. reflexivity.
Qed.

(** X21. Upload, post, delete.  On a database that satisfies the schema, a
    stored caller uploads a file whose name has no separator, under a path
    that is not on disk yet and that the file system lets it open for
    writing, [SAVE_PATH] being empty or ending with a separator; posts a
    tweet with the returned media id; deletes the returned tweet.  All three
    calls succeed, the file is on disk after the upload, and after the
    deletion the database and the upload directory are as they were
    before the upload. *)
Theorem upload_post_delete_round_trip
  (settings : Settings) (user : Users.t) (file : UploadFile) (text : string)
  (w : World) :
  consistent (db w) ->
  user_exists (db w) (Users.id user) = true ->
  os_path.has_sep (stored_name file) = false ->
  dir_prefix (SAVE_PATH settings) = true ->
  ~ In (stored_path settings file None) (files w) ->
  open_error w (stored_path settings file None) = None ->
  exists mr w1 out w2 w3,
    TweetServices.add_media_files settings user file None w = (Ok mr, w1)
    /\ In (stored_path settings file None) (files w1)
    /\ TweetServices.add_new_tweet
         user (mkTweetCreate text (Some [media_id mr])) w1
       = (Ok out, w2)
    /\ TweetServices.del_tweet settings user (tweet_id out) w2
       = (Ok (mkGeneralAnswer true), w3)
    /\ db w3 = db w /\ files w3 = files w.
Proof.
  intros Hc Hu Hname Hsave Hnew Hopen.
  set (path := stored_path settings file None) in *.
  set (m := new_media settings user file w).
  assert (Hex : existsb (String.eqb path) (files w) = false).
  { apply existsb_none. intros p Hp. apply String.eqb_neq. intros E.
    apply Hnew. rewrite E. exact Hp. }
  assert (Hmfresh : ~ In (Media.id m) (map Media.id (media (db w))))
    by apply next_id_not_In.
  eexists. eexists. eexists. eexists. eexists.
  split.
  { rewrite add_media_files_run. cbv zeta. fold path.
    rewrite Hopen, Hu, Hex. reflexivity. }
  split.
  { simpl_world. apply in_or_app. right. left. reflexivity. }
  cbn [media_id]. fold m.
  split.
  { rewrite (add_new_tweet_with_ids
               user (mkTweetCreate text (Some [Media.id m])) [Media.id m] _
               eq_refl);
      [|discriminate].
    simpl_world.
    rewrite validated_single.
    - change (Z.of_nat (List.length [m])
              =? Z.of_nat (List.length [Media.id m])) with true.
      cbv iota.
      unfold TweetRepository.add, TweetMediaRepository.add_all.
      unfold_m. unfold user_exists in *. simpl_world. rewrite Hu.
      cbn [negb truthy map tweet_data List.length Tweets.id].
      cbn [TweetMediaRepository.insert_all]. simpl_world.
      rewrite (existsb_none _ (tweet_media (db w))).
      2:{ intros tm Htm.
          rewrite (fresh_unreferenced
                     Tweets.id TweetMedia.tweet_id (tweets (db w))
                     (tweet_media (db w)) (c_tweet_media_tweet _ Hc) tm Htm).
          reflexivity. }
      unfold tweet_exists, media_exists. simpl_world.
      rewrite !existsb_app. cbn [existsb Tweets.id].
      rewrite !Z.eqb_refl. rewrite !orb_true_r. cbn [negb]. simpl_world.
      reflexivity.
    - unfold media_pk. simpl_world.
      apply NoDup_map_snoc; [exact (c_media_pk _ Hc)|exact Hmfresh].
    - simpl_world. apply in_or_app. right. left. reflexivity.
    - reflexivity. }
  cbn [tweet_id].
  set (t := Tweets.mk (next_id (map Tweets.id (tweets (db w))))
                      (Some (Users.id user)) (Some text) (now w)).
  set (row := TweetMedia.mk (next_id (map TweetMedia.id (tweet_media (db w))))
                            (Tweets.id t) (Media.id m)).
  change (next_id (map Tweets.id (tweets (db w)))) with (Tweets.id t) at 1.
  assert (Htfresh : ~ In (Tweets.id t) (map Tweets.id (tweets (db w))))
    by apply next_id_not_In.
  assert (Htm_t : forall tm, In tm (tweet_media (db w)) ->
                             (TweetMedia.tweet_id tm =? Tweets.id t) = false)
    by exact (fresh_unreferenced
                Tweets.id TweetMedia.tweet_id (tweets (db w))
                (tweet_media (db w)) (c_tweet_media_tweet _ Hc)).
  assert (Htm_m : forall tm, In tm (tweet_media (db w)) ->
                             (TweetMedia.media_id tm =? Media.id m) = false)
    by exact (fresh_unreferenced
                Media.id TweetMedia.media_id (media (db w))
                (tweet_media (db w)) (c_tweet_media_media _ Hc)).
  assert (Hl_t : forall l, In l (likes (db w)) ->
                           (Like.tweet_id l =? Tweets.id t) = false)
    by exact (fresh_unreferenced
                Tweets.id Like.tweet_id (tweets (db w))
                (likes (db w)) (c_likes_tweet _ Hc)).
  split.
  { apply (del_tweet_sole_media settings user t m row path); simpl_world.
    - unfold tweets_pk. simpl_world.
      apply NoDup_map_snoc; [exact (c_tweets_pk _ Hc)|exact Htfresh].
    - apply in_or_app. right. left. reflexivity.
    - reflexivity.
    - rewrite filter_app, (filter_none _ _ Htm_t). cbn.
      rewrite Z.eqb_refl. reflexivity.
    - cbn [TweetMedia.media_id row].
      apply (find_by_pk Media.id (media (db w) ++ [m]) m).
      + apply NoDup_map_snoc; [exact (c_media_pk _ Hc)|exact Hmfresh].
      + apply in_or_app. right. left. reflexivity.
    - unfold referenced, without_tweet. simpl_world.
      apply existsb_none. intros tm Htm. apply filter_In in Htm as [Htm Hk].
      apply in_app_or in Htm as [Htm|[<-|[]]]; [exact (Htm_m tm Htm)|].
      cbn in Hk. rewrite Z.eqb_refl in Hk. discriminate.
    - unfold upload_path, m, new_media, path, stored_path.
      cbn [Media.file_path].
      rewrite (basename_prefix _ _ Hname Hsave). reflexivity.
    - rewrite existsb_app. cbn. rewrite String.eqb_refl.
      apply orb_true_r. }
  assert (E_tm : filter (fun tm => negb (TweetMedia.tweet_id tm =? Tweets.id t))
                        (tweet_media (db w) ++ [row])
                 = tweet_media (db w)).
  { rewrite filter_app. rewrite (filter_keep_all _ (tweet_media (db w))).
    2:{ intros tm Htm. rewrite (Htm_t tm Htm). reflexivity. }
    cbn [filter TweetMedia.tweet_id row]. rewrite Z.eqb_refl. apply app_nil_r. }
  assert (E_tm' : filter (fun tm => negb (TweetMedia.media_id tm =? Media.id m))
                         (tweet_media (db w))
                  = tweet_media (db w)).
  { apply filter_keep_all. intros tm Htm. rewrite (Htm_m tm Htm). reflexivity. }
  assert (E_l : filter (fun l => negb (Like.tweet_id l =? Tweets.id t))
                       (likes (db w))
                = likes (db w)).
  { apply filter_keep_all. intros l Hl. rewrite (Hl_t l Hl). reflexivity. }
  unfold without_media, without_tweet. simpl_world. split.
  - etransitivity; [|apply DB_eta]. f_equal.
    + apply (filter_snoc_fresh Tweets.id). exact Htfresh.
    + apply (filter_snoc_fresh Media.id). exact Hmfresh.
    + exact (eq_trans (f_equal (filter _) E_tm) E_tm').
    + exact E_l.
  - rewrite filter_app. cbn. rewrite String.eqb_refl. cbn.
    rewrite app_nil_r. apply filter_keep_all. intros p Hp.
    apply negb_true_iff. apply String.eqb_neq. intros E.
    apply Hnew. rewrite E. exact Hp.
Qed.

Lemma upload_post_delete_round_trip_witness :
  exists mr w1 out w2 w3,
    TweetServices.add_media_files
      Ex.settings Ex.alice (mkUploadFile (Some "cat.png"%string)) None
      Ex.social_world
    = (Ok mr, w1)
    /\ In (stored_path Ex.settings (mkUploadFile (Some "cat.png"%string)) None)
          (files w1)
    /\ TweetServices.add_new_tweet
         Ex.alice (mkTweetCreate "my cat" (Some [media_id mr])) w1
       = (Ok out, w2)
    /\ TweetServices.del_tweet Ex.settings Ex.alice (tweet_id out) w2
       = (Ok (mkGeneralAnswer true), w3)
    /\ db w3 = db Ex.social_world /\ files w3 = files Ex.social_world.
Proof.
  apply (upload_post_delete_round_trip
           Ex.settings Ex.alice (mkUploadFile (Some "cat.png"%string))
           "my cat" Ex.social_world).
  - solve_consistent.
  - reflexivity.
  - reflexivity.
  - reflexivity.
  - intros [].
  - reflexivity.
Defined.

(* ------------------------------------------------------------------ *)
(** ** What the services leave alone *)

Lemma untouched_preserves {A B} (proj : World -> B) (m : M A) :
  (forall a, preserves (fun w => proj w = a) m) -> untouched proj m.
Proof. intros H w. apply (H (proj w) w). reflexivity. Qed.

(** The reads are taken apart; a write is run as a whole. *)
Ltac frame_unfold :=
  unfold FollowerRepository.get_subscribe, FollowerRepository.filter,
    UserRepository.get_by_id, TweetRepository.get_by_id,
    TweetRepository.filter, MediaRepository.filter,
    TweetMediaRepository.filter, LikeRepository.filter,
    TweetServices.reclaim, os_path_basename.

Ltac frame_write :=
  let w := fresh "w" in
  let H := fresh "H" in
  intros w H;
  unfold FollowerRepository.add, FollowerRepository.delete,
    TweetRepository.add, TweetRepository.delete,
    MediaRepository.add, MediaRepository.delete,
    TweetMediaRepository.add_all,
    LikeRepository.add, LikeRepository.delete,
    os_remove, write_file;
  unfold_m; cbn beta;
  repeat match goal with
    | |- context [if ?b then _ else _] => destruct b
    | |- context [match ?x with Ok _ => _ | Raise _ => _ end] => destruct x
    | |- context [open_error ?w ?p] => destruct (open_error w p)
    end;
  simpl_world; exact H.

Ltac frame :=
  apply untouched_preserves; intros ?;
  repeat first [preserve_step | progress frame_unfold | solve [frame_write]].

(** X22. What each write leaves alone, whether it returns or raises.
    No service writes the [users] table.  Following and unfollowing write
    the [followers] table only, liking and unliking the [likes] table only;
    none of the four touches a file.  Posting a tweet writes [tweets] and
    [tweet_media] only and touches no file.  Uploading writes [media] and
    the upload directory only.  Deleting a tweet leaves [users] and
    [followers] alone. *)
Theorem services_touch_only_their_tables (settings : Settings)
  (user : Users.t) :
  (forall id,
      untouched (fun w => (users (db w), tweets (db w), media (db w),
                           tweet_media (db w), likes (db w), files w))
                (UserServices.add_subscribe user id)
      /\ untouched (fun w => (users (db w), tweets (db w), media (db w),
                              tweet_media (db w), likes (db w), files w))
                   (UserServices.delete_subscribe user id)
      /\ untouched (fun w => (users (db w), tweets (db w), media (db w),
                              tweet_media (db w), followers (db w), files w))
                   (TweetServices.add_like user id)
      /\ untouched (fun w => (users (db w), tweets (db w), media (db w),
                              tweet_media (db w), followers (db w), files w))
                   (TweetServices.del_like user id)
      /\ untouched (fun w => (users (db w), followers (db w)))
                   (TweetServices.del_tweet settings user id))
  /\ (forall tweet,
         untouched (fun w => (users (db w), media (db w), likes (db w),
                              followers (db w), files w))
                   (TweetServices.add_new_tweet user tweet))
  /\ (forall file dir,
         untouched (fun w => (users (db w), tweets (db w), tweet_media (db w),
                              likes (db w), followers (db w)))
                   (TweetServices.add_media_files settings user file dir)).
Proof.
  split; [intros id; split; [|split; [|split; [|split]]]|split].
  - unfold UserServices.add_subscribe. frame.
  - unfold UserServices.delete_subscribe. frame.
  - unfold TweetServices.add_like. frame.
  - unfold TweetServices.del_like. frame.
  - unfold TweetServices.del_tweet. frame.
  - intros tweet. unfold TweetServices.add_new_tweet. frame.
  - intros file dir. unfold TweetServices.add_media_files. frame.
Qed.
